(** * FilesystemStorage: a shallow embedding and its verified properties

    This development embeds
    [nvflare/app_common/storages/filesystem_storage.py] and proves the
    properties its design document states about it.

    Conventions of the embedding:
    - a Python [str] is a [string]; its characters stand for the code
      points U+0000..U+00FF, which is the range the model covers;
    - Python [bytes] are a [list byte];
    - the file system is a finite map from locations to nodes; a
      location lists the names from the entry up to the root, so
      ["/data/obj/meta"] lives at [["meta"; "obj"; "data"]];
    - operations of the code that touch the file system run in a state
      and exception monad over a [world]: the file tree, the working
      directory, the values [uuid.uuid4] is going to draw and the
      outcome of the fault-prone system calls. *)

From Stdlib Require Import Ascii String ZArith NArith Lia Bool.
From Stdlib.Strings Require Import Byte.
From Stdlib Require Import Decimal DecimalFacts DecimalPos DecimalN DecimalString.
From stdpp Require Import gmap strings list fin_maps.

Local Open Scope Z_scope.
Local Open Scope stdpp_scope.

(* ===================================================================== *)
(** * Part I: definitions                                                 *)
(* ===================================================================== *)

(** ** Python string methods *)

Module pystr.

(** [c in chars]. *)
Fixpoint mem (c : ascii) (chars : string) : bool :=
  match chars with
  | "" => false
  | String d rest => if Ascii.eqb c d then true else mem c rest
  end.

(** [s.lstrip(chars)]: drops leading characters for as long as they
    belong to the set [chars]. *)
Fixpoint lstrip (chars s : string) : string :=
  match s with
  | "" => ""
  | String c rest => if mem c chars then lstrip chars rest else s
  end.

(** [s.startswith(prefix)]. *)
Fixpoint startswith (pre s : string) : bool :=
  match pre, s with
  | "", _ => true
  | String a pre', String b s' => Ascii.eqb a b && startswith pre' s'
  | String _ _, "" => false
  end.

(** [s.endswith(c)] for a one-character suffix. *)
Fixpoint endswith_char (c : ascii) (s : string) : bool :=
  match s with
  | "" => false
  | String d "" => Ascii.eqb c d
  | String _ rest => endswith_char c rest
  end.

(** [s[n:]]. *)
Fixpoint drop (n : nat) (s : string) : string :=
  match n, s with
  | O, _ => s
  | S n', String _ rest => drop n' rest
  | S _, "" => ""
  end.

(** [s.removeprefix(prefix)]: exact removal of one leading copy. *)
Definition removeprefix (pre s : string) : string :=
  if startswith pre s then drop (String.length pre) s else s.

(** [s.split(sep)] for a one-character separator; the result is never
    empty: ["/a//b/"] gives [[""; "a"; ""; "b"; ""]]. *)
Fixpoint split (sep : ascii) (s : string) : list string :=
  match s with
  | "" => [""]
  | String c rest =>
      if Ascii.eqb c sep then "" :: split sep rest
      else match split sep rest with
           | w :: ws => String c w :: ws
           | [] => [String c ""]
           end
  end.

(** [s.rstrip(c)] for a one-character set. *)
Fixpoint rstrip_char (c : ascii) (s : string) : string :=
  match s with
  | "" => ""
  | String d rest =>
      match rstrip_char c rest with
      | "" => if Ascii.eqb d c then "" else String d ""
      | r => String d r
      end
  end.

(** [all(ch == c for ch in s)]. *)
Fixpoint all_char (c : ascii) (s : string) : bool :=
  match s with
  | "" => true
  | String d rest => Ascii.eqb d c && all_char c rest
  end.

(** [s[:s.rfind(c) + 1]]: everything up to and including the last [c]. *)
Fixpoint upto_last (c : ascii) (s : string) : string :=
  match s with
  | "" => ""
  | String d rest =>
      match upto_last c rest with
      | "" => if Ascii.eqb d c then String d "" else ""
      | r => String d r
      end
  end.

(** [s[s.rfind(c) + 1:]]: what follows the last [c]. *)
Fixpoint after_last (c : ascii) (s : string) : string :=
  match s with
  | "" => ""
  | String d rest =>
      if mem c rest then after_last c rest
      else if Ascii.eqb d c then rest else s
  end.

End pystr.

(** ** [os.path] on POSIX: the pure functions *)

Module posixpath.

Definition sep : ascii := "/"%char.

(** [os.path.isabs(p)]. *)
Definition isabs (p : string) : bool := pystr.startswith "/" p.

(** [os.path.join(a, b)]: an absolute [b] replaces [a]; otherwise [b]
    is appended, after a separator unless [a] is empty or ends in one. *)
Definition join (a b : string) : string :=
  if pystr.startswith "/" b then b
  else if String.eqb a "" || pystr.endswith_char sep a then a +:+ b
  else a +:+ "/" +:+ b.

(** [os.path.dirname(p)]. *)
Definition dirname (p : string) : string :=
  let head := pystr.upto_last sep p in
  if negb (String.eqb head "") && negb (pystr.all_char sep head)
  then pystr.rstrip_char sep head
  else head.

(** [os.path.split(p)]: the head is what [dirname] gives, the tail what
    follows the last separator. *)
Definition split (p : string) : string * string :=
  (dirname p, pystr.after_last sep p).

End posixpath.

(** ** The storage object and path resolution *)

(** The two fields set by [FilesystemStorage.__init__]. *)
Record FilesystemStorage := {
  root_dir : string;
  uri_root : string
}.

(** [FilesystemStorage._object_path]. *)
Definition _object_path (self : FilesystemStorage) (uri : string) : string :=
  posixpath.join (root_dir self) (pystr.lstrip (uri_root self) uri).

(** The resolution the design document describes: the URI root is
    removed as one exact prefix before joining. *)
Definition prefix_object_path (self : FilesystemStorage) (uri : string) : string :=
  posixpath.join (root_dir self) (pystr.removeprefix (uri_root self) uri).


(** ** Exceptions and the monad of the embedding *)

(** The reasons for which the code raises [StorageException]; the code
    tells them apart by message only. *)
Inductive storage_error :=
  | AlreadyExists      (* "object ... already exists and overwrite_existing is False" *)
  | NonEmptyDirectory  (* "cannot create object ... at nonempty directory" *)
  | NotFound           (* "object ... does not exist" *)
  | InvalidPath        (* "path ... is not a valid directory." *)
  | WriteFailed        (* "failed to write content: ..." *)
  | ReadFailed.        (* "failed to read content: ..." *)

(** The builtin exceptions the modelled calls raise. *)
Inductive os_error :=
  | ENOENT | ENOTDIR | EISDIR | EEXIST | ENOTEMPTY | EINVAL | EBUSY | EIO.

Inductive exn :=
  | StorageException (why : storage_error)
  | OSError (errno : os_error)
  | UnicodeDecodeError
  | JSONDecodeError
  | LiteralError        (* [ValueError] or [SyntaxError] of [ast.literal_eval] *)
  | AttributeError
  | Unmodelled.         (* the input leaves the fragment the model covers *)

Inductive outcome (A : Type) :=
  | Return (a : A)
  | Raise (e : exn).
Arguments Return {A} a.
Arguments Raise {A} e.

Inductive node :=
  | File (content : list byte)
  | Dir.

(** The root directory is the location [[]]; it always exists and is not
    stored in the map. *)
Record world := World {
  tree : gmap (list string) node;
  cwd : list string;
  (** the 128-bit values the coming calls of [uuid.uuid4] draw *)
  rand : nat → N;
  rand_next : nat;
  (** the outcome of the coming fault-prone system calls: [None] lets the
      call go through, [Some n] makes it fail with an I/O error (a failing
      [write] has stored [n] bytes by then) *)
  io_fault : nat → option nat;
  io_next : nat
}.

Definition with_tree (t : gmap (list string) node) (w : world) : world :=
  World t (cwd w) (rand w) (rand_next w) (io_fault w) (io_next w).

Definition IO (A : Type) : Type := world → outcome A * world.

Definition ret {A} (a : A) : IO A := λ w, (Return a, w).
Definition raise {A} (e : exn) : IO A := λ w, (Raise e, w).
Definition bind {A B} (m : IO A) (f : A → IO B) : IO B :=
  λ w, match m w with
       | (Return a, w') => f a w'
       | (Raise e, w') => (Raise e, w')
       end.

(** [try: m except Exception as e: handler e]. *)
Definition try_except {A} (m : IO A) (handler : exn → IO A) : IO A :=
  λ w, match m w with
       | (Return a, w') => (Return a, w')
       | (Raise e, w') => handler e w'
       end.

Global Instance io_ret : MRet IO := @ret.
Global Instance io_bind : MBind IO := λ A B f m, bind m f.

Definition when (b : bool) (m : IO unit) : IO unit := if b then m else ret tt.

(** ** The file system *)

Module fs.

Definition node_at (t : gmap (list string) node) (k : list string) : option node :=
  match k with
  | [] => Some Dir
  | _ => t !! k
  end.

Definition is_dir (t : gmap (list string) node) (k : list string) : bool :=
  match node_at t k with Some Dir => true | _ => false end.

Definition is_file (t : gmap (list string) node) (k : list string) : bool :=
  match node_at t k with Some (File _) => true | _ => false end.

(** One step of path resolution from directory [k] along component [c]:
    an empty component and ["."] stay, [".."] goes up (staying at the
    root), a name goes down. *)
Definition step (k : list string) (c : string) : list string :=
  if bool_decide (c = "") || bool_decide (c = ".") then k
  else if bool_decide (c = "..") then tail k
  else c :: k.

(** Resolution of the components [cs] from [k]: every component is
    looked up in a directory, so every location passed on the way has to
    be one; the location reached need not exist. *)
Fixpoint walk (t : gmap (list string) node) (k : list string) (cs : list string)
  : option (list string) :=
  match cs with
  | [] => Some k
  | c :: cs' => if is_dir t k then walk t (step k c) cs' else None
  end.

Definition start (w : world) (p : string) : list string :=
  if posixpath.isabs p then [] else cwd w.

(** The location a path string names, if its resolution gets through;
    the empty path names nothing. *)
Definition resolve (w : world) (p : string) : option (list string) :=
  if bool_decide (p = "") then None
  else walk (tree w) (start w p) (pystr.split "/" p).

Definition lookup_path (w : world) (p : string) : option node :=
  k ← resolve w p; node_at (tree w) k.

(** [os.path.isfile], [os.path.isdir] and [os.path.exists] as functions
    of the world. *)
Definition isfile (w : world) (p : string) : bool :=
  match lookup_path w p with Some (File _) => true | _ => false end.
Definition isdir (w : world) (p : string) : bool :=
  match lookup_path w p with Some Dir => true | _ => false end.
Definition exists_ (w : world) (p : string) : bool :=
  match lookup_path w p with Some _ => true | None => false end.

(** The names of the entries of directory [k]. *)
Definition entries (t : gmap (list string) node) (k : list string) : list string :=
  omap (λ e : list string * node,
          match e.1 with
          | n :: k' => if bool_decide (k' = k) then Some n else None
          | [] => None
          end) (map_to_list t).

(** [k'] lies in the subtree rooted at [k]. *)
Definition below (k k' : list string) : bool := bool_decide (k `suffix_of` k').

Definition remove_subtree (t : gmap (list string) node) (k : list string)
  : gmap (list string) node :=
  filter (λ e : list string * node, ¬ k `suffix_of` e.1) t.

(** The subtree at [src], re-rooted at [dst]. *)
Definition moved_subtree (t : gmap (list string) node) (src dst : list string)
  : gmap (list string) node :=
  list_to_map
    (omap (λ e : list string * node,
             if below src e.1
             then Some (take (length e.1 - length src) e.1 ++ dst, e.2)
             else None) (map_to_list t)).

(** Creation of the directories along [cs], starting in [k]: what
    [Path.mkdir(parents=True, exist_ok=True)] amounts to.  It fails when
    a location on the way, or the one reached, is not a directory. *)
Fixpoint mkdirs (t : gmap (list string) node) (k : list string) (cs : list string)
  : option (gmap (list string) node) :=
  match cs with
  | [] => if is_dir t k then Some t else None
  | c :: cs' =>
      if is_dir t k then
        let k' := step k c in
        match node_at t k' with
        | None => mkdirs (<[k' := Dir]> t) k' cs'
        | Some _ => mkdirs t k' cs'
        end
      else None
  end.

End fs.

(** ** UTF-8 on the code points the model covers *)

Module utf8.

(** [s.encode("utf-8")]: code points below U+0080 take one byte, the
    others (up to U+00FF) two. *)
Definition encode_char (c : ascii) : list byte :=
  let n := N_of_ascii c in
  if (n <? 128)%N then [byte_of_ascii c]
  else [byte_of_ascii (ascii_of_N (192 + n / 64));
        byte_of_ascii (ascii_of_N (128 + n mod 64))].

Fixpoint encode (s : string) : list byte :=
  match s with
  | "" => []
  | String c rest => encode_char c ++ encode rest
  end.

(** [b.decode("utf-8")].  One-byte sequences and the two-byte sequences
    of U+0080..U+00FF are decoded; a lead byte 0xC2 or 0xC3 needs a
    continuation byte; well-formed sequences of code points above U+00FF
    leave the model, every other byte is a decoding error. *)
Fixpoint decode (bs : list byte) : outcome string :=
  match bs with
  | [] => Return ""
  | b :: rest =>
      let n := N_of_ascii (ascii_of_byte b) in
      if (n <? 128)%N then
        match decode rest with
        | Return s => Return (String (ascii_of_byte b) s)
        | Raise e => Raise e
        end
      else if (n =? 194)%N || (n =? 195)%N then
        match rest with
        | b2 :: rest' =>
            let m := N_of_ascii (ascii_of_byte b2) in
            if (128 <=? m)%N && (m <? 192)%N then
              match decode rest' with
              | Return s => Return (String (ascii_of_N ((n - 192) * 64 + (m - 128))) s)
              | Raise e => Raise e
              end
            else Raise UnicodeDecodeError
        | [] => Raise UnicodeDecodeError
        end
      else if (196 <=? n)%N && (n <? 245)%N then Raise Unmodelled
      else Raise UnicodeDecodeError
  end.

End utf8.

(** ** [uuid] *)

Module uuid.

Definition hex_digit (n : N) : ascii :=
  match n with
  | 0 => "0" | 1 => "1" | 2 => "2" | 3 => "3" | 4 => "4" | 5 => "5"
  | 6 => "6" | 7 => "7" | 8 => "8" | 9 => "9" | 10 => "a" | 11 => "b"
  | 12 => "c" | 13 => "d" | 14 => "e" | _ => "f"
  end%N%char.

(** ['%0<width>x' % n], prepended to [acc]. *)
Fixpoint hex (width : nat) (n : N) (acc : string) : string :=
  match width with
  | O => acc
  | S w => hex w (n / 16)%N (String (hex_digit (n mod 16)%N) acc)
  end.

(** [UUID(bytes=..., version=4).int]: the variant and version bits are
    forced onto the 128 random bits. *)
Definition v4 (r : N) : N :=
  let i := (r mod 2 ^ 128)%N in
  let i := N.ldiff i (N.shiftl 0xc000 48) in
  let i := N.lor i (N.shiftl 0x8000 48) in
  let i := N.ldiff i (N.shiftl 0xf000 64) in
  N.lor i (N.shiftl 4 76).

(** [str(u)]: the 32 hexadecimal digits in groups of 8-4-4-4-12. *)
Definition str (u : N) : string :=
  let h := hex 32 u "" in
  String.substring 0 8 h +:+ "-" +:+ String.substring 8 4 h +:+ "-" +:+
  String.substring 12 4 h +:+ "-" +:+ String.substring 16 4 h +:+ "-" +:+
  String.substring 20 12 h.

(** [uuid.uuid4()]. *)
Definition uuid4 : IO N :=
  λ w, (Return (v4 (rand w (rand_next w))),
        World (tree w) (cwd w) (rand w) (S (rand_next w)) (io_fault w) (io_next w)).

End uuid.

(** ** System calls *)

Module os.

Definition gets {A} (f : world → A) : IO A := λ w, (Return (f w), w).

(** Draws the outcome of a fault-prone call.  The calls on the write
    path ([mkdir], opening for writing, [write], [flush], [fsync]) are
    fault-prone; the others fail only for what the file tree holds. *)
Definition fault : IO (option nat) :=
  λ w, (Return (io_fault w (io_next w)),
        World (tree w) (cwd w) (rand w) (rand_next w) (io_fault w) (S (io_next w))).

(** [os.path.isfile], [os.path.isdir], [os.path.exists]. *)
Definition path_isfile (p : string) : IO bool := gets (λ w, fs.isfile w p).
Definition path_isdir (p : string) : IO bool := gets (λ w, fs.isdir w p).
Definition path_exists (p : string) : IO bool := gets (λ w, fs.exists_ w p).

(** [os.listdir(p)], and the names [os.scandir(p)] yields; the order is
    the one the directory happens to have. *)
Definition listdir (p : string) : IO (list string) :=
  λ w, match fs.resolve w p with
       | Some k =>
           match fs.node_at (tree w) k with
           | Some Dir => (Return (fs.entries (tree w) k), w)
           | Some (File _) => (Raise (OSError ENOTDIR), w)
           | None => (Raise (OSError ENOENT), w)
           end
       | None => (Raise (OSError ENOENT), w)
       end.
Definition scandir (p : string) : IO (list string) := listdir p.

(** [os.remove(p)]. *)
Definition remove (p : string) : IO unit :=
  λ w, match fs.resolve w p with
       | Some k =>
           match fs.node_at (tree w) k with
           | Some (File _) => (Return tt, with_tree (delete k (tree w)) w)
           | Some Dir => (Raise (OSError EISDIR), w)
           | None => (Raise (OSError ENOENT), w)
           end
       | None => (Raise (OSError ENOENT), w)
       end.

(** [os.rename(src, dst)]: a file replaces a file or takes a free name
    in an existing directory; a directory takes a free name or replaces
    an empty directory, and its subtree moves with it. *)
Definition rename (src dst : string) : IO unit :=
  λ w,
    let t := tree w in
    match fs.resolve w src, fs.resolve w dst with
    | Some ks, Some kd =>
        match fs.node_at t ks with
        | None => (Raise (OSError ENOENT), w)
        | Some (File c) =>
            match fs.node_at t kd with
            | Some Dir => (Raise (OSError EISDIR), w)
            | _ =>
                if negb (fs.is_dir t (tail kd)) then (Raise (OSError ENOENT), w)
                else if bool_decide (ks = kd) then (Return tt, w)
                else (Return tt, with_tree (<[kd := File c]> (delete ks t)) w)
            end
        | Some Dir =>
            if bool_decide (ks = kd) then (Return tt, w)
            else if bool_decide (ks = []) then (Raise (OSError EBUSY), w)
            else if fs.below ks kd then (Raise (OSError EINVAL), w)
            else
              match fs.node_at t kd with
              | Some (File _) => (Raise (OSError ENOTDIR), w)
              | Some Dir =>
                  match fs.entries t kd with
                  | [] => (Return tt,
                           with_tree (fs.moved_subtree t ks kd ∪ fs.remove_subtree t ks) w)
                  | _ :: _ => (Raise (OSError ENOTEMPTY), w)
                  end
              | None =>
                  if fs.is_dir t (tail kd)
                  then (Return tt,
                        with_tree (fs.moved_subtree t ks kd ∪ fs.remove_subtree t ks) w)
                  else (Raise (OSError ENOENT), w)
              end
        end
    | _, _ => (Raise (OSError ENOENT), w)
    end.

(** [os.fsync(f.fileno())]. *)
Definition fsync (f : list string) : IO unit :=
  x ← fault;
  match x with Some _ => raise (OSError EIO) | None => ret tt end.

(** [os.mkdir(p)]: trailing separators do not count; the entry must
    not be there and its parent must be a directory. *)
Definition mkdir (p : string) : IO unit :=
  x ← fault;
  match x with
  | Some _ => raise (OSError EIO)
  | None =>
      λ w,
        if bool_decide (p = "") then (Raise (OSError ENOENT), w)
        else if pystr.all_char posixpath.sep p then (Raise (OSError EEXIST), w)
        else
          match fs.resolve w (pystr.rstrip_char posixpath.sep p) with
          | Some k =>
              match fs.node_at (tree w) k with
              | Some _ => (Raise (OSError EEXIST), w)
              | None =>
                  if fs.is_dir (tree w) (tail k)
                  then (Return tt, with_tree (<[k := Dir]> (tree w)) w)
                  else (Raise (OSError ENOENT), w)
              end
          | None => (Raise (OSError ENOENT), w)
          end
  end.

(** The head and the tail [os.makedirs] works with: those of
    [os.path.split], taken again from the head when the tail is empty. *)
Definition split_leaf (name : string) : string * string :=
  let (head, tail) := posixpath.split name in
  if String.eqb tail "" then posixpath.split head else (head, tail).

(** [os.makedirs(name)], with [exist_ok] false: the missing head is
    made first, a [FileExistsError] on the way being passed over, then
    the leaf, unless it is ["."] behind a head just made.  The recursion
    is on ever shorter heads; [fuel] bounds it. *)
Fixpoint makedirs_fuel (fuel : nat) (name : string) : IO unit :=
  match fuel with
  | O => raise Unmodelled
  | S fuel' =>
      let (head, tail) := split_leaf name in
      stop ← (if negb (String.eqb head "") && negb (String.eqb tail "")
              then ex ← path_exists head;
                   if negb ex
                   then try_except (makedirs_fuel fuel' head)
                          (λ e, match e with
                                | OSError EEXIST => ret tt
                                | _ => raise e
                                end);;
                        ret (String.eqb tail ".")
                   else ret false
              else ret false : IO bool);
      if (stop : bool) then ret tt else mkdir name
  end.

Definition makedirs (name : string) : IO unit :=
  makedirs_fuel (S (String.length name)) name.

End os.

Module shutil.

(** [shutil.rmtree(p)]: the directory goes with everything below it;
    the root itself cannot be removed. *)
Definition rmtree (p : string) : IO unit :=
  λ w, match fs.resolve w p with
       | Some k =>
           match fs.node_at (tree w) k with
           | Some Dir =>
               let w' := with_tree (fs.remove_subtree (tree w) k) w in
               if bool_decide (k = []) then (Raise (OSError EBUSY), w')
               else (Return tt, w')
           | Some (File _) => (Raise (OSError ENOTDIR), w)
           | None => (Raise (OSError ENOENT), w)
           end
       | None => (Raise (OSError ENOENT), w)
       end.

End shutil.

Module pathlib.

(** [Path(p).mkdir(parents=True, exist_ok=True)]. *)
Definition mkdir_parents (p : string) : IO unit :=
  x ← os.fault;
  match x with
  | Some _ => raise (OSError EIO)
  | None =>
      λ w, match fs.mkdirs (tree w) (fs.start w p) (pystr.split "/" p) with
           | Some t' => (Return tt, with_tree t' w)
           | None => (Raise (OSError ENOTDIR), w)
           end
  end.

End pathlib.

(** ** Builtin file objects *)

Module builtins.

(** [open(p, "wb")] and [open(p, "w")]: the file is created or
    truncated; the handle is its location. *)
Definition open_write (p : string) : IO (list string) :=
  x ← os.fault;
  match x with
  | Some _ => raise (OSError EIO)
  | None =>
      λ w, match fs.resolve w p with
           | Some k =>
               match fs.node_at (tree w) k with
               | Some Dir => (Raise (OSError EISDIR), w)
               | _ =>
                   if fs.is_dir (tree w) (tail k)
                   then (Return k, with_tree (<[k := File []]> (tree w)) w)
                   else (Raise (OSError ENOENT), w)
               end
           | None => (Raise (OSError ENOENT), w)
           end
  end.

(** [f.write(content)] on a file just opened for writing. *)
Definition write (f : list string) (content : list byte) : IO unit :=
  x ← os.fault;
  match x with
  | Some n =>
      (λ w, (Return tt, with_tree (<[f := File (take n content)]> (tree w)) w));;
      raise (OSError EIO)
  | None =>
      λ w, (Return tt, with_tree (<[f := File content]> (tree w)) w)
  end.

(** [f.flush()]. *)
Definition flush (f : list string) : IO unit :=
  x ← os.fault;
  match x with Some _ => raise (OSError EIO) | None => ret tt end.

(** [with open(p, "rb") as f: f.read()]. *)
Definition read_bytes (p : string) : IO (list byte) :=
  λ w, match fs.lookup_path w p with
       | Some (File c) => (Return c, w)
       | Some Dir => (Raise (OSError EISDIR), w)
       | None => (Raise (OSError ENOENT), w)
       end.

End builtins.


(** ** Python values that JSON can represent *)

(** Metadata documents are built from [None], booleans, integers,
    strings, lists and string-keyed dictionaries; floating-point numbers
    are outside the model.  A dictionary keeps its items in insertion
    order. *)
#[local] Unset Elimination Schemes.
Inductive value :=
  | VNone
  | VBool (b : bool)
  | VInt (z : Z)
  | VStr (s : string)
  | VList (xs : list value)
  | VDict (items : list (string * value)).
#[local] Set Elimination Schemes.

Module dict.

(** [d.get(k)]. *)
Fixpoint get (k : string) (d : list (string * value)) : option value :=
  match d with
  | [] => None
  | (k', v) :: rest => if String.eqb k k' then Some v else get k rest
  end.

(** [d[k] = v]: the value of a key already there is replaced where it
    stands, a new key goes to the end. *)
Fixpoint set (k : string) (v : value) (d : list (string * value))
  : list (string * value) :=
  match d with
  | [] => [(k, v)]
  | (k', v') :: rest =>
      if String.eqb k k' then (k', v) :: rest else (k', v') :: set k v rest
  end.

(** [d.update(other)]. *)
Definition update (d other : list (string * value)) : list (string * value) :=
  fold_left (λ acc kv, set kv.1 kv.2 acc) other d.

(** [dict(pairs)]. *)
Definition of_pairs (pairs : list (string * value)) : list (string * value) :=
  update [] pairs.

End dict.

(** A value is well formed when no dictionary in it repeats a key, as is
    the case of every Python [dict]. *)
Fixpoint well_formed (v : value) : bool :=
  match v with
  | VList xs => forallb well_formed xs
  | VDict items =>
      bool_decide (NoDup (map fst items)) &&
      forallb (λ kv, well_formed (snd kv)) items
  | _ => true
  end.

(** ** Text of values: the layout [json.dumps] and [str] share *)

Module text.

Definition hex_value (c : ascii) : option N :=
  let n := N_of_ascii c in
  if (48 <=? n)%N && (n <=? 57)%N then Some (n - 48)%N
  else if (97 <=? n)%N && (n <=? 102)%N then Some (n - 87)%N
  else if (65 <=? n)%N && (n <=? 70)%N then Some (n - 55)%N
  else None.

(** Two lowercase hexadecimal digits of a code point below 256. *)
Definition hex2 (c : ascii) : string :=
  let n := N_of_ascii c in
  String (uuid.hex_digit (n / 16)%N) (String (uuid.hex_digit (n mod 16)%N) "").

(** [str(n)] of a natural number. *)
Definition digits (n : N) : string := NilEmpty.string_of_uint (N.to_uint n).

(** [str(z)] of an integer. *)
Definition str_int (z : Z) : string :=
  match z with
  | Z0 => "0"
  | Zpos p => digits (Npos p)
  | Zneg p => String "-" (digits (Npos p))
  end.

Definition is_digit (c : ascii) : bool :=
  let n := N_of_ascii c in (48 <=? n)%N && (n <=? 57)%N.

Fixpoint span_digits (s : string) : string * string :=
  match s with
  | "" => ("", "")
  | String c rest =>
      if is_digit c
      then let '(ds, t) := span_digits rest in (String c ds, t)
      else ("", s)
  end.

(** [s] starts with the character [c]. *)
Definition head_is (c : ascii) (s : string) : bool :=
  match s with
  | String d _ => Ascii.eqb d c
  | "" => false
  end.

(** An unsigned decimal integer at the head of [s]: a zero stands
    alone, any other number runs over all the digits that follow. *)
Definition scan_nat (s : string) : option (N * string) :=
  if head_is "0" s then Some (0%N, pystr.drop 1 s)
  else
    let '(ds, t) := span_digits s in
    match ds with
    | "" => None
    | _ => match NilEmpty.uint_of_string ds with
           | Some u => Some (N.of_uint u, t)
           | None => None
           end
    end.

Definition scan_int (s : string) : option (Z * string) :=
  if head_is "-" s then
    match scan_nat (pystr.drop 1 s) with
    | Some (n, t) => Some (- Z.of_N n, t)
    | None => None
    end
  else
    match scan_nat s with
    | Some (n, t) => Some (Z.of_N n, t)
    | None => None
    end.

Fixpoint skip (ws : ascii → bool) (s : string) : string :=
  match s with
  | "" => ""
  | String c rest => if ws c then skip ws rest else s
  end.

(** What tells the two notations apart: the exception a syntax error
    raises, the white space between tokens, how a scalar and how a
    dictionary key are written and read. *)
Record notation := {
  bad : exn;
  ws : ascii → bool;
  scalar : string → outcome (value * string);
  key : string → outcome (string * string);
  show_scalar : value → string;
  show_key : string → string
}.

Section Items.
Variable show : value → string.
Variable show_key : string → string.

(** The items of a list after the opening bracket, with [", "] between
    them, and the closing bracket. *)
Fixpoint show_items (xs : list value) : string :=
  match xs with
  | [] => "]"
  | [x] => show x +:+ "]"
  | x :: rest => show x +:+ ", " +:+ show_items rest
  end.

(** The items of a dictionary, with [": "] between a key and its value,
    and the closing brace. *)
Fixpoint show_pairs (kvs : list (string * value)) : string :=
  match kvs with
  | [] => "}"
  | [(k, x)] => show_key k +:+ ": " +:+ show x +:+ "}"
  | (k, x) :: rest => show_key k +:+ ": " +:+ show x +:+ ", " +:+ show_pairs rest
  end.

End Items.

Section Layout.
Variable nt : notation.

Fixpoint show (v : value) : string :=
  match v with
  | VList xs => String "[" (show_items show xs)
  | VDict kvs => String "{" (show_pairs show (show_key nt) kvs)
  | _ => show_scalar nt v
  end.

(** Recursive descent over the text; [n] bounds the depth of the
    descent.  [read] reads one value, [read_items] the items of a list
    up to its closing bracket, [read_pairs] those of a dictionary. *)
Fixpoint read (n : nat) (s : string) : outcome (value * string) :=
  match n with
  | O => Raise (bad nt)
  | S n' =>
      if head_is "[" s then
        let t := skip (ws nt) (pystr.drop 1 s) in
        if head_is "]" t then Return (VList [], pystr.drop 1 t)
        else
          match read_items n' t with
          | Return (xs, t') => Return (VList xs, t')
          | Raise e => Raise e
          end
      else if head_is "{" s then
        let t := skip (ws nt) (pystr.drop 1 s) in
        if head_is "}" t then Return (VDict [], pystr.drop 1 t)
        else
          match read_pairs n' t with
          | Return (kvs, t') => Return (VDict (dict.of_pairs kvs), t')
          | Raise e => Raise e
          end
      else scalar nt s
  end
with read_items (n : nat) (s : string) : outcome (list value * string) :=
  match n with
  | O => Raise (bad nt)
  | S n' =>
      match read n' s with
      | Return (x, t) =>
          let t := skip (ws nt) t in
          if head_is "]" t then Return ([x], pystr.drop 1 t)
          else if head_is "," t then
            match read_items n' (skip (ws nt) (pystr.drop 1 t)) with
            | Return (xs, t') => Return (x :: xs, t')
            | Raise e => Raise e
            end
          else Raise (bad nt)
      | Raise e => Raise e
      end
  end
with read_pairs (n : nat) (s : string) : outcome (list (string * value) * string) :=
  match n with
  | O => Raise (bad nt)
  | S n' =>
      match key nt s with
      | Return (k, t) =>
          let t := skip (ws nt) t in
          if head_is ":" t then
            match read n' (skip (ws nt) (pystr.drop 1 t)) with
            | Return (x, u) =>
                let u := skip (ws nt) u in
                if head_is "}" u then Return ([(k, x)], pystr.drop 1 u)
                else if head_is "," u then
                  match read_pairs n' (skip (ws nt) (pystr.drop 1 u)) with
                  | Return (kvs, u') => Return ((k, x) :: kvs, u')
                  | Raise e => Raise e
                  end
                else Raise (bad nt)
            | Raise e => Raise e
            end
          else Raise (bad nt)
      | Raise e => Raise e
      end
  end.

(** A whole text: one value, white space allowed after it. *)
Definition read_all (s : string) : outcome value :=
  match read (S (2 * String.length s)) s with
  | Return (v, t) =>
      match skip (ws nt) t with
      | "" => Return v
      | _ => Raise (bad nt)
      end
  | Raise e => Raise e
  end.

End Layout.

End text.

Definition dquote : ascii := "034"%char.
Definition squote : ascii := "039"%char.
Definition backslash : ascii := "092"%char.

(** Puts a character in front of the string a scanner returns. *)
Definition push (c : ascii) (r : outcome (string * string)) : outcome (string * string) :=
  match r with
  | Return (s, t) => Return (String c s, t)
  | Raise e => Raise e
  end.

(** ** [json] *)

Module json.

(** The replacement [json.dumps] (with [ensure_ascii]) makes for one
    character: the short escapes, the character itself when it is
    printable ASCII, a [\u00XX] escape otherwise. *)
Definition escape_char (c : ascii) : string :=
  let n := N_of_ascii c in
  if Ascii.eqb c dquote then String backslash (String dquote "")
  else if Ascii.eqb c backslash then String backslash (String backslash "")
  else if (n =? 10)%N then String backslash "n"
  else if (n =? 13)%N then String backslash "r"
  else if (n =? 9)%N then String backslash "t"
  else if (n =? 8)%N then String backslash "b"
  else if (n =? 12)%N then String backslash "f"
  else if (32 <=? n)%N && (n <=? 126)%N then String c ""
  else String backslash ("u00" +:+ text.hex2 c).

Fixpoint escape (s : string) : string :=
  match s with
  | "" => ""
  | String c rest => escape_char c +:+ escape rest
  end.

Definition quote (s : string) : string :=
  String dquote (escape s +:+ String dquote "").

(** The character a short escape stands for. *)
Definition unescape (e : ascii) : option ascii :=
  if Ascii.eqb e dquote then Some dquote
  else if Ascii.eqb e backslash then Some backslash
  else if Ascii.eqb e "/" then Some "/"%char
  else if Ascii.eqb e "b" then Some "008"%char
  else if Ascii.eqb e "f" then Some "012"%char
  else if Ascii.eqb e "n" then Some "010"%char
  else if Ascii.eqb e "r" then Some "013"%char
  else if Ascii.eqb e "t" then Some "009"%char
  else None.

Definition hex4 (a b c d : ascii) : option N :=
  match text.hex_value a, text.hex_value b, text.hex_value c, text.hex_value d with
  | Some x, Some y, Some z, Some u => Some (((x * 16 + y) * 16 + z) * 16 + u)%N
  | _, _, _, _ => None
  end.

(** The body of a string literal, after its opening quote, up to and
    including the closing one (strict mode: no raw control character). *)
Fixpoint scan_string (s : string) : outcome (string * string) :=
  match s with
  | "" => Raise JSONDecodeError
  | String c rest =>
      if Ascii.eqb c dquote then Return ("", rest)
      else if Ascii.eqb c backslash then
        match rest with
        | String e rest' =>
            if Ascii.eqb e "u" then
              match rest' with
              | String h1 (String h2 (String h3 (String h4 rest''))) =>
                  match hex4 h1 h2 h3 h4 with
                  | Some n =>
                      if (n <? 256)%N then push (ascii_of_N n) (scan_string rest'')
                      else Raise Unmodelled
                  | None => Raise JSONDecodeError
                  end
              | _ => Raise JSONDecodeError
              end
            else
              match unescape e with
              | Some ch => push ch (scan_string rest')
              | None => Raise JSONDecodeError
              end
        | "" => Raise JSONDecodeError
        end
      else if (N_of_ascii c <? 32)%N then Raise JSONDecodeError
      else push c (scan_string rest)
  end.

(** A fraction or an exponent follows: the number is a float. *)
Definition float_follows (t : string) : bool :=
  match t with
  | String "." (String d _) => text.is_digit d
  | String c (String d rest) =>
      if Ascii.eqb c "e" || Ascii.eqb c "E" then
        if Ascii.eqb d "+" || Ascii.eqb d "-" then
          match rest with String d' _ => text.is_digit d' | "" => false end
        else text.is_digit d
      else false
  | _ => false
  end.

Definition key (s : string) : outcome (string * string) :=
  if text.head_is dquote s then scan_string (pystr.drop 1 s) else Raise JSONDecodeError.

Definition scalar (s : string) : outcome (value * string) :=
  if pystr.startswith "null" s then Return (VNone, pystr.drop 4 s)
  else if pystr.startswith "true" s then Return (VBool true, pystr.drop 4 s)
  else if pystr.startswith "false" s then Return (VBool false, pystr.drop 5 s)
  else if pystr.startswith "NaN" s || pystr.startswith "Infinity" s
          || pystr.startswith "-Infinity" s then Raise Unmodelled
  else if text.head_is dquote s then
    match scan_string (pystr.drop 1 s) with
    | Return (x, t) => Return (VStr x, t)
    | Raise e => Raise e
    end
  else
    match text.scan_int s with
    | Some (z, t) => if float_follows t then Raise Unmodelled else Return (VInt z, t)
    | None => Raise JSONDecodeError
    end.

Definition show_scalar (v : value) : string :=
  match v with
  | VNone => "null"
  | VBool true => "true"
  | VBool false => "false"
  | VInt z => text.str_int z
  | VStr s => quote s
  | _ => ""
  end.

Definition whitespace (c : ascii) : bool :=
  let n := N_of_ascii c in (n =? 32)%N || (n =? 9)%N || (n =? 10)%N || (n =? 13)%N.

Definition notation : text.notation :=
  {| text.bad := JSONDecodeError;
     text.ws := whitespace;
     text.scalar := scalar;
     text.key := key;
     text.show_scalar := show_scalar;
     text.show_key := quote |}.

(** [json.dumps(v)], with its default separators and [ensure_ascii]. *)
Definition dumps (v : value) : string := text.show notation v.

(** [json.loads(s)]. *)
Definition loads (s : string) : outcome value :=
  text.read_all notation (text.skip whitespace s).

End json.

(** ** [str] of a value and [ast.literal_eval] *)

Module ast.

(** [c.isprintable()] on U+0000..U+00FF. *)
Definition printable (c : ascii) : bool :=
  let n := N_of_ascii c in
  ((32 <=? n)%N && (n <=? 126)%N) || ((161 <=? n)%N && negb (n =? 173)%N).

(** What [repr] writes for one character of a string quoted with [q]. *)
Definition repr_char (q c : ascii) : string :=
  let n := N_of_ascii c in
  if Ascii.eqb c backslash then String backslash (String backslash "")
  else if Ascii.eqb c q then String backslash (String q "")
  else if (n =? 9)%N then String backslash "t"
  else if (n =? 10)%N then String backslash "n"
  else if (n =? 13)%N then String backslash "r"
  else if printable c then String c ""
  else String backslash (String "x" (text.hex2 c)).

Fixpoint repr_body (q : ascii) (s : string) : string :=
  match s with
  | "" => ""
  | String c rest => repr_char q c +:+ repr_body q rest
  end.

(** [repr(s)]: single quotes, unless the string has a single quote and
    no double quote. *)
Definition repr_str (s : string) : string :=
  let q := if pystr.mem squote s && negb (pystr.mem dquote s) then dquote else squote in
  String q (repr_body q s +:+ String q "").

Definition unescape (e : ascii) : option ascii :=
  if Ascii.eqb e backslash then Some backslash
  else if Ascii.eqb e squote then Some squote
  else if Ascii.eqb e dquote then Some dquote
  else if Ascii.eqb e "n" then Some "010"%char
  else if Ascii.eqb e "r" then Some "013"%char
  else if Ascii.eqb e "t" then Some "009"%char
  else if Ascii.eqb e "a" then Some "007"%char
  else if Ascii.eqb e "b" then Some "008"%char
  else if Ascii.eqb e "f" then Some "012"%char
  else if Ascii.eqb e "v" then Some "011"%char
  else None.

(** The body of a string literal quoted with [q], up to and including
    the closing quote.  The escapes [repr] writes are read, and the
    other one-letter escapes; the rest of Python's literal syntax
    (octal and Unicode escapes, raw line ends) leaves the model. *)
Fixpoint scan_string (q : ascii) (s : string) : outcome (string * string) :=
  match s with
  | "" => Raise Unmodelled
  | String c rest =>
      if Ascii.eqb c q then Return ("", rest)
      else if Ascii.eqb c backslash then
        match rest with
        | String e rest' =>
            if Ascii.eqb e "x" then
              match rest' with
              | String h1 (String h2 rest'') =>
                  match text.hex_value h1, text.hex_value h2 with
                  | Some x, Some y => push (ascii_of_N (x * 16 + y)) (scan_string q rest'')
                  | _, _ => Raise Unmodelled
                  end
              | _ => Raise Unmodelled
              end
            else
              match unescape e with
              | Some ch => push ch (scan_string q rest')
              | None => Raise Unmodelled
              end
        | "" => Raise Unmodelled
        end
      else if (N_of_ascii c =? 10)%N || (N_of_ascii c =? 13)%N || (N_of_ascii c =? 0)%N
      then Raise Unmodelled
      else push c (scan_string q rest)
  end.

Definition key (s : string) : outcome (string * string) :=
  if text.head_is squote s then scan_string squote (pystr.drop 1 s)
  else if text.head_is dquote s then scan_string dquote (pystr.drop 1 s)
  else Raise Unmodelled.

(** A character that would make the token before it a longer one. *)
Definition joins (t : string) : bool :=
  match t with
  | "" => false
  | String c _ =>
      let n := N_of_ascii c in
      text.is_digit c || ((65 <=? n)%N && (n <=? 90)%N) || ((97 <=? n)%N && (n <=? 122)%N)
      || Ascii.eqb c "_" || Ascii.eqb c "." || (128 <=? n)%N
  end.

Definition word (v : value) (n : nat) (s : string) : outcome (value * string) :=
  if joins (pystr.drop n s) then Raise Unmodelled else Return (v, pystr.drop n s).

Definition scalar (s : string) : outcome (value * string) :=
  if pystr.startswith "None" s then word VNone 4 s
  else if pystr.startswith "True" s then word (VBool true) 4 s
  else if pystr.startswith "False" s then word (VBool false) 5 s
  else
    match key s with
    | Return (x, t) => Return (VStr x, t)
    | Raise _ =>
        match text.scan_int s with
        | Some (z, t) => if joins t then Raise Unmodelled else Return (VInt z, t)
        | None => Raise Unmodelled
        end
    end.

Definition show_scalar (v : value) : string :=
  match v with
  | VNone => "None"
  | VBool true => "True"
  | VBool false => "False"
  | VInt z => text.str_int z
  | VStr s => repr_str s
  | _ => ""
  end.

Definition whitespace (c : ascii) : bool :=
  let n := N_of_ascii c in
  (n =? 32)%N || (n =? 9)%N || (n =? 10)%N || (n =? 13)%N || (n =? 12)%N.

Definition blank (c : ascii) : bool :=
  let n := N_of_ascii c in (n =? 32)%N || (n =? 9)%N.

(** The notation of Python literals, as far as [str] writes it for a
    [value]; what it does not read is reported as [Unmodelled]. *)
Definition notation : text.notation :=
  {| text.bad := Unmodelled;
     text.ws := whitespace;
     text.scalar := scalar;
     text.key := key;
     text.show_scalar := show_scalar;
     text.show_key := repr_str |}.

(** [str(v)], which is [repr(v)] for the values at hand. *)
Definition str (v : value) : string := text.show notation v.

(** [ast.literal_eval(s)] of a string. *)
Definition literal_eval (s : string) : outcome value :=
  text.read_all notation (text.skip blank s).

End ast.


(** ** The storage code *)

Definition lift {A} (r : outcome A) : IO A := λ w, (r, w).

(** [for x in xs: acc = body acc x]. *)
Fixpoint for_each {A B} (xs : list A) (body : B → A → IO B) (acc : B) : IO B :=
  match xs with
  | [] => ret acc
  | x :: rest => acc' ← body acc x; for_each rest body acc'
  end.

(** The body of the [try] statement of [_write]. *)
Definition _write_try (path tmp_path : string) (content : list byte) : IO unit :=
  pathlib.mkdir_parents (posixpath.dirname path);;
  f ← builtins.open_write tmp_path;
  builtins.write f content;;
  builtins.flush f;;
  os.fsync f.

(** [_write(path, content)]. *)
Definition _write (path : string) (content : list byte) : IO unit :=
  u ← uuid.uuid4;
  let tmp_path := path +:+ "_" +:+ uuid.str u in
  try_except
    (_write_try path tmp_path content)
    (λ e,
       isf ← os.path_isfile tmp_path;
       when isf (os.remove tmp_path);;
       raise (StorageException WriteFailed));;
  ex ← os.path_exists tmp_path;
  when ex (os.rename tmp_path path).

(** [_read(path)]. *)
Definition _read (path : string) : IO (list byte) :=
  try_except (builtins.read_bytes path)
             (λ e, raise (StorageException ReadFailed)).

(** [_object_exists(uri)]. *)
Definition _object_exists (uri : string) : IO bool :=
  data_exists ← os.path_isfile (posixpath.join uri "data");
  meta_exists ← os.path_isfile (posixpath.join uri "meta");
  is_dir ← os.path_isdir uri;
  ret (posixpath.isabs uri && is_dir && data_exists && meta_exists).

(** [_encode_meta(meta)]. *)
Definition _encode_meta (meta : list (string * value)) : list byte :=
  utf8.encode (json.dumps (VDict meta)).

(** [_decode_meta(data)]. *)
Definition _decode_meta (data : list byte) : outcome value :=
  match utf8.decode data with
  | Raise e => Raise e
  | Return s =>
      if pystr.startswith (String dquote "") s then
        (* this is in old format *)
        match json.loads s with
        | Return (VStr t) => ast.literal_eval t
        | Return _ => Raise LiteralError
        | Raise e => Raise e
        end
      else
        (* this is json string *)
        json.loads s
  end.

Section Methods.
Variable self : FilesystemStorage.

(** [FilesystemStorage.create_object]. *)
Definition create_object (uri : string) (data : list byte)
    (meta : list (string * value)) (overwrite_existing : bool) : IO string :=
  let full_uri := _object_path self uri in
  ex ← _object_exists full_uri;
  if ex && negb overwrite_existing then raise (StorageException AlreadyExists)
  else
    ex ← _object_exists full_uri;
    is_dir ← os.path_isdir full_uri;
    occupied ← (if negb ex && is_dir
                then names ← os.listdir full_uri;
                     ret (negb (bool_decide (names = [])))
                else ret false : IO bool);
    if (occupied : bool) then raise (StorageException NonEmptyDirectory)
    else
      let data_path := posixpath.join full_uri "data" in
      let meta_path := posixpath.join full_uri "meta" in
      u ← uuid.uuid4;
      let tmp_data_path := data_path +:+ "_" +:+ uuid.str u in
      _write tmp_data_path data;;
      try_except (_write meta_path (_encode_meta meta))
                 (λ e, os.remove tmp_data_path;; raise e);;
      os.rename tmp_data_path data_path;;
      ret full_uri.

(** [FilesystemStorage.get_meta]. *)
Definition get_meta (uri : string) : IO value :=
  let full_uri := _object_path self uri in
  ex ← _object_exists full_uri;
  if negb ex then raise (StorageException NotFound)
  else
    raw ← _read (posixpath.join full_uri "meta");
    lift (_decode_meta raw).

(** [FilesystemStorage.get_data]. *)
Definition get_data (uri : string) : IO (list byte) :=
  let full_uri := _object_path self uri in
  ex ← _object_exists full_uri;
  if negb ex then raise (StorageException NotFound)
  else _read (posixpath.join full_uri "data").

(** [FilesystemStorage.get_detail]. *)
Definition get_detail (uri : string) : IO (value * list byte) :=
  let full_uri := _object_path self uri in
  ex ← _object_exists full_uri;
  if negb ex then raise (StorageException NotFound)
  else
    m ← get_meta uri;
    d ← get_data uri;
    ret (m, d).

(** [FilesystemStorage.update_meta]; [prev_meta.update(meta)] needs the
    stored document to be a dictionary. *)
Definition update_meta (uri : string) (meta : list (string * value))
    (replace : bool) : IO unit :=
  let full_uri := _object_path self uri in
  ex ← _object_exists full_uri;
  if negb ex then raise (StorageException NotFound)
  else if replace then
    _write (posixpath.join full_uri "meta") (_encode_meta meta)
  else
    prev_meta ← get_meta uri;
    match prev_meta with
    | VDict items =>
        _write (posixpath.join full_uri "meta")
               (_encode_meta (dict.update items meta))
    | _ => raise AttributeError
    end.

(** [FilesystemStorage.update_data]. *)
Definition update_data (uri : string) (data : list byte) : IO unit :=
  let full_uri := _object_path self uri in
  ex ← _object_exists full_uri;
  if negb ex then raise (StorageException NotFound)
  else _write (posixpath.join full_uri "data") data.

(** [FilesystemStorage.list_objects]; an absent or empty [without_tag]
    filters nothing. *)
Definition list_objects (path : string) (without_tag : option string)
  : IO (list string) :=
  let full_dir_path := _object_path self path in
  is_dir ← os.path_isdir full_dir_path;
  if negb is_dir then raise (StorageException InvalidPath)
  else
    gen ← os.scandir full_dir_path;
    for_each gen
      (λ result name,
         let obj_dir := posixpath.join full_dir_path name in
         ex ← _object_exists obj_dir;
         if (ex : bool) then
           tagged ← match without_tag with
                    | None => ret false
                    | Some tag =>
                        if bool_decide (tag = "") then ret false
                        else os.path_exists (posixpath.join obj_dir tag)
                    end;
           if negb tagged then ret (result ++ [posixpath.join path name])
           else ret result
         else ret result)
      [].

(** [FilesystemStorage.delete_object]. *)
Definition delete_object (uri : string) : IO string :=
  let full_uri := posixpath.join (root_dir self) (pystr.lstrip (uri_root self) uri) in
  ex ← _object_exists full_uri;
  if negb ex then raise (StorageException NotFound)
  else
    shutil.rmtree full_uri;;
    ret full_uri.

(** [FilesystemStorage.tag_object]: the marker is opened in text mode
    and [data], when it is a non-empty string, written to it. *)
Definition tag_object (uri tag : string) (data : option string) : IO unit :=
  let full_path := _object_path self uri in
  let mark_file := posixpath.join full_path tag in
  f ← builtins.open_write mark_file;
  match data with
  | Some d => if bool_decide (d = "") then ret tt else builtins.write f (utf8.encode d)
  | None => ret tt
  end.

End Methods.

(** What [FilesystemStorage.__init__] ends with: the storage, one of
    its two [ValueError]s, or the exception of [os.makedirs]. *)
Inductive init_error :=
  | NotAbsolute      (* "root_dir ... must be an absolute path." *)
  | NotADirectory.   (* "root_dir ... exists but is not a directory." *)

Inductive init_outcome :=
  | Built (self : FilesystemStorage)
  | ValueError (why : init_error)
  | Failed (e : exn).

(** [FilesystemStorage.__init__(root_dir, uri_root)]. *)
Definition __init__ (root_dir uri_root : string) : world → init_outcome * world :=
  λ w,
    if negb (posixpath.isabs root_dir) then (ValueError NotAbsolute, w)
    else if fs.exists_ w root_dir && negb (fs.isdir w root_dir)
    then (ValueError NotADirectory, w)
    else if negb (fs.exists_ w root_dir) then
      match os.makedirs root_dir w with
      | (Return _, w') => (Built {| root_dir := root_dir; uri_root := uri_root |}, w')
      | (Raise e, w') => (Failed e, w')
      end
    else (Built {| root_dir := root_dir; uri_root := uri_root |}, w).



(** ** Notions the statements are phrased with *)

(** Every entry of the tree lies in a directory. *)
Definition sound (t : gmap (list string) node) : Prop :=
  ∀ n k, is_Some (t !! (n :: k)) → fs.is_dir t k = true.

(** A file or directory name: not empty, no separator, neither ["."]
    nor [".."]. *)
Definition proper (name : string) : bool :=
  negb (String.eqb name "") && negb (pystr.mem "/" name)
  && negb (String.eqb name ".") && negb (String.eqb name "..").

(** The components of a path, without the empty ones at their end. *)
Fixpoint strip_blank (cs : list string) : list string :=
  match cs with
  | [] => []
  | c :: rest =>
      match strip_blank rest with
      | [] => if bool_decide (c = "") then [] else [c]
      | r => c :: r
      end
  end.

(** The location reached from [k] along the components [cs]. *)
Definition loc (k : list string) (cs : list string) : list string :=
  fold_left fs.step cs k.

(** Resolution of [cs] from [k] that has to end in a directory. *)
Definition walk_dir (t : gmap (list string) node) (k : list string) (cs : list string)
  : option (list string) :=
  k' ← fs.walk t k cs; if fs.is_dir t k' then Some k' else None.

(** The directory a path names, if it names one. *)
Definition dir_of (w : world) (p : string) : option (list string) :=
  k ← fs.resolve w p; if fs.is_dir (tree w) k then Some k else None.

(** No component of the path is [".."]. *)
Definition no_dotdot (p : string) : bool :=
  forallb (λ c, negb (String.eqb c "..")) (pystr.split "/" p).

(** No I/O fault is going to strike. *)
Definition calm (w : world) : Prop :=
  ∀ i, (io_next w ≤ i)%nat → io_fault w i = None.

(** The test [_object_exists] makes, as a function of the world. *)
Definition valid_object (w : world) (p : string) : bool :=
  posixpath.isabs p && fs.isdir w p
  && fs.isfile w (posixpath.join p "data") && fs.isfile w (posixpath.join p "meta").

(** An object as the file tree holds it: its directory and the contents
    of its two files. *)
Definition object_at (w : world) (p : string) (k : list string) (d m : list byte) : Prop :=
  posixpath.isabs p = true ∧ dir_of w p = Some k
  ∧ tree w !! ("data" :: k) = Some (File d) ∧ tree w !! ("meta" :: k) = Some (File m).

(** The name of a temporary file: [base], an underscore and the UUID
    drawn [i] draws from now. *)
Definition temp_name (w : world) (i : nat) (base : string) : string :=
  base +:+ "_" +:+ uuid.str (uuid.v4 (rand w (i + rand_next w)%nat)).

(** The names of the temporary files the next [create_object] uses. *)
Definition temp_names (w : world) : list string :=
  [temp_name w 0 "data"; temp_name w 1 (temp_name w 0 "data"); temp_name w 2 "meta"].

(** The name [nm] is not taken in the directory [p]. *)
Definition unused (w : world) (p nm : string) : Prop :=
  fs.lookup_path w (posixpath.join p nm) = None.

(** None of the temporary names of the next [create_object] is taken. *)
Definition fresh (w : world) (p : string) : Prop :=
  ∀ nm, nm ∈ temp_names w → unused w p nm.

(** The directory [p], if there is one, has no entry. *)
Definition vacant (w : world) (p : string) : Prop :=
  ∀ k, dir_of w p = Some k → fs.entries (tree w) k = [].

(** The tree [create_object] leaves when it starts from the tree [t1]
    in which the directory at [kD] is made. *)
Definition created (w : world) (kD : list string) (data meta : list byte)
    (t1 : gmap (list string) node) : gmap (list string) node :=
  <["data" :: kD := File data]> (delete (temp_name w 0 "data" :: kD)
    (<["meta" :: kD := File meta]> (delete (temp_name w 2 "meta" :: kD)
      (<[temp_name w 0 "data" :: kD := File data]>
         (delete (temp_name w 1 (temp_name w 0 "data") :: kD) t1))))).

(** A text followed by the end, a comma or a closing bracket. *)
Definition closing (rest : string) : bool :=
  match rest with
  | "" => true
  | String c _ => Ascii.eqb c "," || Ascii.eqb c "]" || Ascii.eqb c "}"
  end.

(** A text that does not go on with a digit. *)
Definition nondigit (rest : string) : Prop :=
  match rest with String c _ => text.is_digit c = false | "" => True end.

(** The values that are not containers. *)
Definition atom (v : value) : bool :=
  match v with VList _ | VDict _ => false | _ => true end.

(** A text whose first character is neither white space nor a closing
    bracket; one that, moreover, does not open a container. *)
Definition starts (nt : text.notation) (s : string) : Prop :=
  ∃ c t, s = String c t ∧ text.ws nt c = false ∧ c ≠ "]"%char ∧ c ≠ "}"%char.

Definition starts_atom (nt : text.notation) (s : string) : Prop :=
  ∃ c t, s = String c t ∧ text.ws nt c = false ∧ c ≠ "]"%char ∧ c ≠ "}"%char
         ∧ c ≠ "["%char ∧ c ≠ "{"%char.

(** Reading back what [show] writes of [v]. *)
Definition reads (nt : text.notation) (v : value) : Prop :=
  ∀ n rest, closing rest = true → (String.length (text.show nt v) ≤ n)%nat →
  text.read nt n (text.show nt v +:+ rest) = Return (v, rest).

(** A path without [".."] has none among its components. *)
Definition plain (cs : list string) : Prop := ".." ∉ cs.

(** The bytes [tag_object] leaves in the marker file. *)
Definition tag_payload (data : option string) : list byte :=
  match data with Some d => utf8.encode d | None => [] end.

(** An entry named [tag] stands in the directory [p]; no tag, or an
    empty one, is never found. *)
Definition tagged (w : world) (p : string) (without_tag : option string) : bool :=
  match without_tag with
  | None => false
  | Some tag => if bool_decide (tag = "") then false else fs.exists_ w (posixpath.join p tag)
  end.

(** The entries of the directory [dir] that [list_objects] keeps. *)
Definition listed (w : world) (dir : string) (without_tag : option string)
    (name : string) : bool :=
  valid_object w (posixpath.join dir name)
  && negb (tagged w (posixpath.join dir name) without_tag).

(** [t'] is [t] but for what the location [k] holds, which is no
    directory in either. *)
Definition same_but (k : list string) (t t' : gmap (list string) node) : Prop :=
  (∀ x, x ≠ k → t' !! x = t !! x) ∧ (∀ x, fs.is_dir t' x = fs.is_dir t x).

(** [tb] is [t], or [t] with the directories along [cs] made. *)
Definition made (k0 : list string) (cs : list string)
    (t tb : gmap (list string) node) : Prop :=
  tb = t ∨ fs.mkdirs t k0 cs = Some tb.

(** A check of [sound] that computes. *)
Definition sound_check (t : gmap (list string) node) : bool :=
  forallb (λ e : list string * node,
             match e.1 with [] => true | _ :: k => fs.is_dir t k end)
          (map_to_list t).

(** A check of [fresh] that computes. *)
Definition fresh_check (w : world) (p : string) : bool :=
  forallb (λ nm, negb (fs.exists_ w (posixpath.join p nm))) (temp_names w).

(** A check of [vacant] that computes. *)
Definition vacant_check (w : world) (p : string) : bool :=
  match dir_of w p with
  | Some k => match fs.entries (tree w) k with [] => true | _ :: _ => false end
  | None => true
  end.

(** Modelled from the spec: the writer of the legacy Meta encoding is
    not part of the sources.  The design document describes the legacy
    shape as the structured document "textually quoted and embedded
    inside a further textual layer", and [_decode_meta] undoes it with
    [ast.literal_eval (json.loads s)]: the text of the mapping, as [str]
    writes it, wrapped into one JSON string. *)
Definition legacy_encode_meta (meta : list (string * value)) : list byte :=
  utf8.encode (json.dumps (VStr (ast.str (VDict meta)))).

(** ** Sample stores and worlds *)

Module demo.

Definition store : FilesystemStorage := {| root_dir := "/s"; uri_root := "/" |}.
Definition jobs : FilesystemStorage := {| root_dir := "/data"; uri_root := "/jobs/" |}.

Definition hi : list byte := [x68; x69].
Definition meta1 : list (string * value) := [("a", VInt 1)].
Definition meta2 : list (string * value) := [("b", VInt 2)].

Definition draws : nat → N := λ n, N.of_nat n.
Definition quiet : nat → option nat := λ _, None.

(** A world around the file tree [l] in which no I/O fault strikes. *)
Definition around (l : list (list string * node)) : world :=
  World (list_to_map l) [] draws 0 quiet 0.

(** Nothing but the root directory. *)
Definition blank : world := around [].

(** The object [/s/o] with the data [hi] and the metadata [meta1]. *)
Definition stored : world :=
  around [(["s"], Dir); (["o"; "s"], Dir);
          (["data"; "o"; "s"], File hi);
          (["meta"; "o"; "s"], File (_encode_meta meta1))].

(** What an interrupted [create_object] can leave at [/s/o]: the
    metadata in place, the data still under its temporary name. *)
Definition interrupted : world :=
  around [(["s"], Dir); (["o"; "s"], Dir);
          (["data_6fa459ea-ee8a-4ca4-894e-db77e160355e"; "o"; "s"], File hi);
          (["meta"; "o"; "s"], File (_encode_meta meta1))].

(** The directory [/s/o] with a data file and no metadata. *)
Definition data_only : world :=
  around [(["s"], Dir); (["o"; "s"], Dir); (["data"; "o"; "s"], File hi)].

(** Under [/s]: the objects [o] and [p], the second one tagged [done],
    the empty directory [q] and the plain file [f]. *)
Definition shelf : world :=
  around [(["s"], Dir);
          (["o"; "s"], Dir);
          (["data"; "o"; "s"], File hi);
          (["meta"; "o"; "s"], File (_encode_meta meta1));
          (["p"; "s"], Dir);
          (["data"; "p"; "s"], File hi);
          (["meta"; "p"; "s"], File (_encode_meta meta2));
          (["done"; "p"; "s"], File []);
          (["q"; "s"], Dir);
          (["f"; "s"], File hi)].

(** The world [blank] in which the third fault-prone call, the
    [write], stops after one byte. *)
Definition failing : world :=
  World ∅ [] draws 0 (λ i, if Nat.eqb i 2 then Some 1%nat else None) 0.

(** The object [/s/o] with a meta file that is no JSON document. *)
Definition corrupt : world :=
  around [(["s"], Dir); (["o"; "s"], Dir);
          (["data"; "o"; "s"], File hi);
          (["meta"; "o"; "s"], File [x7b])].


End demo.

(* ===================================================================== *)
(** * Part II: properties                                                 *)
(* ===================================================================== *)

Ltac each_char c := destruct c as [[] [] [] [] [] [] [] []].

(** ** Strings *)

Lemma app_String c s t : String c s +:+ t = String c (s +:+ t).
Proof. reflexivity. Qed.

Lemma app_empty_l t : "" +:+ t = t.
Proof. reflexivity. Qed.

Lemma app_empty_r s : s +:+ "" = s.
Proof. induction s; [done|]. by rewrite app_String, IHs. Qed.

Lemma app_assoc_s (a b c : string) : (a +:+ b) +:+ c = a +:+ b +:+ c.
Proof. induction a; [done|]. by rewrite !app_String, IHa. Qed.

Lemma split_nonnil c s : pystr.split c s ≠ [].
Proof. destruct s; simpl; [done|]. destruct (Ascii.eqb a c); [done|]. by destruct (pystr.split c s). Qed.

Lemma split_last c s : ∃ cs l, pystr.split c s = cs ++ [l] ∧ pystr.mem c l = false.
Proof.
  induction s as [|a s (cs & l & Hs & Hl)]; simpl.
  - by exists [], "".
  - destruct (Ascii.eqb a c) eqn:E.
    + exists ("" :: cs), l. by rewrite Hs.
    + rewrite Hs. destruct cs as [|x cs]; simpl.
      * exists [], (String a l). split; [done|]. simpl. rewrite Ascii.eqb_sym, E. done.
      * by exists (String a x :: cs), l.
Qed.

Lemma split_app_sep c a b :
  pystr.split c (a +:+ String c b) = pystr.split c a ++ pystr.split c b.
Proof.
  induction a as [|x a IH]; simpl.
  - by rewrite Ascii.eqb_refl.
  - destruct (Ascii.eqb x c); [by rewrite IH|].
    rewrite IH. destruct (pystr.split c a) eqn:E; [by apply split_nonnil in E|done].
Qed.

Lemma split_nosep c s : pystr.mem c s = false → pystr.split c s = [s].
Proof.
  induction s as [|x s IH]; simpl; [done|].
  rewrite Ascii.eqb_sym. destruct (Ascii.eqb x c); [done|]. intros H. by rewrite IH.
Qed.

Lemma split_app_nosep c a b cs l :
  pystr.split c a = cs ++ [l] → pystr.mem c b = false →
  pystr.split c (a +:+ b) = cs ++ [l +:+ b].
Proof.
  revert cs l. induction a as [|x a IH]; simpl; intros cs l Hs Hb.
  - destruct cs as [|? [|]]; simplify_eq/=. by apply split_nosep.
  - destruct (Ascii.eqb x c).
    + destruct cs as [|y cs]; simplify_eq/=; [by apply split_nonnil in H0|].
      by rewrite (IH _ _ H0 Hb).
    + destruct (split_last c a) as (cs' & l' & E & _). rewrite E in Hs.
      rewrite (IH _ _ E Hb).
      destruct cs' as [|y cs']; simpl in *.
      * destruct cs as [|? [|]]; simplify_eq/=. done.
      * destruct cs as [|z cs]; simplify_eq/=.
        { by destruct cs'. }
        apply app_inj_tail in H0 as [-> ->]. done.
Qed.

Lemma endswith_split c a :
  pystr.endswith_char c a = true → ∃ cs, pystr.split c a = cs ++ [""].
Proof.
  induction a as [|x a IH]; simpl; [done|].
  destruct a as [|y a].
  - intros H. rewrite Ascii.eqb_sym in H. rewrite H. by exists [""].
  - intros H. destruct (IH H) as (cs & E). rewrite E.
    destruct (Ascii.eqb x c); [by exists ("" :: cs)|].
    destruct cs; simpl; [|by eexists (_ :: _)].
    simpl in E. destruct (Ascii.eqb y c); [simplify_eq; by apply split_nonnil in E|].
    by destruct (pystr.split c a).
Qed.

Lemma not_endswith_app c a : a ≠ "" → 
  pystr.endswith_char c a = false → ∀ cs l, pystr.split c a = cs ++ [l] → l ≠ "".
Proof.
  induction a as [|x a IH]; simpl; [done|]. intros _.
  destruct a as [|y a].
  - intros H cs l. rewrite Ascii.eqb_sym in H. rewrite H. simpl.
    intros E. destruct cs as [|? [|]]; simplify_eq/=. done.
  - intros H cs l. specialize (IH ltac:(done) H).
    destruct (split_last c (String y a)) as (cs' & l' & E & _). rewrite E.
    specialize (IH _ _ E).
    destruct (Ascii.eqb x c).
    + intros E2. change ("" :: cs' ++ [l']) with (("" :: cs') ++ [l']) in E2.
      apply app_inj_tail in E2 as [_ <-]. done.
    + destruct cs'; simpl.
      * intros E2. destruct cs as [|? [|]]; simplify_eq/=. done.
      * intros E2. change (String x s :: cs' ++ [l']) with ((String x s :: cs') ++ [l']) in E2.
        apply app_inj_tail in E2 as [_ <-]. done.
Qed.

(** ** Paths *)

Lemma proper_spec name :
  proper name = true →
  name ≠ "" ∧ pystr.mem "/" name = false ∧ name ≠ "." ∧ name ≠ "..".
Proof.
  unfold proper. rewrite !andb_true_iff, !negb_true_iff.
  intros [[[H1 H2] H3] H4]. repeat split; try done.
  all: intros ->; simpl in *; done.
Qed.

Lemma startswith_app_nonempty pre a b :
  a ≠ "" → String.length pre = 1%nat →
  pystr.startswith pre (a +:+ b) = pystr.startswith pre a.
Proof.
  destruct pre as [|p [|]]; try done. destruct a; [done|]. intros _ _. simpl.
  done.
Qed.

Lemma join_unfold F name :
  F ≠ "" → proper name = true →
  posixpath.join F name =
    if pystr.endswith_char "/" F then F +:+ name else F +:+ "/" +:+ name.
Proof.
  intros HF (Hn & Hs & _)%proper_spec. unfold posixpath.join.
  assert (pystr.startswith "/" name = false) as ->.
  { destruct name as [|a name]; [done|].
    change (pystr.startswith "/" (String a name)) with (Ascii.eqb "/" a && true).
    change (pystr.mem "/" (String a name))
      with (if Ascii.eqb "/" a then true else pystr.mem "/" name) in Hs.
    by destruct (Ascii.eqb "/" a). }
  assert (String.eqb F "" = false) as ->.
  { by apply String.eqb_neq. }
  done.
Qed.

Lemma join_split F name :
  F ≠ "" → proper name = true →
  ∃ cs, pystr.split "/" (posixpath.join F name) = cs ++ [name]
        ∧ (pystr.split "/" F = cs ∨ pystr.split "/" F = cs ++ [""])
        ∧ posixpath.isabs (posixpath.join F name) = posixpath.isabs F.
Proof.
  intros HF Hp. rewrite (join_unfold _ _ HF Hp).
  apply proper_spec in Hp as (Hn & Hs & _). unfold posixpath.isabs.
  destruct (pystr.endswith_char "/" F) eqn:E.
  - apply endswith_split in E as [cs E]. exists cs. split_and!.
    + by rewrite (split_app_nosep _ _ _ _ _ E Hs).
    + by right.
    + by apply startswith_app_nonempty.
  - exists (pystr.split "/" F). split_and!.
    + change ("/" +:+ name) with (String "/" name).
      by rewrite split_app_sep, (split_nosep _ _ Hs).
    + by left.
    + by apply startswith_app_nonempty.
Qed.

Lemma join_app F a b :
  a ≠ "" → posixpath.join F (a +:+ b) = posixpath.join F a +:+ b.
Proof.
  intros Ha. unfold posixpath.join.
  rewrite (startswith_app_nonempty "/" a b Ha eq_refl).
  destruct (pystr.startswith "/" a); [done|].
  destruct (_ || _); by rewrite !app_assoc_s.
Qed.

Lemma strip_blank_snoc cs : strip_blank (cs ++ [""]) = strip_blank cs.
Proof. induction cs as [|c cs IH]; simpl; [done|]. by rewrite IH. Qed.

Lemma strip_blank_idem cs : strip_blank (strip_blank cs) = strip_blank cs.
Proof.
  induction cs as [|c cs IH]; simpl; [done|].
  destruct (strip_blank cs) as [|x r] eqn:E.
  - case_bool_decide; simpl; [done|]. by rewrite bool_decide_eq_false_2.
  - simpl in *. by rewrite IH.
Qed.

Lemma strip_blank_repeat n : strip_blank (repeat "" n) = [].
Proof. induction n; simpl; [done|]. by rewrite IHn. Qed.

Lemma strip_blank_tail cs : ∃ j, cs = strip_blank cs ++ repeat "" j.
Proof.
  induction cs as [|c cs [j IH]]; simpl; [by exists 0%nat|].
  destruct (strip_blank cs) as [|x r] eqn:E.
  - case_bool_decide as Hc.
    + subst c. exists (S j). simpl. by rewrite IH at 1.
    + exists j. simpl. by rewrite IH at 1.
  - exists j. simpl. by rewrite IH at 1.
Qed.

Lemma upto_last_split c s cs l :
  pystr.split c s = cs ++ [l] →
  (cs = [] ∧ pystr.upto_last c s = "")
  ∨ (cs ≠ [] ∧ pystr.split c (pystr.upto_last c s) = cs ++ [""]).
Proof.
  revert cs l. induction s as [|d s IH]; intros cs l; simpl.
  - intros E. destruct cs as [|? [|]]; simplify_eq/=. by left.
  - destruct (split_last c s) as (cs' & l' & E & _). rewrite E.
    specialize (IH _ _ E).
    destruct (Ascii.eqb d c) eqn:Hd.
    + intros E2. change ("" :: cs' ++ [l']) with (("" :: cs') ++ [l']) in E2.
      apply app_inj_tail in E2 as [<- <-]. right. split; [done|].
      destruct IH as [[-> ->]|[Hne IH]]; simpl.
      * by rewrite Hd.
      * destruct (pystr.upto_last c s) eqn:Eu.
        { simpl in IH. destruct cs'; [done|]. by destruct cs'. }
        simpl. rewrite Hd. simpl in IH. by rewrite IH.
    + destruct IH as [[-> ->]|[Hne IH]]; simpl.
      * intros E2. destruct cs as [|? [|]]; simplify_eq/=. by left.
      * destruct cs' as [|x cs']; [done|]. simpl. intros E2.
        change (String d x :: cs' ++ [l']) with ((String d x :: cs') ++ [l']) in E2.
        apply app_inj_tail in E2 as [<- <-]. right. split; [done|].
        destruct (pystr.upto_last c s) eqn:Eu.
        { simpl in IH. by destruct cs'. }
        simpl. rewrite Hd. simpl in IH. by rewrite IH.
Qed.

Lemma all_char_split c s :
  pystr.all_char c s = true → pystr.split c s = repeat "" (S (String.length s)).
Proof.
  induction s as [|d s IH]; simpl; [done|].
  intros [-> H]%andb_true_iff. by rewrite IH.
Qed.

Lemma rstrip_all c s : pystr.all_char c s = true → pystr.rstrip_char c s = "".
Proof.
  induction s as [|d s IH]; simpl; [done|].
  intros [-> H]%andb_true_iff. by rewrite IH.
Qed.

Lemma rstrip_empty c s : pystr.rstrip_char c s = "" → pystr.all_char c s = true.
Proof.
  induction s as [|d s IH]; simpl; [done|].
  destruct (pystr.rstrip_char c s); [|done].
  destruct (Ascii.eqb d c); [|done]. intros _. by rewrite IH.
Qed.

Lemma strip_blank_nil_split c s :
  strip_blank (pystr.split c s) = [] → pystr.all_char c s = true.
Proof.
  induction s as [|d s IH]; simpl; [done|].
  destruct (Ascii.eqb d c) eqn:Hd; simpl.
  - destruct (strip_blank (pystr.split c s)); [|done]. intros _. by apply IH.
  - destruct (pystr.split c s) as [|w ws]; simpl; [done|].
    by destruct (strip_blank ws).
Qed.

Lemma rstrip_split c s :
  pystr.all_char c s = false →
  pystr.split c (pystr.rstrip_char c s) = strip_blank (pystr.split c s).
Proof.
  induction s as [|d s IH]; simpl; [done|].
  destruct (pystr.all_char c s) eqn:Ha.
  - rewrite andb_true_r. intros Hd. rewrite Hd.
    rewrite (rstrip_all _ _ Ha), (all_char_split _ _ Ha). simpl.
    rewrite Hd. simpl. by rewrite strip_blank_repeat.
  - intros _. specialize (IH eq_refl).
    destruct (pystr.rstrip_char c s) as [|e r] eqn:Er.
    { apply rstrip_empty in Er. congruence. }
    change (pystr.split c (String d (String e r)))
      with (if Ascii.eqb d c then "" :: pystr.split c (String e r)
            else match pystr.split c (String e r) with
                 | w :: ws => String d w :: ws
                 | [] => [String d ""]
                 end).
    rewrite IH.
    destruct (Ascii.eqb d c) eqn:Hd; simpl.
    + destruct (strip_blank (pystr.split c s)) eqn:Es; [|done].
      apply strip_blank_nil_split in Es. congruence.
    + destruct (pystr.split c s) as [|w ws] eqn:Es; [by apply split_nonnil in Es|].
      simpl. destruct (strip_blank ws) eqn:Ews.
      * case_bool_decide as Hw.
        { subst w. assert (strip_blank (pystr.split c s) = []) as Hnil.
          { rewrite Es. simpl. by rewrite Ews. }
          apply strip_blank_nil_split in Hnil. congruence. }
        done.
      * done.
Qed.

Lemma dirname_split P cs0 c :
  pystr.split "/" P = cs0 ++ [c] →
  strip_blank (pystr.split "/" (posixpath.dirname P)) = strip_blank cs0.
Proof.
  intros E. unfold posixpath.dirname, posixpath.sep. cbv zeta.
  destruct (upto_last_split _ _ _ _ E) as [[-> Hu]|[Hne Eu]].
  - by rewrite Hu.
  - destruct (String.eqb (pystr.upto_last "/" P) "") eqn:E0.
    + apply String.eqb_eq in E0. rewrite E0 in *. simpl in Eu.
      destruct cs0 as [|? [|]]; simplify_eq/=.
    + destruct (pystr.all_char "/" (pystr.upto_last "/" P)) eqn:Ea.
      * cbn [negb andb]. by rewrite Eu, strip_blank_snoc.
      * cbn [negb andb].
        by rewrite (rstrip_split _ _ Ea), Eu, strip_blank_snoc, strip_blank_idem.
Qed.

Lemma isabs_String d s : posixpath.isabs (String d s) = Ascii.eqb "/" d.
Proof.
  change (posixpath.isabs (String d s)) with (Ascii.eqb "/" d && true).
  apply andb_true_r.
Qed.

Lemma upto_last_head c d s :
  (pystr.upto_last c (String d s) = "" ∧ Ascii.eqb d c = false)
  ∨ ∃ r, pystr.upto_last c (String d s) = String d r.
Proof.
  change (pystr.upto_last c (String d s))
    with (match pystr.upto_last c s with
          | "" => if Ascii.eqb d c then String d "" else ""
          | r => String d r
          end).
  destruct (pystr.upto_last c s); [|by eauto].
  destruct (Ascii.eqb d c); by eauto.
Qed.

Lemma rstrip_head c d s :
  pystr.rstrip_char c (String d s) = "" ∨ ∃ r, pystr.rstrip_char c (String d s) = String d r.
Proof.
  change (pystr.rstrip_char c (String d s))
    with (match pystr.rstrip_char c s with
          | "" => if Ascii.eqb d c then "" else String d ""
          | r => String d r
          end).
  destruct (pystr.rstrip_char c s); [|by eauto].
  destruct (Ascii.eqb d c); by eauto.
Qed.

Lemma dirname_isabs P :
  posixpath.isabs (posixpath.dirname P) = posixpath.isabs P.
Proof.
  destruct P as [|d P]; [done|]. rewrite isabs_String.
  unfold posixpath.dirname, posixpath.sep. cbv zeta.
  destruct (upto_last_head "/" d P) as [[-> Hd]|[r ->]].
  - cbn [String.eqb negb andb]. by rewrite Ascii.eqb_sym, Hd.
  - change (String.eqb (String d r) "") with false. cbn [negb andb].
    destruct (pystr.all_char "/" (String d r)) eqn:Ha; cbn [negb].
    + by rewrite isabs_String.
    + destruct (rstrip_head "/" d r) as [Hz|[r' ->]].
      * apply rstrip_empty in Hz. congruence.
      * by rewrite isabs_String.
Qed.

(** ** Walking the file tree *)

Lemma walk_loc t k cs k' : fs.walk t k cs = Some k' → k' = loc k cs.
Proof.
  revert k. induction cs as [|c cs IH]; intros k; simpl; [congruence|].
  destruct (fs.is_dir t k); [|done]. apply IH.
Qed.

Lemma walk_app t k a b :
  fs.walk t k (a ++ b) = fs.walk t k a ≫= λ k', fs.walk t k' b.
Proof.
  revert k. induction a as [|c a IH]; intros k; simpl; [done|].
  destruct (fs.is_dir t k); [apply IH|done].
Qed.

Lemma walk_same t t' k cs :
  (∀ x, fs.is_dir t' x = fs.is_dir t x) → fs.walk t' k cs = fs.walk t k cs.
Proof.
  intros H. revert k. induction cs as [|c cs IH]; intros k; simpl; [done|].
  by rewrite H, IH.
Qed.

Lemma step_blank k : fs.step k "" = k.
Proof. done. Qed.

Lemma step_proper k name : proper name = true → fs.step k name = name :: k.
Proof.
  intros (H1 & _ & H2 & H3)%proper_spec. unfold fs.step.
  by rewrite !bool_decide_eq_false_2.
Qed.

Lemma walk_dir_blank t k cs : walk_dir t k (cs ++ [""]) = walk_dir t k cs.
Proof.
  unfold walk_dir. rewrite walk_app. destruct (fs.walk t k cs) as [k'|]; simpl; [|done].
  rewrite step_blank. by destruct (fs.is_dir t k') eqn:E; simpl; rewrite ?E.
Qed.

Lemma walk_dir_blanks t k cs j : walk_dir t k (cs ++ repeat "" j) = walk_dir t k cs.
Proof.
  induction j as [|j IH]; simpl; [by rewrite app_nil_r|].
  rewrite repeat_cons, app_assoc, walk_dir_blank. apply IH.
Qed.

Lemma walk_dir_strip t k cs : walk_dir t k cs = walk_dir t k (strip_blank cs).
Proof.
  destruct (strip_blank_tail cs) as [j E]. rewrite E at 1. apply walk_dir_blanks.
Qed.

Lemma mkdirs_blank t k cs : fs.mkdirs t k (cs ++ [""]) = fs.mkdirs t k cs.
Proof.
  revert t k. induction cs as [|c cs IH]; intros t k; simpl.
  - rewrite step_blank. unfold fs.is_dir. by destruct (fs.node_at t k) as [[]|].
  - destruct (fs.is_dir t k); [|done]. by destruct (fs.node_at t (fs.step k c)); rewrite IH.
Qed.

Lemma mkdirs_blanks t k cs j : fs.mkdirs t k (cs ++ repeat "" j) = fs.mkdirs t k cs.
Proof.
  induction j as [|j IH]; simpl; [by rewrite app_nil_r|].
  rewrite repeat_cons, app_assoc, mkdirs_blank. apply IH.
Qed.

Lemma mkdirs_strip t k cs : fs.mkdirs t k cs = fs.mkdirs t k (strip_blank cs).
Proof.
  destruct (strip_blank_tail cs) as [j E]. rewrite E at 1. apply mkdirs_blanks.
Qed.

Lemma is_dir_insert_dir t k x :
  fs.is_dir t x = true → fs.is_dir (<[k := Dir]> t) x = true.
Proof.
  unfold fs.is_dir, fs.node_at. destruct x as [|n x]; [done|].
  destruct (decide (k = n :: x)) as [->|Hne].
  - by rewrite lookup_insert_eq.
  - by rewrite lookup_insert_ne.
Qed.

Lemma mkdirs_mono t k cs t' :
  fs.mkdirs t k cs = Some t' → ∀ x v, t !! x = Some v → t' !! x = Some v.
Proof.
  revert t k. induction cs as [|c cs IH]; intros t k; simpl.
  - destruct (fs.is_dir t k); naive_solver.
  - destruct (fs.is_dir t k); [|done].
    destruct (fs.node_at t (fs.step k c)) eqn:En.
    + apply IH.
    + intros H x v Hx. apply (IH _ _ H).
      rewrite lookup_insert_ne; [done|]. intros <-.
      unfold fs.node_at in En. destruct (fs.step k c); congruence.
Qed.

Lemma mkdirs_dirs t k cs t' :
  fs.mkdirs t k cs = Some t' → ∀ x, fs.is_dir t x = true → fs.is_dir t' x = true.
Proof.
  intros H x. unfold fs.is_dir, fs.node_at. destruct x as [|n x]; [done|].
  destruct (t !! (n :: x)) as [[]|] eqn:E; try done.
  by rewrite (mkdirs_mono _ _ _ _ H _ _ E).
Qed.

Lemma mkdirs_walk t k cs t' :
  fs.mkdirs t k cs = Some t' →
  fs.walk t' k cs = Some (loc k cs) ∧ fs.is_dir t' (loc k cs) = true.
Proof.
  revert t k. induction cs as [|c cs IH]; intros t k; simpl.
  - destruct (fs.is_dir t k) eqn:E; [|done]. by intros [= <-].
  - destruct (fs.is_dir t k) eqn:E; [|done]. intros H.
    assert (fs.is_dir t' k = true) as ->.
    { destruct (fs.node_at t (fs.step k c)).
      - by apply (mkdirs_dirs _ _ _ _ H).
      - apply (mkdirs_dirs _ _ _ _ H). by apply is_dir_insert_dir. }
    destruct (fs.node_at t (fs.step k c)); by apply IH in H.
Qed.

Lemma walk_head_dir t k cs k' :
  fs.walk t k cs = Some k' → fs.is_dir t k' = true → fs.is_dir t k = true.
Proof.
  destruct cs as [|c cs]; simpl; [naive_solver|].
  by destruct (fs.is_dir t k).
Qed.

Lemma mkdirs_noop t k cs k' :
  fs.walk t k cs = Some k' → fs.is_dir t k' = true → fs.mkdirs t k cs = Some t.
Proof.
  revert k. induction cs as [|c cs IH]; intros k; simpl.
  - intros [= ->] ->. done.
  - destruct (fs.is_dir t k); [|done]. intros Hw Hd.
    pose proof (walk_head_dir _ _ _ _ Hw Hd) as H1.
    unfold fs.is_dir in H1. destruct (fs.node_at t (fs.step k c)); [|done].
    by apply IH.
Qed.

Lemma step_suffix k c : c ≠ ".." → k `suffix_of` fs.step k c.
Proof.
  intros Hc. unfold fs.step. destruct (_ || _); [done|].
  rewrite bool_decide_eq_false_2 by done. by apply suffix_cons_r.
Qed.

Lemma loc_suffix k cs : plain cs → k `suffix_of` loc k cs.
Proof.
  revert k. induction cs as [|c cs IH]; intros k Hp; simpl; [done|].
  unfold plain in *. rewrite not_elem_of_cons in Hp. destruct Hp as [Hc Hp].
  etrans; [by apply step_suffix|]. by apply IH.
Qed.

Lemma mkdirs_frame t k cs t' :
  plain cs → fs.mkdirs t k cs = Some t' →
  ∀ x, ¬ x `suffix_of` loc k cs → t' !! x = t !! x.
Proof.
  revert t k. induction cs as [|c cs IH]; intros t k Hp; simpl.
  - destruct (fs.is_dir t k); naive_solver.
  - unfold plain in *. rewrite not_elem_of_cons in Hp. destruct Hp as [Hc Hp].
    destruct (fs.is_dir t k); [|done].
    destruct (fs.node_at t (fs.step k c)).
    + by apply IH.
    + intros H x Hx. rewrite (IH _ _ Hp H x Hx).
      apply lookup_insert_ne. intros <-. apply Hx. by apply loc_suffix.
Qed.

Lemma sound_suffix t k k' :
  sound t → k `suffix_of` k' → fs.is_dir t k' = true → fs.is_dir t k = true.
Proof.
  intros Hs [p ->]. induction p as [|n p IH]; simpl; [done|].
  intros H. apply IH. apply (Hs n). unfold fs.is_dir, fs.node_at in H.
  destruct (t !! (n :: p ++ k)); [by eexists|done].
Qed.

Lemma sound_walk t k cs :
  sound t → plain cs → fs.is_dir t (loc k cs) = true →
  fs.walk t k cs = Some (loc k cs).
Proof.
  intros Hs. revert k. induction cs as [|c cs IH]; intros k Hp Hd; simpl; [done|].
  unfold plain in *. rewrite not_elem_of_cons in Hp. destruct Hp as [Hc Hp].
  rewrite (sound_suffix t k (loc k (c :: cs)) Hs); [by apply IH| |done].
  apply loc_suffix. unfold plain. rewrite not_elem_of_cons. done.
Qed.

Lemma elem_of_entries t k n : n ∈ fs.entries t k ↔ is_Some (t !! (n :: k)).
Proof.
  unfold fs.entries. rewrite list_elem_of_omap. split.
  - intros ([k' v] & Hin & Hm). apply elem_of_map_to_list in Hin. simpl in Hm.
    destruct k' as [|n' k'']; [done|]. case_bool_decide; simplify_eq. by eexists.
  - intros [v Hv]. exists (n :: k, v). split; [by apply elem_of_map_to_list|].
    simpl. by rewrite bool_decide_eq_true_2.
Qed.

Lemma entries_nil t k : fs.entries t k = [] ↔ ∀ n, t !! (n :: k) = None.
Proof.
  split.
  - intros H n. destruct (t !! (n :: k)) eqn:E; [|done].
    assert (n ∈ fs.entries t k) as Hin by (apply elem_of_entries; by eexists).
    rewrite H in Hin. by apply elem_of_nil in Hin.
  - intros H. destruct (fs.entries t k) as [|n l] eqn:E; [done|].
    assert (n ∈ fs.entries t k) as Hin by (rewrite E; left).
    apply elem_of_entries in Hin as [v Hv]. by rewrite H in Hv.
Qed.

(** ** Temporary names *)

Lemma mem_app c a b : pystr.mem c (a +:+ b) = pystr.mem c a || pystr.mem c b.
Proof.
  induction a as [|d a IH]; [done|].
  change (pystr.mem c (String d a +:+ b))
    with (if Ascii.eqb c d then true else pystr.mem c (a +:+ b)).
  change (pystr.mem c (String d a)) with (if Ascii.eqb c d then true else pystr.mem c a).
  rewrite IH. by destruct (Ascii.eqb c d).
Qed.

Lemma mem_substring c n m s :
  pystr.mem c s = false → pystr.mem c (String.substring n m s) = false.
Proof.
  revert n m. induction s as [|d s IH]; intros n m H.
  - by destruct n, m.
  - change (pystr.mem c (String d s)) with (if Ascii.eqb c d then true else pystr.mem c s) in H.
    destruct (Ascii.eqb c d) eqn:E; [done|].
    destruct n as [|n]; simpl.
    + destruct m as [|m]; [done|].
      change (pystr.mem c (String d (substring 0 m s)))
        with (if Ascii.eqb c d then true else pystr.mem c (substring 0 m s)).
      rewrite E. by apply IH.
    + by apply IH.
Qed.

Lemma hex_digit_noslash n : Ascii.eqb "/" (uuid.hex_digit n) = false.
Proof.
  destruct n as [|p]; [done|].
  do 4 (try (destruct p as [p|p|]; try reflexivity)).
Qed.

Lemma hex_noslash w n acc :
  pystr.mem "/" acc = false → pystr.mem "/" (uuid.hex w n acc) = false.
Proof.
  revert n acc. induction w as [|w IH]; intros n acc H; simpl; [done|].
  apply IH.
  change (pystr.mem "/" (String (uuid.hex_digit (n mod 16)%N) acc))
    with (if Ascii.eqb "/" (uuid.hex_digit (n mod 16)%N) then true else pystr.mem "/" acc).
  by rewrite hex_digit_noslash.
Qed.

Lemma uuid_str_noslash u : pystr.mem "/" (uuid.str u) = false.
Proof.
  unfold uuid.str. cbv zeta.
  pose proof (hex_noslash 32 u "" eq_refl) as H.
  rewrite !mem_app, !(mem_substring _ _ _ _ H). done.
Qed.

Lemma string_app_nil a b : a +:+ b = "" → a = "".
Proof. by destruct a. Qed.

Lemma temp_proper name u :
  proper name = true → proper (name +:+ "_" +:+ uuid.str u) = true.
Proof.
  intros (H1 & H2 & H3 & H4)%proper_spec. unfold proper.
  rewrite !andb_true_iff, !negb_true_iff. split_and!.
  - apply String.eqb_neq. by intros ?%string_app_nil.
  - rewrite !mem_app, H2, uuid_str_noslash. done.
  - apply String.eqb_neq. destruct name as [|a [|b n]]; [done| |].
    + change (String a "" +:+ "_" +:+ uuid.str u) with (String a (String "_" (uuid.str u))).
      congruence.
    + change (String a (String b n) +:+ "_" +:+ uuid.str u)
        with (String a (String b (n +:+ "_" +:+ uuid.str u))).
      congruence.
  - apply String.eqb_neq. destruct name as [|a [|b n]]; [done| |].
    + change (String a "" +:+ "_" +:+ uuid.str u) with (String a (String "_" (uuid.str u))).
      congruence.
    + change (String a (String b n) +:+ "_" +:+ uuid.str u)
        with (String a (String b (n +:+ "_" +:+ uuid.str u))).
      intros [= -> -> E]. destruct n; discriminate E.
Qed.

Lemma temp_neq name u : name +:+ "_" +:+ uuid.str u ≠ name.
Proof.
  induction name as [|a n IH]; [done|]. rewrite app_String. by intros [= ?].
Qed.

(** ** Resolution of joined paths *)

Lemma bind_eq {A B} (m : IO A) (f : A → IO B) w :
  (m ≫= f) w = match m w with
               | (Return a, w') => f a w'
               | (Raise e, w') => (Raise e, w')
               end.
Proof. done. Qed.

Lemma resolve_nonempty w P :
  P ≠ "" → fs.resolve w P = fs.walk (tree w) (fs.start w P) (pystr.split "/" P).
Proof. intros H. unfold fs.resolve. by rewrite bool_decide_eq_false_2. Qed.

Lemma dir_of_walk w F :
  F ≠ "" → dir_of w F = walk_dir (tree w) (fs.start w F) (pystr.split "/" F).
Proof. intros H. unfold dir_of. by rewrite resolve_nonempty. Qed.

Lemma join_nonempty F name : proper name = true → posixpath.join F name ≠ "".
Proof.
  intros (H & _)%proper_spec. unfold posixpath.join.
  destruct (pystr.startswith "/" name); [done|].
  destruct (_ || _); intros E.
  - destruct F; [done|discriminate E].
  - destruct F; discriminate E.
Qed.

Lemma start_join w F name :
  F ≠ "" → proper name = true → fs.start w (posixpath.join F name) = fs.start w F.
Proof.
  intros HF Hp. destruct (join_split F name HF Hp) as (cs & _ & _ & E).
  unfold fs.start. by rewrite E.
Qed.

(** Where [join F name] leads: into the directory [F] names. *)
Lemma resolve_join w F name :
  F ≠ "" → proper name = true →
  fs.resolve w (posixpath.join F name) = (k ← dir_of w F; Some (name :: k)).
Proof.
  intros HF Hp. rewrite resolve_nonempty by by apply join_nonempty.
  rewrite (dir_of_walk _ _ HF), (start_join _ _ _ HF Hp).
  destruct (join_split F name HF Hp) as (cs & -> & [E|E] & _); rewrite E.
  - unfold walk_dir. rewrite walk_app.
    destruct (fs.walk (tree w) (fs.start w F) cs) as [k|]; simpl; [|done].
    rewrite (step_proper _ _ Hp). by destruct (fs.is_dir (tree w) k).
  - rewrite walk_dir_blank. unfold walk_dir. rewrite walk_app.
    destruct (fs.walk (tree w) (fs.start w F) cs) as [k|]; simpl; [|done].
    rewrite (step_proper _ _ Hp). by destruct (fs.is_dir (tree w) k).
Qed.

Lemma lookup_join w F name :
  F ≠ "" → proper name = true →
  fs.lookup_path w (posixpath.join F name) = (k ← dir_of w F; tree w !! (name :: k)).
Proof.
  intros HF Hp. unfold fs.lookup_path. rewrite (resolve_join _ _ _ HF Hp).
  by destruct (dir_of w F).
Qed.

Lemma lookup_dir w F :
  fs.lookup_path w F = Some Dir ↔ is_Some (dir_of w F).
Proof.
  unfold fs.lookup_path, dir_of, fs.is_dir.
  destruct (fs.resolve w F) as [k|]; simpl; [|by split; [|intros []]].
  destruct (fs.node_at (tree w) k) as [[]|]; split; try done; by intros [].
Qed.

Lemma isabs_nonempty F : posixpath.isabs F = true → F ≠ "".
Proof. by intros H ->. Qed.

Lemma object_exists_eq p w : _object_exists p w = (Return (valid_object w p), w).
Proof. reflexivity. Qed.

(** ** The atomic write, when nothing fails *)

Lemma split_nonempty P cs nm : pystr.split "/" P = cs ++ [nm] → nm ≠ "" → P ≠ "".
Proof. intros E H ->. simpl in E. destruct cs as [|? [|]]; simplify_eq/=. Qed.

Lemma start_dirname w P : fs.start w (posixpath.dirname P) = fs.start w P.
Proof. unfold fs.start. by rewrite dirname_isabs. Qed.

Lemma start_temp w P s : P ≠ "" → fs.start w (P +:+ s) = fs.start w P.
Proof.
  intros H. unfold fs.start, posixpath.isabs.
  by rewrite (startswith_app_nonempty "/" P s H eq_refl).
Qed.

Lemma is_dir_insert_file t k v x :
  fs.node_at t k ≠ Some Dir → k ≠ [] →
  fs.is_dir (<[k := File v]> t) x = fs.is_dir t x.
Proof.
  intros Hk Hne. unfold fs.is_dir, fs.node_at in *. destruct x as [|n x]; [done|].
  destruct (decide (k = n :: x)) as [->|Hd].
  - rewrite lookup_insert_eq. by destruct (t !! (n :: x)) as [[]|].
  - by rewrite lookup_insert_ne.
Qed.

Lemma is_dir_delete_file t k x :
  fs.node_at t k ≠ Some Dir → fs.is_dir (delete k t) x = fs.is_dir t x.
Proof.
  intros Hk. unfold fs.is_dir, fs.node_at in *. destruct x as [|n x]; [done|].
  destruct (decide (k = n :: x)) as [->|Hd].
  - rewrite lookup_delete_eq. by destruct (t !! (n :: x)) as [[]|].
  - by rewrite lookup_delete_ne.
Qed.

Lemma rename_file_ok t c r rn f fn src dst ks kd v :
  let w := World t c r rn f fn in
  fs.resolve w src = Some ks → fs.resolve w dst = Some kd →
  fs.node_at t ks = Some (File v) → fs.node_at t kd ≠ Some Dir →
  fs.is_dir t (tail kd) = true → ks ≠ kd →
  os.rename src dst w = (Return tt, World (<[kd := File v]> (delete ks t)) c r rn f fn).
Proof.
  intros w Hs Hd Hks Hkd Hpar Hne. unfold os.rename. cbv zeta. rewrite Hs, Hd.
  subst w. cbn [tree]. rewrite Hks, Hpar. cbn [negb].
  rewrite bool_decide_eq_false_2 by done.
  by destruct (fs.node_at t kd) as [[]|].
Qed.

Lemma write_ok t c r rn f fn P content cs0 nm t1 :
  (∀ i, (fn ≤ i)%nat → f i = None) →
  pystr.split "/" P = cs0 ++ [nm] → proper nm = true →
  let k0 := if posixpath.isabs P then [] else c in
  let kD := loc k0 cs0 in
  let tmp := (nm +:+ "_" +:+ uuid.str (uuid.v4 (r rn))) :: kD in
  fs.mkdirs t k0 cs0 = Some t1 →
  fs.node_at t1 tmp ≠ Some Dir →
  fs.node_at t1 (nm :: kD) ≠ Some Dir →
  _write P content (World t c r rn f fn)
  = (Return tt,
     World (<[nm :: kD := File content]> (delete tmp t1)) c r (S rn) f
           (S (S (S (S (S fn)))))).
Proof.
  intros Hcalm HP Hnm k0 kD tmp Hmk Htmp Htgt.
  assert (P ≠ "") as HP0.
  { apply (split_nonempty _ _ _ HP). by apply proper_spec in Hnm as [? _]. }
  destruct (mkdirs_walk _ _ _ _ Hmk) as [Hwalk HkD]. fold kD in Hwalk, HkD.
  set (u := uuid.str (uuid.v4 (r rn))) in *.
  assert (proper (nm +:+ "_" +:+ u) = true) as Htp by by apply temp_proper.
  assert (pystr.split "/" (P +:+ "_" +:+ u) = cs0 ++ [nm +:+ "_" +:+ u]) as Hsplit.
  { apply (split_app_nosep _ _ _ _ _ HP).
    change ("_" +:+ u) with (String "_" u).
    change (pystr.mem "/" (String "_" u)) with (pystr.mem "/" u).
    apply uuid_str_noslash. }
  unfold _write. rewrite bind_eq. unfold uuid.uuid4. cbn [tree cwd rand rand_next io_fault io_next].
  fold u. rewrite bind_eq. unfold try_except.
  (* the guarded block *)
  unfold _write_try. rewrite bind_eq. unfold pathlib.mkdir_parents. rewrite bind_eq.
  unfold os.fault at 1. cbn [tree cwd rand rand_next io_fault io_next].
  rewrite (Hcalm fn) by lia.
  rewrite start_dirname, mkdirs_strip, (dirname_split _ _ _ HP), <-mkdirs_strip.
  unfold fs.start. cbn [tree cwd]. fold k0. rewrite Hmk. unfold with_tree.
  cbn [tree cwd rand rand_next io_fault io_next].
  rewrite bind_eq. unfold builtins.open_write. rewrite bind_eq.
  unfold os.fault at 1. cbn [tree cwd rand rand_next io_fault io_next].
  rewrite (Hcalm (S fn)) by lia.
  rewrite resolve_nonempty by (by intros ?%string_app_nil).
  rewrite (start_temp _ _ _ HP0). unfold fs.start. cbn [tree cwd]. fold k0.
  rewrite Hsplit, walk_app, Hwalk. cbn [mbind option_bind fs.walk].
  rewrite HkD, (step_proper _ _ Htp). fold tmp.
  assert (fs.is_dir t1 (tail tmp) = true) as -> by done.
  destruct (fs.node_at t1 tmp) as [[v|]|] eqn:Entmp; [| done |].
  all: unfold with_tree; cbn [tree cwd rand rand_next io_fault io_next].
  all: rewrite bind_eq; unfold builtins.write; rewrite bind_eq.
  all: unfold os.fault at 1; cbn [tree cwd rand rand_next io_fault io_next].
  all: rewrite (Hcalm (S (S fn))) by lia.
  all: unfold with_tree; cbn [tree cwd rand rand_next io_fault io_next].
  all: rewrite insert_insert_eq.
  all: rewrite bind_eq; unfold builtins.flush; rewrite bind_eq.
  all: unfold os.fault at 1; cbn [tree cwd rand rand_next io_fault io_next].
  all: rewrite (Hcalm (S (S (S fn)))) by lia.
  all: unfold ret at 1.
  all: unfold os.fsync; rewrite bind_eq.
  all: unfold os.fault at 1; cbn [tree cwd rand rand_next io_fault io_next].
  all: rewrite (Hcalm (S (S (S (S fn))))) by lia.
  all: unfold ret at 1.
  all: assert (∀ x, fs.is_dir (<[tmp:=File content]> t1) x = fs.is_dir t1 x) as Hsame
    by (intros x; apply is_dir_insert_file; [by rewrite Entmp|done]).
  all: assert (fs.resolve (World (<[tmp:=File content]> t1) c r (S rn) f (S (S (S (S (S fn))))))
                 (P +:+ "_" +:+ u) = Some tmp) as Hrt.
  1, 3: rewrite resolve_nonempty by (by intros ?%string_app_nil);
        rewrite (start_temp _ _ _ HP0); unfold fs.start; cbn [tree cwd]; fold k0;
        rewrite (walk_same _ _ _ _ Hsame), Hsplit, walk_app, Hwalk;
        cbn [mbind option_bind fs.walk]; by rewrite HkD, (step_proper _ _ Htp).
  all: assert (fs.resolve (World (<[tmp:=File content]> t1) c r (S rn) f (S (S (S (S (S fn))))))
                 P = Some (nm :: kD)) as Hrp.
  1, 3: rewrite resolve_nonempty by done; unfold fs.start; cbn [tree cwd]; fold k0;
        rewrite (walk_same _ _ _ _ Hsame), HP, walk_app, Hwalk;
        cbn [mbind option_bind fs.walk]; by rewrite HkD, (step_proper _ _ Hnm).
  all: assert (tmp ≠ nm :: kD) as Hne by (intros [= E]; by apply temp_neq in E).
  all: rewrite bind_eq; unfold os.path_exists, os.gets, fs.exists_, fs.lookup_path.
  all: rewrite Hrt; cbn [mbind option_bind tree].
  all: assert (fs.node_at (<[tmp:=File content]> t1) tmp = Some (File content)) as Hnt
    by (unfold fs.node_at, tmp; by rewrite lookup_insert_eq).
  all: rewrite Hnt; unfold when.
  all: rewrite (rename_file_ok _ _ _ _ _ _ _ _ _ _ _ Hrt Hrp Hnt);
    [by rewrite delete_insert_eq | | by rewrite Hsame | done].
  all: unfold fs.node_at; rewrite lookup_insert_ne by done; exact Htgt.
Qed.

(** ** Encoding and scanning *)

Lemma utf8_char c rest :
  utf8.decode (utf8.encode_char c ++ rest)
  = match utf8.decode rest with
    | Return s => Return (String c s)
    | Raise e => Raise e
    end.
Proof. each_char c; reflexivity. Qed.

Lemma utf8_roundtrip s : utf8.decode (utf8.encode s) = Return s.
Proof.
  induction s as [|c s IH]; [done|].
  change (utf8.encode (String c s)) with (utf8.encode_char c ++ utf8.encode s).
  by rewrite utf8_char, IH.
Qed.

Lemma json_scan_char c X :
  json.scan_string (json.escape_char c +:+ X) = push c (json.scan_string X).
Proof. each_char c; reflexivity. Qed.

Lemma json_scan_escape s tl :
  json.scan_string (json.escape s +:+ String dquote tl) = Return (s, tl).
Proof.
  induction s as [|c s IH]; [done|].
  change (json.escape (String c s)) with (json.escape_char c +:+ json.escape s).
  by rewrite app_assoc_s, json_scan_char, IH.
Qed.

Lemma py_scan_char_s c X :
  ast.scan_string squote (ast.repr_char squote c +:+ X) = push c (ast.scan_string squote X).
Proof. each_char c; reflexivity. Qed.

Lemma py_scan_char_d c X :
  ast.scan_string dquote (ast.repr_char dquote c +:+ X) = push c (ast.scan_string dquote X).
Proof. each_char c; reflexivity. Qed.

Lemma py_scan_body q s tl :
  q = squote ∨ q = dquote →
  ast.scan_string q (ast.repr_body q s +:+ String q tl) = Return (s, tl).
Proof.
  intros Hq. induction s as [|c s IH].
  - by destruct Hq as [-> | ->].
  - change (ast.repr_body q (String c s)) with (ast.repr_char q c +:+ ast.repr_body q s).
    rewrite app_assoc_s. destruct Hq as [-> | ->].
    + by rewrite py_scan_char_s, IH.
    + by rewrite py_scan_char_d, IH.
Qed.

Lemma head_is_String c d s : text.head_is c (String d s) = Ascii.eqb d c.
Proof. done. Qed.

Lemma drop1_String d s : pystr.drop 1 (String d s) = s.
Proof. done. Qed.

Lemma py_key_repr s tl : ast.key (ast.repr_str s +:+ tl) = Return (s, tl).
Proof.
  unfold ast.repr_str, ast.key. cbv zeta.
  destruct (pystr.mem squote s && negb (pystr.mem dquote s)).
  - rewrite app_String, app_assoc_s, !head_is_String, drop1_String.
    change (Ascii.eqb dquote squote) with false. change (Ascii.eqb dquote dquote) with true.
    cbv iota. by apply py_scan_body; right.
  - rewrite app_String, app_assoc_s, !head_is_String, drop1_String.
    change (Ascii.eqb squote squote) with true. cbv iota.
    by apply py_scan_body; left.
Qed.

Lemma json_key_quote s tl : json.key (json.quote s +:+ tl) = Return (s, tl).
Proof.
  unfold json.quote, json.key.
  rewrite app_String, app_assoc_s, !head_is_String, drop1_String.
  change (Ascii.eqb dquote dquote) with true. cbv iota.
  apply json_scan_escape.
Qed.

(** Decimal numerals *)

Lemma span_digits_cons c s :
  text.is_digit c = true →
  text.span_digits (String c s) = (let '(ds, t) := text.span_digits s in (String c ds, t)).
Proof.
  intros H.
  change (text.span_digits (String c s))
    with (if text.is_digit c then let '(ds, t) := text.span_digits s in (String c ds, t)
          else ("", String c s)).
  by rewrite H.
Qed.

Lemma span_digits_uint d rest :
  nondigit rest →
  text.span_digits (NilEmpty.string_of_uint d +:+ rest) = (NilEmpty.string_of_uint d, rest).
Proof.
  intros Hr. induction d; cbn [NilEmpty.string_of_uint].
  1: { rewrite app_empty_l. destruct rest as [|c r]; [done|]. simpl in Hr.
       change (text.span_digits (String c r))
         with (if text.is_digit c then let '(ds, t) := text.span_digits r in (String c ds, t)
               else ("", String c r)).
       by rewrite Hr. }
  all: rewrite app_String, span_digits_cons by reflexivity; by rewrite IHd.
Qed.

Lemma pos_to_uint_head p d : Pos.to_uint p ≠ D0 d.
Proof.
  intros E.
  pose proof (DecimalPos.Unsigned.to_of (Pos.to_uint p)) as H.
  rewrite DecimalPos.Unsigned.of_to in H. change (N.to_uint (N.pos p)) with (Pos.to_uint p) in H.
  rewrite E, unorm_D0 in H.
  destruct d as [| | | | | | | | | |].
  1: { by apply (DecimalPos.Unsigned.to_uint_nonzero p). }
  all: match type of H with D0 ?d = _ =>
         assert (d ≠ Nil) as Hn by done;
         pose proof (nb_digits_unorm d Hn) as Hl;
         rewrite <-H in Hl; cbn [nb_digits] in Hl; lia
       end.
Qed.

Lemma scan_nat_first c s :
  text.is_digit c = true → c ≠ "0"%char →
  text.scan_nat (String c s)
  = (let '(ds, t) := text.span_digits (String c s) in
     match ds with
     | "" => None
     | _ => match NilEmpty.uint_of_string ds with
            | Some u => Some (N.of_uint u, t)
            | None => None
            end
     end).
Proof.
  intros Hd Hz. unfold text.scan_nat. rewrite head_is_String.
  destruct (Ascii.eqb c "0") eqn:E; [|done]. by apply Ascii.eqb_eq in E.
Qed.

Lemma uint_head u :
  u ≠ Nil → (∀ d, u ≠ D0 d) →
  ∃ c s, NilEmpty.string_of_uint u = String c s ∧ text.is_digit c = true
         ∧ c ≠ "0"%char ∧ c ≠ "-"%char.
Proof.
  intros H1 H2. destruct u; [done|by destruct (H2 u)|..];
    cbn [NilEmpty.string_of_uint]; eexists _, _; split_and!; done.
Qed.

Lemma scan_nat_digits p rest :
  nondigit rest → text.scan_nat (text.digits (Npos p) +:+ rest) = Some (Npos p, rest).
Proof.
  intros Hr. unfold text.digits. change (N.to_uint (N.pos p)) with (Pos.to_uint p).
  destruct (uint_head (Pos.to_uint p)) as (c & s & E & Hd & Hz & _).
  { apply DecimalPos.Unsigned.to_uint_nonnil. }
  { intros d. apply pos_to_uint_head. }
  pose proof (span_digits_uint (Pos.to_uint p) rest Hr) as Hs.
  rewrite E in *. rewrite app_String in *. rewrite (scan_nat_first _ _ Hd Hz), Hs.
  rewrite <-E, NilEmpty.usu.
  change (N.of_uint (Pos.to_uint p)) with (N.of_uint (N.to_uint (Npos p))).
  by rewrite DecimalN.Unsigned.of_to.
Qed.

Lemma digits_head p :
  ∃ c s, text.digits (Npos p) = String c s ∧ text.is_digit c = true ∧ c ≠ "-"%char.
Proof.
  unfold text.digits. change (N.to_uint (N.pos p)) with (Pos.to_uint p).
  destruct (uint_head (Pos.to_uint p)) as (c & s & E & Hd & _ & Hm).
  { apply DecimalPos.Unsigned.to_uint_nonnil. }
  { intros d. apply pos_to_uint_head. }
  by exists c, s.
Qed.

Lemma scan_int_str z rest :
  nondigit rest → text.scan_int (text.str_int z +:+ rest) = Some (z, rest).
Proof.
  intros Hr. destruct z as [|p|p]; unfold text.str_int.
  - done.
  - destruct (digits_head p) as (c & s & E & Hd & Hm).
    pose proof (scan_nat_digits p rest Hr) as Hn. rewrite E in *. rewrite app_String in *.
    unfold text.scan_int. rewrite head_is_String.
    destruct (Ascii.eqb c "-") eqn:Ec; [by apply Ascii.eqb_eq in Ec|].
    by rewrite Hn.
  - rewrite app_String. unfold text.scan_int. rewrite head_is_String, drop1_String.
    change (Ascii.eqb "-" "-") with true. cbv iota.
    by rewrite (scan_nat_digits p rest Hr).
Qed.

(** ** Scalars *)

Lemma closing_cases rest :
  closing rest = true →
  rest = "" ∨ ∃ t, rest = String "," t ∨ rest = String "]" t ∨ rest = String "}" t.
Proof.
  destruct rest as [|c t]; [by left|]. simpl. rewrite !orb_true_iff.
  intros [[E|E]|E]; apply Ascii.eqb_eq in E; subst; right; exists t; auto.
Qed.

Lemma closing_nondigit rest : closing rest = true → nondigit rest.
Proof. intros [->|[t [->|[->| ->]]]]%closing_cases; done. Qed.

Lemma closing_no_float rest : closing rest = true → json.float_follows rest = false.
Proof.
  intros [->|[t [->|[->| ->]]]]%closing_cases; try done.
  all: by destruct t.
Qed.

Lemma closing_no_join rest : closing rest = true → ast.joins rest = false.
Proof. intros [->|[t [->|[->| ->]]]]%closing_cases; done. Qed.

(** JSON scalars *)

Lemma json_scalar_digit c s :
  text.is_digit c = true →
  json.scalar (String c s)
  = match text.scan_int (String c s) with
    | Some (z, t) => if json.float_follows t then Raise Unmodelled else Return (VInt z, t)
    | None => Raise JSONDecodeError
    end.
Proof. intros H. each_char c; try discriminate H; reflexivity. Qed.

Lemma json_scalar_minus c s :
  text.is_digit c = true →
  json.scalar (String "-" (String c s))
  = match text.scan_int (String "-" (String c s)) with
    | Some (z, t) => if json.float_follows t then Raise Unmodelled else Return (VInt z, t)
    | None => Raise JSONDecodeError
    end.
Proof. intros H. each_char c; try discriminate H; reflexivity. Qed.

Lemma json_scalar_quote X :
  json.scalar (String dquote X)
  = match json.scan_string X with
    | Return (x, t) => Return (VStr x, t)
    | Raise e => Raise e
    end.
Proof. reflexivity. Qed.

Lemma str_int_head z :
  (∃ c s, text.str_int z = String c s ∧ text.is_digit c = true)
  ∨ (∃ c s, text.str_int z = String "-" (String c s) ∧ text.is_digit c = true).
Proof.
  destruct z as [|p|p]; unfold text.str_int.
  - left. by eexists _, _.
  - left. destruct (digits_head p) as (c & s & E & Hd & _). by exists c, s.
  - right. destruct (digits_head p) as (c & s & E & Hd & _). exists c, s. by rewrite E.
Qed.

Lemma json_scalar_show v rest :
  atom v = true → closing rest = true →
  json.scalar (json.show_scalar v +:+ rest) = Return (v, rest).
Proof.
  intros Ha Hc. destruct v as [|[]|z|s| |]; try done.
  - pose proof (scan_int_str z rest (closing_nondigit _ Hc)) as Hs.
    cbn [json.show_scalar].
    destruct (str_int_head z) as [(c & s & E & Hd)|(c & s & E & Hd)]; rewrite E in *.
    + rewrite app_String in *. by rewrite (json_scalar_digit _ _ Hd), Hs, closing_no_float.
    + rewrite !app_String in *. by rewrite (json_scalar_minus _ _ Hd), Hs, closing_no_float.
  - cbn [json.show_scalar]. unfold json.quote. rewrite app_String, app_assoc_s.
    change (String dquote "" +:+ rest) with (String dquote rest).
    by rewrite json_scalar_quote, json_scan_escape.
Qed.

(** Python scalars *)

Lemma py_scalar_digit c s :
  text.is_digit c = true →
  ast.scalar (String c s)
  = match text.scan_int (String c s) with
    | Some (z, t) => if ast.joins t then Raise Unmodelled else Return (VInt z, t)
    | None => Raise Unmodelled
    end.
Proof. intros H. each_char c; try discriminate H; reflexivity. Qed.

Lemma py_scalar_minus c s :
  ast.scalar (String "-" (String c s))
  = match text.scan_int (String "-" (String c s)) with
    | Some (z, t) => if ast.joins t then Raise Unmodelled else Return (VInt z, t)
    | None => Raise Unmodelled
    end.
Proof. reflexivity. Qed.

Lemma py_scalar_key s rest :
  ast.scalar (ast.repr_str s +:+ rest) = Return (VStr s, rest).
Proof.
  pose proof (py_key_repr s rest) as Hk. unfold ast.repr_str in *. cbv zeta in *.
  destruct (pystr.mem squote s && negb (pystr.mem dquote s)); rewrite app_String in *.
  - change (ast.scalar (String dquote ?X))
      with (match ast.key (String dquote X) with
            | Return (x, t) => Return (VStr x, t)
            | Raise _ => match text.scan_int (String dquote X) with
                         | Some (z, t) => if ast.joins t then Raise Unmodelled else Return (VInt z, t)
                         | None => Raise Unmodelled
                         end
            end).
    by rewrite Hk.
  - change (ast.scalar (String squote ?X))
      with (match ast.key (String squote X) with
            | Return (x, t) => Return (VStr x, t)
            | Raise _ => match text.scan_int (String squote X) with
                         | Some (z, t) => if ast.joins t then Raise Unmodelled else Return (VInt z, t)
                         | None => Raise Unmodelled
                         end
            end).
    by rewrite Hk.
Qed.

Lemma py_scalar_show v rest :
  atom v = true → closing rest = true →
  ast.scalar (ast.show_scalar v +:+ rest) = Return (v, rest).
Proof.
  intros Ha Hc. destruct v as [|[]|z|s| |]; try done.
  - cbn [ast.show_scalar]. unfold ast.scalar.
    change (pystr.startswith "None" ("None" +:+ rest)) with true. cbv iota.
    unfold ast.word. change (pystr.drop 4 ("None" +:+ rest)) with rest.
    by rewrite closing_no_join.
  - cbn [ast.show_scalar]. unfold ast.scalar.
    change (pystr.startswith "None" ("True" +:+ rest)) with false.
    change (pystr.startswith "True" ("True" +:+ rest)) with true. cbv iota.
    unfold ast.word. change (pystr.drop 4 ("True" +:+ rest)) with rest.
    by rewrite closing_no_join.
  - cbn [ast.show_scalar]. unfold ast.scalar.
    change (pystr.startswith "None" ("False" +:+ rest)) with false.
    change (pystr.startswith "True" ("False" +:+ rest)) with false.
    change (pystr.startswith "False" ("False" +:+ rest)) with true. cbv iota.
    unfold ast.word. change (pystr.drop 5 ("False" +:+ rest)) with rest.
    by rewrite closing_no_join.
  - pose proof (scan_int_str z rest (closing_nondigit _ Hc)) as Hs.
    cbn [ast.show_scalar].
    destruct (str_int_head z) as [(c & s & E & Hd)|(c & s & E & Hd)]; rewrite E in *.
    + rewrite app_String in *. by rewrite (py_scalar_digit _ _ Hd), Hs, closing_no_join.
    + rewrite !app_String in *. by rewrite py_scalar_minus, Hs, closing_no_join.
  - apply py_scalar_key.
Qed.

(** ** Reading back what was written *)

(** Induction on values that goes through lists and dictionaries. *)
Lemma value_ind' (P : value → Prop) :
  P VNone → (∀ b, P (VBool b)) → (∀ z, P (VInt z)) → (∀ s, P (VStr s)) →
  (∀ xs, Forall P xs → P (VList xs)) →
  (∀ kvs, Forall (λ kv, P kv.2) kvs → P (VDict kvs)) →
  ∀ v, P v.
Proof.
  intros HN HB HI HS HL HD.
  fix IH 1. intros [| b | z | s | xs | kvs].
  - exact HN.
  - apply HB.
  - apply HI.
  - apply HS.
  - apply HL. induction xs as [|x xs IHxs]; constructor; [apply IH|exact IHxs].
  - apply HD. induction kvs as [|[k x] kvs IHk]; constructor; [apply IH|exact IHk].
Qed.

Lemma length_app_s a b : String.length (a +:+ b) = (String.length a + String.length b)%nat.
Proof. induction a as [|c a IH]; [done|]. rewrite app_String. simpl. by rewrite IH. Qed.

(** Dictionaries built from pairs with distinct keys *)

Lemma dict_set_fresh k v d :
  k ∉ map fst d → dict.set k v d = d ++ [(k, v)].
Proof.
  induction d as [|[k' v'] d IH]; simpl; [done|].
  rewrite not_elem_of_cons. intros [Hne Hd].
  assert (String.eqb k k' = false) as -> by by apply String.eqb_neq.
  by rewrite IH.
Qed.

Lemma dict_update_fresh d kvs :
  NoDup (map fst kvs) → (∀ k, k ∈ map fst kvs → k ∉ map fst d) →
  dict.update d kvs = d ++ kvs.
Proof.
  unfold dict.update. revert d. induction kvs as [|[k v] kvs IH]; intros d Hnd Hdis; simpl.
  - by rewrite app_nil_r.
  - apply NoDup_cons in Hnd as [Hk Hnd]. simpl in *.
    rewrite dict_set_fresh by (apply Hdis; left).
    rewrite IH; [by rewrite <-app_assoc|done|].
    intros k' Hk'. rewrite map_app, elem_of_app. simpl.
    intros [H|H].
    + apply (Hdis k'); [by right|done].
    + apply list_elem_of_singleton in H. by subst.
Qed.

Lemma of_pairs_nodup kvs : NoDup (map fst kvs) → dict.of_pairs kvs = kvs.
Proof.
  intros H. unfold dict.of_pairs. rewrite dict_update_fresh; [done|done|].
  intros k _. simpl. apply not_elem_of_nil.
Qed.

Section Roundtrip.
Variable nt : text.notation.

Hypothesis Hspace : text.ws nt " " = true.
Hypothesis Hcomma : text.ws nt "," = false.
Hypothesis Hcolon : text.ws nt ":" = false.
Hypothesis Hbracket : text.ws nt "]" = false.
Hypothesis Hbrace : text.ws nt "}" = false.
Hypothesis Hopen1 : text.ws nt "[" = false.
Hypothesis Hopen2 : text.ws nt "{" = false.
Hypothesis Hatom : ∀ v rest, atom v = true → closing rest = true →
  text.scalar nt (text.show_scalar nt v +:+ rest) = Return (v, rest).
Hypothesis Hatom_head : ∀ v rest, atom v = true →
  starts_atom nt (text.show_scalar nt v +:+ rest).
Hypothesis Hkey : ∀ k rest,
  text.key nt (text.show_key nt k +:+ rest) = Return (k, rest).
Hypothesis Hkey_head : ∀ k rest, starts nt (text.show_key nt k +:+ rest).

Lemma skip_starts s : starts nt s → text.skip (text.ws nt) s = s.
Proof. intros (c & t & -> & Hw & _). simpl. by rewrite Hw. Qed.

Lemma skip_char c t : text.ws nt c = false → text.skip (text.ws nt) (String c t) = String c t.
Proof. intros H. simpl. by rewrite H. Qed.

Lemma skip_space t : text.skip (text.ws nt) (String " " t) = text.skip (text.ws nt) t.
Proof. simpl. by rewrite Hspace. Qed.

Lemma show_starts v rest : starts nt (text.show nt v +:+ rest).
Proof.
  destruct v as [| | | |xs|kvs].
  1-4: match goal with
       | |- starts nt (text.show nt ?v +:+ _) =>
           destruct (Hatom_head v rest eq_refl) as (c & t & E & ? & ? & ? & _)
       end; by exists c, t.
  - cbn [text.show]. rewrite app_String. by eexists _, _.
  - cbn [text.show]. rewrite app_String. by eexists _, _.
Qed.

Lemma head_not c d t : c ≠ d → text.head_is d (String c t) = false.
Proof. intros H. rewrite head_is_String. by apply Ascii.eqb_neq. Qed.

Lemma read_atom n v rest :
  atom v = true → closing rest = true →
  text.read nt (S n) (text.show_scalar nt v +:+ rest) = Return (v, rest).
Proof.
  intros Ha Hc. destruct (Hatom_head v rest Ha) as (c & t & E & _ & _ & _ & H1 & H2).
  cbn [text.read]. rewrite E, !head_not by done. rewrite <-E. by apply Hatom.
Qed.

Lemma show_items_cons x y ys :
  text.show_items (text.show nt) (x :: y :: ys)
  = text.show nt x +:+ ", " +:+ text.show_items (text.show nt) (y :: ys).
Proof. done. Qed.

Lemma show_pairs_cons k x p ps :
  text.show_pairs (text.show nt) (text.show_key nt) ((k, x) :: p :: ps)
  = text.show_key nt k +:+ ": " +:+ text.show nt x +:+ ", "
    +:+ text.show_pairs (text.show nt) (text.show_key nt) (p :: ps).
Proof. done. Qed.

Lemma show_items_starts xs rest :
  xs ≠ [] → starts nt (text.show_items (text.show nt) xs +:+ rest).
Proof.
  destruct xs as [|x [|y ys]]; [done|..]; intros _.
  - cbn [text.show_items]. rewrite app_assoc_s. apply show_starts.
  - rewrite show_items_cons, app_assoc_s. apply show_starts.
Qed.

Lemma show_pairs_starts kvs rest :
  kvs ≠ [] → starts nt (text.show_pairs (text.show nt) (text.show_key nt) kvs +:+ rest).
Proof.
  destruct kvs as [|[k x] [|p ps]]; [done|..]; intros _.
  - cbn [text.show_pairs]. rewrite app_assoc_s. apply Hkey_head.
  - rewrite show_pairs_cons, app_assoc_s. apply Hkey_head.
Qed.

Lemma read_items_show xs :
  Forall (reads nt) xs → xs ≠ [] → ∀ n rest,
  (String.length (text.show_items (text.show nt) xs) ≤ n)%nat →
  text.read_items nt n (text.show_items (text.show nt) xs +:+ rest) = Return (xs, rest).
Proof.
  induction 1 as [|x xs Hx Hxs IH]; [done|]. intros _ n rest Hn.
  destruct xs as [|y ys].
  - cbn [text.show_items] in *. rewrite length_app_s in Hn. cbn [String.length] in Hn.
    destruct n as [|n]; [lia|]. cbn [text.read_items].
    rewrite app_assoc_s. change ("]" +:+ rest) with (String "]" rest).
    rewrite (Hx n (String "]" rest)) by (done || lia).
    cbv zeta. rewrite (skip_char _ _ Hbracket). by rewrite head_is_String.
  - rewrite show_items_cons in *. rewrite !length_app_s in Hn. cbn [String.length] in Hn.
    destruct n as [|n]; [lia|]. cbn [text.read_items].
    rewrite !app_assoc_s. change (", " +:+ ?X) with (String "," (String " " X)).
    rewrite (Hx n) by (done || lia).
    cbv zeta. rewrite (skip_char _ _ Hcomma), !head_is_String.
    change (Ascii.eqb "," "]") with false. change (Ascii.eqb "," ",") with true. cbv iota.
    rewrite drop1_String, skip_space, skip_starts by by apply show_items_starts.
    by rewrite IH by (done || lia).
Qed.

Lemma read_pairs_show kvs :
  Forall (λ kv, reads nt kv.2) kvs → kvs ≠ [] → ∀ n rest,
  (String.length (text.show_pairs (text.show nt) (text.show_key nt) kvs) ≤ n)%nat →
  text.read_pairs nt n (text.show_pairs (text.show nt) (text.show_key nt) kvs +:+ rest)
  = Return (kvs, rest).
Proof.
  induction 1 as [|[k x] kvs Hx Hxs IH]; [done|]. intros _ n rest Hn. simpl in Hx.
  destruct kvs as [|p ps].
  - cbn [text.show_pairs] in *. rewrite !length_app_s in Hn. cbn [String.length] in Hn.
    destruct n as [|n]; [lia|]. cbn [text.read_pairs].
    rewrite !app_assoc_s, Hkey. change (": " +:+ ?X) with (String ":" (String " " X)).
    cbv zeta. rewrite (skip_char _ _ Hcolon), head_is_String.
    change (Ascii.eqb ":" ":") with true. cbv iota.
    rewrite drop1_String, skip_space, skip_starts by apply show_starts.
    change ("}" +:+ rest) with (String "}" rest).
    rewrite (Hx n (String "}" rest)) by (done || lia).
    rewrite (skip_char _ _ Hbrace). by rewrite head_is_String.
  - rewrite show_pairs_cons in *. rewrite !length_app_s in Hn. cbn [String.length] in Hn.
    destruct n as [|n]; [lia|]. cbn [text.read_pairs].
    rewrite !app_assoc_s, Hkey. change (": " +:+ ?X) with (String ":" (String " " X)).
    cbv zeta. rewrite (skip_char _ _ Hcolon), head_is_String.
    change (Ascii.eqb ":" ":") with true. cbv iota.
    rewrite drop1_String, skip_space, skip_starts by apply show_starts.
    change (", " +:+ ?X) with (String "," (String " " X)).
    rewrite (Hx n) by (done || lia).
    rewrite (skip_char _ _ Hcomma), !head_is_String.
    change (Ascii.eqb "," "}") with false. change (Ascii.eqb "," ",") with true. cbv iota.
    rewrite drop1_String, skip_space, skip_starts by by apply show_pairs_starts.
    by rewrite IH by (done || lia).
Qed.

Lemma well_formed_list xs :
  well_formed (VList xs) = true → Forall (λ x, well_formed x = true) xs.
Proof. cbn [well_formed]. intros H. apply Forall_forall. intros x Hx.
  rewrite forallb_forall in H. apply H. by apply list_elem_of_In. Qed.

Lemma well_formed_dict kvs :
  well_formed (VDict kvs) = true →
  NoDup (map fst kvs) ∧ Forall (λ kv, well_formed kv.2 = true) kvs.
Proof.
  cbn [well_formed]. intros [H1 H2]%andb_true_iff. split.
  - by apply bool_decide_eq_true in H1.
  - apply Forall_forall. intros x Hx. rewrite forallb_forall in H2.
    apply H2. by apply list_elem_of_In.
Qed.

Theorem read_show v : well_formed v = true → reads nt v.
Proof.
  induction v as [|b|z|s|xs IH|kvs IH] using value_ind'; intros Hwf n rest Hc Hn.
  1-4: (destruct n as [|n]; [|by apply read_atom]);
       match type of Hn with
       | (String.length (text.show nt ?v) ≤ _)%nat =>
           destruct (Hatom_head v "" eq_refl) as (c & t & E & _)
       end;
       cbn [text.show] in Hn; rewrite app_empty_r in E; rewrite E in Hn; simpl in Hn; lia.
  - cbn [text.show] in *. simpl in Hn. destruct n as [|n]; [lia|].
    rewrite app_String. cbn [text.read]. rewrite head_is_String.
    change (Ascii.eqb "[" "[") with true. cbv iota zeta. rewrite drop1_String.
    destruct xs as [|x xs].
    + cbn [text.show_items]. change ("]" +:+ rest) with (String "]" rest).
      rewrite (skip_char _ _ Hbracket). by rewrite head_is_String.
    + destruct (show_items_starts (x :: xs) rest ltac:(done)) as (c & t & E & Hw & Hb & _).
      rewrite (skip_starts _ (show_items_starts (x :: xs) rest ltac:(done))).
      rewrite E at 1. rewrite (head_not _ _ _ Hb).
      rewrite read_items_show; [done| |done|lia].
      apply well_formed_list in Hwf. rewrite Forall_forall in *. naive_solver.
  - cbn [text.show] in *. simpl in Hn. destruct n as [|n]; [lia|].
    rewrite app_String. cbn [text.read]. rewrite !head_is_String.
    change (Ascii.eqb "{" "[") with false. change (Ascii.eqb "{" "{") with true.
    cbv iota zeta. rewrite drop1_String.
    apply well_formed_dict in Hwf as [Hnd Hwf].
    destruct kvs as [|p kvs].
    + cbn [text.show_pairs]. change ("}" +:+ rest) with (String "}" rest).
      rewrite (skip_char _ _ Hbrace). by rewrite head_is_String.
    + destruct (show_pairs_starts (p :: kvs) rest ltac:(done)) as (c & t & E & Hw & _ & Hb).
      rewrite (skip_starts _ (show_pairs_starts (p :: kvs) rest ltac:(done))).
      rewrite E at 1. rewrite (head_not _ _ _ Hb).
      rewrite read_pairs_show; [by rewrite of_pairs_nodup| |done|lia].
      rewrite Forall_forall in *. naive_solver.
Qed.

Lemma read_all_show v :
  well_formed v = true → text.read_all nt (text.show nt v) = Return v.
Proof.
  intros Hwf. unfold text.read_all.
  rewrite <-(app_empty_r (text.show nt v)) at 2.
  rewrite (read_show v Hwf) by (done || lia). done.
Qed.

End Roundtrip.

(** ** JSON and Python literals *)

Lemma digit_starts_atom nt c t :
  text.is_digit c = true →
  (∀ d, text.is_digit d = true → text.ws nt d = false) →
  starts_atom nt (String c t).
Proof.
  intros Hd Hw. exists c, t. split_and!; [done|by apply Hw|..];
    intros ->; discriminate Hd.
Qed.

Lemma json_ws_digit d : text.is_digit d = true → json.whitespace d = false.
Proof. intros H. each_char d; try discriminate H; reflexivity. Qed.

Lemma py_ws_digit d : text.is_digit d = true → ast.whitespace d = false.
Proof. intros H. each_char d; try discriminate H; reflexivity. Qed.

Lemma json_atom_head v rest :
  atom v = true → starts_atom json.notation (text.show_scalar json.notation v +:+ rest).
Proof.
  intros Ha. destruct v as [|[]|z|s| |]; try done.
  1-3: by eexists _, _; split_and!.
  - cbn [text.show_scalar json.notation json.show_scalar].
    destruct (str_int_head z) as [(c & s & E & Hd)|(c & s & E & Hd)]; rewrite E, app_String.
    + apply (digit_starts_atom _ _ _ Hd). apply json_ws_digit.
    + by eexists _, _; split_and!.
  - cbn [text.show_scalar json.notation json.show_scalar]. unfold json.quote.
    rewrite app_String. by eexists _, _; split_and!.
Qed.

Lemma json_key_head k rest :
  starts json.notation (text.show_key json.notation k +:+ rest).
Proof.
  cbn [text.show_key json.notation]. unfold json.quote.
  rewrite app_String. by eexists _, _; split_and!.
Qed.

Lemma json_read_all v :
  well_formed v = true → text.read_all json.notation (json.dumps v) = Return v.
Proof.
  apply read_all_show; try done.
  - apply json_scalar_show.
  - apply json_atom_head.
  - apply json_key_quote.
  - apply json_key_head.
Qed.

Lemma json_dumps_tight v : text.skip json.whitespace (json.dumps v) = json.dumps v.
Proof.
  unfold json.dumps. rewrite <-(app_empty_r (text.show _ v)).
  apply (skip_starts json.notation). apply show_starts; [done|done|].
  apply json_atom_head.
Qed.

Theorem json_loads_dumps v : well_formed v = true → json.loads (json.dumps v) = Return v.
Proof. intros H. unfold json.loads. rewrite json_dumps_tight. by apply json_read_all. Qed.

Lemma py_quote_head s rest :
  ∃ c t, ast.repr_str s +:+ rest = String c t ∧ (c = squote ∨ c = dquote).
Proof.
  unfold ast.repr_str. cbv zeta. destruct (_ && _); rewrite app_String; eauto.
Qed.

Lemma py_atom_head v rest :
  atom v = true → starts_atom ast.notation (text.show_scalar ast.notation v +:+ rest).
Proof.
  intros Ha. destruct v as [|[]|z|s| |]; try done.
  1-3: by eexists _, _; split_and!.
  - cbn [text.show_scalar ast.notation ast.show_scalar].
    destruct (str_int_head z) as [(c & s & E & Hd)|(c & s & E & Hd)]; rewrite E, app_String.
    + apply (digit_starts_atom _ _ _ Hd). apply py_ws_digit.
    + by eexists _, _; split_and!.
  - cbn [text.show_scalar ast.notation ast.show_scalar].
    destruct (py_quote_head s rest) as (c & t & -> & [-> | ->]); by eexists _, _; split_and!.
Qed.

Lemma py_key_head k rest :
  starts ast.notation (text.show_key ast.notation k +:+ rest).
Proof.
  cbn [text.show_key ast.notation].
  destruct (py_quote_head k rest) as (c & t & -> & [-> | ->]); by eexists _, _; split_and!.
Qed.

Lemma py_read_all v :
  well_formed v = true → text.read_all ast.notation (ast.str v) = Return v.
Proof.
  apply read_all_show; try done.
  - apply py_scalar_show.
  - apply py_atom_head.
  - apply py_key_repr.
  - apply py_key_head.
Qed.

Lemma py_str_tight v : text.skip ast.blank (ast.str v) = ast.str v.
Proof.
  unfold ast.str. rewrite <-(app_empty_r (text.show _ v)).
  destruct (show_starts ast.notation eq_refl eq_refl py_atom_head v "") as (c & t & -> & Hw & _).
  simpl. cbn [text.ws ast.notation] in Hw.
  assert (ast.blank c = false) as ->; [|done].
  revert Hw. unfold ast.whitespace, ast.blank.
  destruct (N_of_ascii c =? 32)%N, (N_of_ascii c =? 9)%N; done.
Qed.

Theorem literal_eval_str v :
  well_formed v = true → ast.literal_eval (ast.str v) = Return v.
Proof. intros H. unfold ast.literal_eval. rewrite py_str_tight. by apply py_read_all. Qed.

Lemma dumps_dict_head kvs : ∃ t, json.dumps (VDict kvs) = String "{" t.
Proof. by eexists. Qed.

Theorem decode_encode_meta meta :
  well_formed (VDict meta) = true → _decode_meta (_encode_meta meta) = Return (VDict meta).
Proof.
  intros H. unfold _decode_meta, _encode_meta. rewrite utf8_roundtrip.
  destruct (dumps_dict_head meta) as [t E]. rewrite E at 1.
  change (pystr.startswith (String dquote "") (String "{" t)) with false. cbv iota.
  by apply json_loads_dumps.
Qed.

Theorem decode_legacy_meta meta :
  well_formed (VDict meta) = true →
  _decode_meta (legacy_encode_meta meta) = Return (VDict meta).
Proof.
  intros H. unfold _decode_meta, legacy_encode_meta. rewrite utf8_roundtrip.
  assert (∃ t, json.dumps (VStr (ast.str (VDict meta))) = String dquote t) as [t E]
    by by eexists.
  rewrite E at 1.
  assert (pystr.startswith (String dquote "") (String dquote t) = true) as -> by done.
  rewrite json_loads_dumps by done. by apply literal_eval_str.
Qed.

(** ** Creating an object *)

Lemma loc_app k a b : loc k (a ++ b) = loc (loc k a) b.
Proof. unfold loc. by rewrite fold_left_app. Qed.

Lemma loc_blank k cs : loc k (cs ++ [""]) = loc k cs.
Proof. by rewrite loc_app. Qed.

(** The components ahead of the last one of [join F name] lead where
    the components of [F] lead. *)
Lemma join_comps F name :
  F ≠ "" → proper name = true →
  ∃ cs, pystr.split "/" (posixpath.join F name) = cs ++ [name]
        ∧ (∀ k, loc k cs = loc k (pystr.split "/" F))
        ∧ (∀ t k, fs.mkdirs t k cs = fs.mkdirs t k (pystr.split "/" F))
        ∧ (∀ t k, walk_dir t k cs = walk_dir t k (pystr.split "/" F))
        ∧ posixpath.isabs (posixpath.join F name) = posixpath.isabs F.
Proof.
  intros HF Hp. destruct (join_split F name HF Hp) as (cs & E1 & [E2|E2] & E3);
    exists cs; rewrite E2; split_and!; try done.
  - intros k. by rewrite loc_blank.
  - intros t k. by rewrite mkdirs_blank.
  - intros t k. by rewrite walk_dir_blank.
Qed.

Lemma write_join_ok t c r rn f fn F nm content t1 :
  (∀ i, (fn ≤ i)%nat → f i = None) →
  F ≠ "" → proper nm = true →
  let k0 := if posixpath.isabs F then [] else c in
  let kD := loc k0 (pystr.split "/" F) in
  let tmp := (nm +:+ "_" +:+ uuid.str (uuid.v4 (r rn))) :: kD in
  fs.mkdirs t k0 (pystr.split "/" F) = Some t1 →
  fs.node_at t1 tmp ≠ Some Dir →
  fs.node_at t1 (nm :: kD) ≠ Some Dir →
  _write (posixpath.join F nm) content (World t c r rn f fn)
  = (Return tt,
     World (<[nm :: kD := File content]> (delete tmp t1)) c r (S rn) f
           (S (S (S (S (S fn)))))).
Proof.
  intros Hcalm HF Hp k0 kD tmp Hmk H1 H2.
  destruct (join_comps F nm HF Hp) as (cs & Hs & Hloc & Hmkd & _ & Habs).
  pose proof (write_ok t c r rn f fn (posixpath.join F nm) content cs nm t1 Hcalm Hs Hp) as H.
  cbv zeta in H. rewrite Habs, Hloc, Hmkd in H. by apply H.
Qed.

Lemma walk_dir_mkdirs t k cs t1 :
  fs.mkdirs t k cs = Some t1 → walk_dir t1 k cs = Some (loc k cs).
Proof.
  intros H. destruct (mkdirs_walk _ _ _ _ H) as [Hw Hd]. unfold walk_dir.
  rewrite Hw. simpl. by rewrite Hd.
Qed.

Lemma walk_dir_same t t' k cs :
  (∀ x, fs.is_dir t' x = fs.is_dir t x) → walk_dir t' k cs = walk_dir t k cs.
Proof.
  intros H. unfold walk_dir. rewrite (walk_same _ _ _ _ H).
  destruct (fs.walk t k cs); simpl; [|done]. by rewrite H.
Qed.

Lemma walk_dir_noop t k cs kD :
  walk_dir t k cs = Some kD → fs.mkdirs t k cs = Some t.
Proof.
  unfold walk_dir. destruct (fs.walk t k cs) as [k'|] eqn:E; simpl; [|done].
  destruct (fs.is_dir t k') eqn:Ed; [|done]. intros _. by eapply mkdirs_noop.
Qed.

Lemma walk_dir_loc t k cs kD : walk_dir t k cs = Some kD → kD = loc k cs.
Proof.
  unfold walk_dir. destruct (fs.walk t k cs) as [k'|] eqn:E; simpl; [|done].
  destruct (fs.is_dir t k'); [|done]. intros [= <-]. by eapply walk_loc.
Qed.

Lemma walk_dir_is_dir t k cs kD : walk_dir t k cs = Some kD → fs.is_dir t kD = true.
Proof.
  unfold walk_dir. destruct (fs.walk t k cs) as [k'|] eqn:E; simpl; [|done].
  destruct (fs.is_dir t k') eqn:Ed; [|done]. by intros [= <-].
Qed.

Lemma dir_of_world t c r rn f fn F :
  F ≠ "" →
  dir_of (World t c r rn f fn) F
  = walk_dir t (if posixpath.isabs F then [] else c) (pystr.split "/" F).
Proof. intros H. by rewrite dir_of_walk. Qed.

(** Changes of files leave the directories as they are. *)
Lemma node_at_cons t n k : fs.node_at t (n :: k) = t !! (n :: k).
Proof. done. Qed.

Lemma same_dirs_step t a b v :
  fs.node_at t a ≠ Some Dir → fs.node_at t b ≠ Some Dir → a ≠ [] →
  ∀ x, fs.is_dir (<[a := File v]> (delete b t)) x = fs.is_dir t x.
Proof.
  intros Ha Hb Hne x. rewrite is_dir_insert_file; [by apply is_dir_delete_file| |done].
  destruct a as [|n a]; [done|]. rewrite node_at_cons in *.
  destruct (decide (b = n :: a)) as [->|Hd].
  - by rewrite lookup_delete_eq.
  - by rewrite lookup_delete_ne.
Qed.

Lemma step_not_dir t a b v y :
  fs.node_at t y ≠ Some Dir → y ≠ [] →
  fs.node_at (<[a := File v]> (delete b t)) y ≠ Some Dir.
Proof.
  intros Hy Hne. destruct y as [|n y]; [done|]. rewrite node_at_cons in *.
  destruct (decide (a = n :: y)) as [->|Ha]; [by rewrite lookup_insert_eq|].
  rewrite lookup_insert_ne by done.
  destruct (decide (b = n :: y)) as [->|Hb]; [by rewrite lookup_delete_eq|].
  by rewrite lookup_delete_ne.
Qed.

Lemma neq_length (a b : string) : String.length a ≠ String.length b → a ≠ b.
Proof. by intros H ->. Qed.

Section Create.
Variable self : FilesystemStorage.
Variables (t : gmap (list string) node) (c : list string) (r : nat → N) (rn : nat)
          (f : nat → option nat) (fn : nat).
Variables (uri : string) (data : list Byte.byte) (meta : list (string * value)).

Let w := World t c r rn f fn.
Let F := _object_path self uri.
Let k0 := if posixpath.isabs F then [] else c.
Let kD := loc k0 (pystr.split "/" F).
Let d1 := "data" +:+ "_" +:+ uuid.str (uuid.v4 (r rn)).
Let d2 := d1 +:+ "_" +:+ uuid.str (uuid.v4 (r (S rn))).
Let m3 := "meta" +:+ "_" +:+ uuid.str (uuid.v4 (r (S (S rn)))).

Lemma names_distinct :
  d1 ≠ d2 ∧ d1 ≠ m3 ∧ d1 ≠ "meta" ∧ d1 ≠ "data" ∧ d2 ≠ m3 ∧ d2 ≠ "meta" ∧ d2 ≠ "data"
  ∧ m3 ≠ "meta" ∧ m3 ≠ "data".
Proof.
  subst d1 d2 m3. split_and!; try (apply neq_length; rewrite ?length_app_s; simpl; lia).
  all: by intros [=].
Qed.

Lemma names_proper : proper d1 = true ∧ proper d2 = true ∧ proper m3 = true.
Proof. subst d1 d2 m3. split_and!; repeat apply temp_proper; done. Qed.

Lemma create_ok ow t1 :
  (∀ i, (fn ≤ i)%nat → f i = None) →
  F ≠ "" →
  valid_object w F && negb ow = false →
  (valid_object w F = true ∨ fs.lookup_path w F ≠ Some Dir ∨ fs.entries t kD = []) →
  fs.mkdirs t k0 (pystr.split "/" F) = Some t1 →
  t1 !! (d2 :: kD) ≠ Some Dir → t1 !! (d1 :: kD) ≠ Some Dir →
  t1 !! (m3 :: kD) ≠ Some Dir → t1 !! ("meta" :: kD) ≠ Some Dir →
  t1 !! ("data" :: kD) ≠ Some Dir →
  create_object self uri data meta ow w
  = (Return F, World (created w kD data (_encode_meta meta) t1) c r (S (S (S rn))) f (10 + fn)).
Proof.
  intros Hcalm HF Hguard Hvac Hmk Hd2 Hd1 Hm3 Hmeta Hdata.
  destruct names_distinct as (N1 & N2 & N3 & N4 & N5 & N6 & N7 & N8 & N9).
  destruct names_proper as (P1 & P2 & P3).
  unfold create_object. fold F. rewrite bind_eq, object_exists_eq. fold w. rewrite Hguard.
  rewrite bind_eq, object_exists_eq, bind_eq. unfold os.path_isdir, os.gets.
  rewrite bind_eq.
  (* the directory is not occupied *)
  assert ((if negb (valid_object w F) && fs.isdir w F
           then names ← os.listdir F; ret (negb (bool_decide (names = [])))
           else ret false : IO bool) w = (Return false, w)) as ->.
  { destruct (valid_object w F) eqn:Ev; [done|]. cbn [negb andb].
    destruct (fs.isdir w F) eqn:Ei; [|done]. unfold fs.isdir in Ei.
    destruct (fs.lookup_path w F) as [[|]|] eqn:El; try done.
    destruct Hvac as [?|[?|Hvac]]; try done.
    rewrite bind_eq. unfold os.listdir. unfold fs.lookup_path in El.
    destruct (fs.resolve w F) as [k|] eqn:Er; [|done].
    cbn [mbind option_bind] in El. rewrite El.
    assert (k = kD) as ->.
    { unfold fs.resolve in Er. rewrite bool_decide_eq_false_2 in Er by done.
      by apply walk_loc in Er. }
    subst w. cbn [tree]. by rewrite Hvac. }
  cbv iota.
  (* first write: the data, under a temporary name *)
  rewrite bind_eq. unfold uuid.uuid4 at 1. subst w.
  cbn [tree cwd rand rand_next io_fault io_next].
  fold d1. rewrite <-(join_app F "data" ("_" +:+ uuid.str (uuid.v4 (r rn)))) by done.
  fold d1. rewrite bind_eq.
  rewrite (write_join_ok t c r (S rn) f fn F d1 data t1 Hcalm HF P1 Hmk).
  2: { fold k0 kD d2. rewrite node_at_cons. assumption. }
  2: { fold k0 kD. rewrite node_at_cons. assumption. }
  fold k0 kD d2.
  set (t2 := <[d1 :: kD := File data]> (delete (d2 :: kD) t1)).
  assert (∀ x, fs.is_dir t2 x = fs.is_dir t1 x) as Hsame2.
  { apply same_dirs_step; [| |done]; rewrite node_at_cons; assumption. }
  assert (walk_dir t1 k0 (pystr.split "/" F) = Some kD) as Hwd1
    by apply (walk_dir_mkdirs _ _ _ _ Hmk).
  assert (walk_dir t2 k0 (pystr.split "/" F) = Some kD) as Hwd2
    by by rewrite (walk_dir_same _ _ _ _ Hsame2).
  (* second write: the meta *)
  rewrite bind_eq. unfold try_except.
  assert (∀ i, (S (S (S (S (S fn)))) ≤ i)%nat → f i = None) as Hcalm2
    by (intros i Hi; apply Hcalm; lia).
  rewrite (write_join_ok t2 c r (S (S rn)) f _ F "meta" (_encode_meta meta) t2
             Hcalm2 HF eq_refl (walk_dir_noop _ _ _ _ Hwd2)).
  2: { fold k0 kD m3. apply step_not_dir; [|done]. rewrite node_at_cons. assumption. }
  2: { fold k0 kD. apply step_not_dir; [|done]. rewrite node_at_cons. assumption. }
  fold k0 kD m3.
  set (t3 := <["meta" :: kD := File (_encode_meta meta)]> (delete (m3 :: kD) t2)).
  assert (∀ x, fs.is_dir t3 x = fs.is_dir t1 x) as Hsame3.
  { intros x. unfold t3. rewrite same_dirs_step; [done| | |done].
    all: apply step_not_dir; [|done]; rewrite node_at_cons; assumption. }
  assert (walk_dir t3 k0 (pystr.split "/" F) = Some kD) as Hwd3
    by by rewrite (walk_dir_same _ _ _ _ Hsame3).
  (* the data file takes its name *)
  rewrite bind_eq.
  set (w3 := World t3 c r (S (S (S rn))) f (S (S (S (S (S (S (S (S (S (S fn))))))))))).
  assert (dir_of w3 F = Some kD) as Hdir3.
  { unfold w3. rewrite dir_of_world by done. exact Hwd3. }
  assert (fs.resolve w3 (posixpath.join F d1) = Some (d1 :: kD)) as Hr1.
  { rewrite (resolve_join _ _ _ HF P1), Hdir3. reflexivity. }
  assert (fs.resolve w3 (posixpath.join F "data") = Some ("data" :: kD)) as Hr2.
  { rewrite (resolve_join _ _ _ HF (eq_refl : proper "data" = true)), Hdir3. reflexivity. }
  subst w3.
  rewrite (rename_file_ok t3 c r _ f _ _ _ _ _ data Hr1 Hr2).
  - reflexivity.
  - rewrite node_at_cons. unfold t3, t2.
    rewrite lookup_insert_ne by (intros [= E]; by apply N3).
    rewrite lookup_delete_ne by (intros [= E]; by apply N2).
    by rewrite lookup_insert_eq.
  - unfold t3. apply step_not_dir; [|done]. unfold t2. apply step_not_dir; [|done].
    rewrite node_at_cons. assumption.
  - cbn [tail]. rewrite Hsame3. by eapply walk_dir_is_dir.
  - intros [= E]; by apply N4.
Qed.

End Create.

(** ** Reading an object *)

Lemma valid_object_at w F k d m : object_at w F k d m → valid_object w F = true.
Proof.
  intros (Ha & Hd & H1 & H2). pose proof (isabs_nonempty _ Ha) as HF.
  unfold valid_object, fs.isfile, fs.isdir. rewrite Ha.
  rewrite !lookup_join by done. rewrite Hd. cbn [mbind option_bind]. rewrite H1, H2.
  assert (fs.lookup_path w F = Some Dir) as -> by (apply lookup_dir; by rewrite Hd).
  done.
Qed.

Lemma valid_object_inv w F :
  valid_object w F = true → ∃ k d m, object_at w F k d m.
Proof.
  unfold valid_object, fs.isfile, fs.isdir. rewrite !andb_true_iff.
  intros [[[Ha Hd] H1] H2].
  pose proof (isabs_nonempty _ Ha) as HF.
  rewrite !lookup_join in * by done.
  destruct (fs.lookup_path w F) as [[]|] eqn:El; try done.
  apply lookup_dir in El as [k Hk]. rewrite Hk in *. cbn [mbind option_bind] in *.
  destruct (tree w !! ("data" :: k)) as [[d|]|] eqn:E1; try done.
  destruct (tree w !! ("meta" :: k)) as [[m|]|] eqn:E2; try done.
  by exists k, d, m.
Qed.

Lemma read_join w F k nm v :
  F ≠ "" → proper nm = true → dir_of w F = Some k → tree w !! (nm :: k) = Some (File v) →
  _read (posixpath.join F nm) w = (Return v, w).
Proof.
  intros HF Hp Hd Hv. unfold _read, try_except, builtins.read_bytes.
  rewrite lookup_join by done. rewrite Hd. cbn [mbind option_bind]. by rewrite Hv.
Qed.

Section Reads.
Variable self : FilesystemStorage.

Lemma get_data_at uri w k d m :
  object_at w (_object_path self uri) k d m →
  get_data self uri w = (Return d, w).
Proof.
  intros Ho. pose proof (valid_object_at _ _ _ _ _ Ho) as Hv.
  destruct Ho as (Ha & Hd & H1 & H2). pose proof (isabs_nonempty _ Ha) as HF.
  unfold get_data. rewrite bind_eq, object_exists_eq, Hv. cbn [negb].
  by apply (read_join _ _ k).
Qed.

Lemma get_meta_at uri w k d m :
  object_at w (_object_path self uri) k d m →
  get_meta self uri w = (_decode_meta m, w).
Proof.
  intros Ho. pose proof (valid_object_at _ _ _ _ _ Ho) as Hv.
  destruct Ho as (Ha & Hd & H1 & H2). pose proof (isabs_nonempty _ Ha) as HF.
  unfold get_meta. rewrite bind_eq, object_exists_eq, Hv. cbn [negb].
  rewrite bind_eq, (read_join _ _ k _ m) by done. done.
Qed.

End Reads.

Lemma object_path_abs self uri :
  posixpath.isabs (root_dir self) = true → posixpath.isabs (_object_path self uri) = true.
Proof.
  intros H. unfold _object_path, posixpath.join.
  destruct (pystr.startswith "/" (pystr.lstrip (uri_root self) uri)) eqn:E; [done|].
  pose proof (isabs_nonempty _ H) as Hne.
  destruct (_ || _); unfold posixpath.isabs in *;
    by rewrite (startswith_app_nonempty "/" _ _ Hne eq_refl).
Qed.

Lemma three_steps (t1 : gmap (list string) node) kD (d1 d2 m3 : string) (data m : list Byte.byte) :
  d1 ≠ "meta" →
  t1 !! (d2 :: kD) ≠ Some Dir → t1 !! (d1 :: kD) ≠ Some Dir →
  t1 !! (m3 :: kD) ≠ Some Dir → t1 !! ("meta" :: kD) ≠ Some Dir →
  t1 !! ("data" :: kD) ≠ Some Dir →
  let t' := <["data" :: kD := File data]> (delete (d1 :: kD)
              (<["meta" :: kD := File m]> (delete (m3 :: kD)
                (<[d1 :: kD := File data]> (delete (d2 :: kD) t1))))) in
  (∀ x, fs.is_dir t' x = fs.is_dir t1 x)
  ∧ t' !! ("data" :: kD) = Some (File data)
  ∧ t' !! ("meta" :: kD) = Some (File m).
Proof.
  intros N3 Hd2 Hd1 Hm3 Hmeta Hdata t'. subst t'.
  set (t2 := <[d1 :: kD := File data]> (delete (d2 :: kD) t1)).
  set (t3 := <["meta" :: kD := File m]> (delete (m3 :: kD) t2)).
  split_and!.
  - intros x. rewrite same_dirs_step; [| | |done].
    + unfold t3. rewrite same_dirs_step; [| | |done].
      * unfold t2. rewrite same_dirs_step; by rewrite ?node_at_cons.
      * unfold t2. apply step_not_dir; by rewrite ?node_at_cons.
      * unfold t2. apply step_not_dir; by rewrite ?node_at_cons.
    + unfold t3, t2. do 2 (apply step_not_dir; [|done]). by rewrite node_at_cons.
    + unfold t3, t2. do 2 (apply step_not_dir; [|done]). by rewrite node_at_cons.
  - by rewrite lookup_insert_eq.
  - rewrite lookup_insert_ne by (by intros [=]).
    rewrite lookup_delete_ne by (intros [= E]; by apply N3).
    unfold t3. by rewrite lookup_insert_eq.
Qed.

Section Created.
Variable self : FilesystemStorage.
Variables (t : gmap (list string) node) (c : list string) (r : nat → N) (rn : nat)
          (f : nat → option nat) (fn : nat).
Variables (uri : string) (data : list Byte.byte) (meta : list (string * value)).
Variables (rn' fn' : nat).

Let F := _object_path self uri.
Let k0 := if posixpath.isabs F then [] else c.
Let kD := loc k0 (pystr.split "/" F).

Lemma created_object t1 :
  posixpath.isabs F = true →
  walk_dir t1 k0 (pystr.split "/" F) = Some kD →
  t1 !! (("data" +:+ "_" +:+ uuid.str (uuid.v4 (r rn)) +:+ "_"
           +:+ uuid.str (uuid.v4 (r (S rn)))) :: kD) ≠ Some Dir →
  t1 !! (("data" +:+ "_" +:+ uuid.str (uuid.v4 (r rn))) :: kD) ≠ Some Dir →
  t1 !! (("meta" +:+ "_" +:+ uuid.str (uuid.v4 (r (S (S rn))))) :: kD) ≠ Some Dir →
  t1 !! ("meta" :: kD) ≠ Some Dir →
  t1 !! ("data" :: kD) ≠ Some Dir →
  object_at (World (created (World t c r rn f fn) kD data (_encode_meta meta) t1)
                    c r rn' f fn') F kD data (_encode_meta meta).
Proof.
  intros Ha Hwd Hd2 Hd1 Hm3 Hmeta Hdata.
  pose proof (isabs_nonempty _ Ha) as HF.
  assert ("data" +:+ "_" +:+ uuid.str (uuid.v4 (r rn)) ≠ "meta") as N3 by (by intros [=]).
  rewrite <-app_assoc_s in Hd2.
  destruct (three_steps t1 kD _ _ _ data (_encode_meta meta) N3 Hd2 Hd1 Hm3 Hmeta Hdata)
    as (Hsame & H1 & H2).
  split_and!; [exact Ha| | |].
  - rewrite dir_of_world by exact HF. fold F k0.
    rewrite (walk_dir_same _ _ _ _ Hsame). exact Hwd.
  - exact H1.
  - exact H2.
Qed.

End Created.

(** ** Creation on an empty place *)

Lemma no_dotdot_plain p : no_dotdot p = true → plain (pystr.split "/" p).
Proof.
  unfold no_dotdot, plain. rewrite forallb_forall. intros H Hin.
  apply list_elem_of_In, H in Hin. done.
Qed.

Lemma create_exists self uri data meta w :
  valid_object w (_object_path self uri) = true →
  create_object self uri data meta false w = (Raise (StorageException AlreadyExists), w).
Proof. intros H. unfold create_object. by rewrite bind_eq, object_exists_eq, H. Qed.

Lemma create_occupied self uri data meta ow w k :
  valid_object w (_object_path self uri) = false →
  dir_of w (_object_path self uri) = Some k → fs.entries (tree w) k ≠ [] →
  create_object self uri data meta ow w = (Raise (StorageException NonEmptyDirectory), w).
Proof.
  intros Hv Hd He. unfold create_object. rewrite bind_eq, object_exists_eq, Hv.
  cbn [andb]. rewrite bind_eq, object_exists_eq, Hv, bind_eq.
  unfold os.path_isdir, os.gets, fs.isdir.
  assert (fs.lookup_path w (_object_path self uri) = Some Dir) as El
    by (apply lookup_dir; by rewrite Hd).
  rewrite El. cbn [negb andb]. rewrite !bind_eq. unfold os.listdir.
  unfold dir_of in Hd. unfold fs.lookup_path in El.
  destruct (fs.resolve w (_object_path self uri)) as [k'|]; [|done].
  cbn [mbind option_bind] in *. rewrite El.
  destruct (fs.is_dir (tree w) k'); [|done]. injection Hd as ->.
  unfold ret. by rewrite bool_decide_eq_false_2.
Qed.

Lemma vacant_children t c r rn f fn F nm :
  let w := World t c r rn f fn in
  let kD := loc (if posixpath.isabs F then [] else c) (pystr.split "/" F) in
  F ≠ "" → sound t → no_dotdot F = true → vacant w F →
  t !! (nm :: kD) = None.
Proof.
  intros w kD HF Hs Hp Hv. subst w kD.
  set (kD := loc (if posixpath.isabs F then [] else c) (pystr.split "/" F)) in *.
  destruct (t !! (nm :: kD)) eqn:E; [|done]. exfalso.
  assert (fs.is_dir t kD = true) as Hd by (apply (Hs nm); by eexists).
  assert (dir_of (World t c r rn f fn) F = Some kD) as Hdir.
  { rewrite dir_of_world by done. unfold walk_dir.
    rewrite sound_walk; [|done|by apply no_dotdot_plain|done].
    cbn [mbind option_bind]. fold kD. by rewrite Hd. }
  apply Hv in Hdir. cbn [tree] in Hdir. rewrite entries_nil in Hdir.
  by rewrite Hdir in E.
Qed.

Lemma made_children t k cs t1 nm :
  plain cs → fs.mkdirs t k cs = Some t1 → t1 !! (nm :: loc k cs) = t !! (nm :: loc k cs).
Proof.
  intros Hp Hm. apply (mkdirs_frame _ _ _ _ Hp Hm). apply suffix_cons_not.
Qed.

Lemma calm_world t c r rn f fn :
  calm (World t c r rn f fn) → ∀ i, (fn ≤ i)%nat → f i = None.
Proof. done. Qed.

(** Creation at a free place succeeds. *)
Lemma create_fresh_ok self uri data meta ow t c r rn f fn t1 :
  let w := World t c r rn f fn in
  let F := _object_path self uri in
  posixpath.isabs F = true →
  sound t → no_dotdot F = true → calm w →
  fs.mkdirs t [] (pystr.split "/" F) = Some t1 →
  vacant w F →
  create_object self uri data meta ow w
  = (Return F, World (created w (loc [] (pystr.split "/" F)) data (_encode_meta meta) t1)
                     c r (S (S (S rn))) f (10 + fn))
  ∧ object_at (World (created w (loc [] (pystr.split "/" F)) data (_encode_meta meta) t1)
                     c r (S (S (S rn))) f (10 + fn))
              F (loc [] (pystr.split "/" F)) data (_encode_meta meta).
Proof.
  intros w F Ha Hs Hp Hc Hm Hv. pose proof (isabs_nonempty _ Ha) as HF.
  assert (∀ nm, t1 !! (nm :: loc [] (pystr.split "/" F)) = None) as Hnone.
  { intros nm. rewrite (made_children _ _ _ _ _ (no_dotdot_plain _ Hp) Hm).
    pose proof (vacant_children t c r rn f fn F nm HF Hs Hp Hv) as H.
    cbv zeta in H. by rewrite Ha in H. }
  assert (valid_object w F = false) as Hnv.
  { destruct (valid_object w F) eqn:E; [|done].
    apply valid_object_inv in E as (k & d & m & _ & Hd & H1 & _).
    apply Hv in Hd. rewrite entries_nil in Hd. by rewrite Hd in H1. }
  split.
  - pose proof (create_ok self t c r rn f fn uri data meta ow t1) as H.
    cbv zeta in H. fold F in H. fold w in H. rewrite Ha in H. apply H; clear H.
    + exact (calm_world t c r rn f fn Hc).
    + done.
    + by rewrite Hnv.
    + right. destruct (fs.lookup_path w F) as [[]|] eqn:El; [by left|right|by left].
      apply lookup_dir in El as [k Hk]. pose proof (Hv k Hk) as He.
      unfold w in Hk. rewrite dir_of_world in Hk by done. rewrite Ha in Hk.
      apply walk_dir_loc in Hk. by subst k.
    + done.
    + by rewrite Hnone.
    + by rewrite Hnone.
    + by rewrite Hnone.
    + by rewrite Hnone.
    + by rewrite Hnone.
  - pose proof (created_object self t c r rn f fn uri data meta (S (S (S rn))) (10 + fn) t1) as H.
    cbv zeta in H. fold F in H. rewrite Ha in H. apply H; clear H.
    + done.
    + by apply walk_dir_mkdirs in Hm.
    + by rewrite Hnone.
    + by rewrite Hnone.
    + by rewrite Hnone.
    + by rewrite Hnone.
    + by rewrite Hnone.
Qed.

(** ** Creation, read back *)

Lemma fresh_not_dir t c r rn f fn F k nm :
  let w := World t c r rn f fn in
  F ≠ "" → fresh w F → dir_of w F = Some k → nm ∈ temp_names w → proper nm = true →
  t !! (nm :: k) ≠ Some Dir.
Proof.
  intros w HF Hf Hd Hin Hp. specialize (Hf nm Hin). unfold unused in Hf.
  rewrite lookup_join in Hf by done. rewrite Hd in Hf. cbn [mbind option_bind tree w] in Hf.
  by rewrite Hf.
Qed.

(** Creation over an object that is there, when overwriting is asked for. *)
Lemma create_over_ok self uri data meta t c r rn f fn k d0 m0 :
  let w := World t c r rn f fn in
  let F := _object_path self uri in
  object_at w F k d0 m0 → calm w → fresh w F →
  create_object self uri data meta true w
  = (Return F, World (created w k data (_encode_meta meta) t) c r (S (S (S rn))) f (10 + fn))
  ∧ object_at (World (created w k data (_encode_meta meta) t) c r (S (S (S rn))) f (10 + fn))
              F k data (_encode_meta meta).
Proof.
  intros w F Ho Hc Hf. pose proof (valid_object_at _ _ _ _ _ Ho) as Hv.
  destruct Ho as (Ha & Hd & H1 & H2). pose proof (isabs_nonempty _ Ha) as HF.
  pose proof Hd as Hwd. unfold w in Hwd. rewrite dir_of_world in Hwd by done.
  pose proof (walk_dir_loc _ _ _ _ Hwd) as Hk.
  destruct (names_proper r rn) as (P1 & P2 & P3).
  assert (t !! (("data" +:+ "_" +:+ uuid.str (uuid.v4 (r rn))) :: k) ≠ Some Dir) as Hd1.
  { apply (fresh_not_dir t c r rn f fn F k _ HF Hf Hd); [|exact P1].
    unfold temp_names, temp_name. cbn [rand rand_next w Nat.add]. apply list_elem_of_here. }
  assert (t !! ((("data" +:+ "_" +:+ uuid.str (uuid.v4 (r rn))) +:+ "_"
                 +:+ uuid.str (uuid.v4 (r (S rn)))) :: k) ≠ Some Dir) as Hd2.
  { apply (fresh_not_dir t c r rn f fn F k _ HF Hf Hd); [|exact P2].
    unfold temp_names, temp_name. cbn [rand rand_next w Nat.add]. apply list_elem_of_further, list_elem_of_here. }
  assert (t !! (("meta" +:+ "_" +:+ uuid.str (uuid.v4 (r (S (S rn))))) :: k) ≠ Some Dir) as Hm3.
  { apply (fresh_not_dir t c r rn f fn F k _ HF Hf Hd); [|exact P3].
    unfold temp_names, temp_name. cbn [rand rand_next w Nat.add].
    apply list_elem_of_further, list_elem_of_further, list_elem_of_here. }
  cbn [tree w] in H1, H2.
  split.
  - pose proof (create_ok self t c r rn f fn uri data meta true t) as H.
    cbv zeta in H. fold F in H. fold w in H. rewrite <-Hk in H. apply H; clear H.
    + exact (calm_world t c r rn f fn Hc).
    + done.
    + by rewrite andb_false_r.
    + by left.
    + by apply (walk_dir_noop _ _ _ k).
    + exact Hd2.
    + exact Hd1.
    + exact Hm3.
    + by rewrite H2.
    + by rewrite H1.
  - pose proof (created_object self t c r rn f fn uri data meta (S (S (S rn))) (10 + fn) t) as H.
    cbv zeta in H. fold F in H. rewrite <-Hk in H. apply H; clear H.
    + done.
    + done.
    + by rewrite <-app_assoc_s in Hd2.
    + exact Hd1.
    + exact Hm3.
    + by rewrite H2.
    + by rewrite H1.
Qed.

Lemma world_eta w :
  w = World (tree w) (cwd w) (rand w) (rand_next w) (io_fault w) (io_next w).
Proof. by destruct w. Qed.

(** C3: on a storage with an absolute root and a sound file tree, for
    a URI without [..], a well-formed [meta] and no I/O fault, where no
    object exists at the URI, [create_object uri data meta false]
    succeeds if the object's directory holds nothing, and whenever it
    succeeds [get_data uri] afterwards returns exactly [data] and
    [get_meta uri] returns exactly [meta]. *)
Theorem create_then_read self uri data meta w :
  let F := _object_path self uri in
  let res := create_object self uri data meta false w in
  posixpath.isabs (root_dir self) = true →
  sound (tree w) → no_dotdot F = true → calm w →
  is_Some (fs.mkdirs (tree w) [] (pystr.split "/" F)) →
  well_formed (VDict meta) = true →
  valid_object w F = false →
  (vacant w F → res.1 = Return F)
  ∧ (∀ p, res.1 = Return p →
       get_data self uri res.2 = (Return data, res.2)
       ∧ get_meta self uri res.2 = (Return (VDict meta), res.2)).
Proof.
  intros F res Hroot Hs Hp Hc [t1 Hm] Hwf Hnv.
  pose proof (object_path_abs self uri Hroot) as Ha. fold F in Ha.
  assert (vacant w F →
          res.1 = Return F
          ∧ get_data self uri res.2 = (Return data, res.2)
          ∧ get_meta self uri res.2 = (Return (VDict meta), res.2)) as Hok.
  { intros Hv. subst res. rewrite (world_eta w) in Hc, Hv |- *.
    destruct (create_fresh_ok self uri data meta false _ _ _ _ _ _ t1 Ha Hs Hp Hc Hm Hv)
      as [-> Ho].
    cbn [fst snd]. split_and!; [done|by eapply get_data_at|].
    rewrite (get_meta_at _ _ _ _ _ _ Ho). by rewrite decode_encode_meta. }
  split; [intros Hv; by apply Hok|].
  intros p Hret.
  destruct (dir_of w F) as [k|] eqn:Ed.
  - destruct (fs.entries (tree w) k) as [|n ns] eqn:Ee.
    + apply Hok. intros k' Hk'. by simplify_eq.
    + subst res. rewrite (create_occupied self uri data meta false w k) in Hret; try done.
      by rewrite Ee.
  - apply Hok. intros k' Hk'. congruence.
Qed.

(** C4: [create_object] on a URI that holds a valid object raises
    [AlreadyExists] when [overwrite_existing] is false; it raises
    [NonEmptyDirectory] when the directory has entries but holds no
    valid object; and with [overwrite_existing] true on a valid object
    it succeeds, after which [get_data] and [get_meta] return the new
    data and the new meta. *)
Theorem create_guards self uri data meta w :
  let F := _object_path self uri in
  (valid_object w F = true →
     create_object self uri data meta false w
     = (Raise (StorageException AlreadyExists), w))
  ∧ (∀ ow k, valid_object w F = false → dir_of w F = Some k → fs.entries (tree w) k ≠ [] →
       create_object self uri data meta ow w
       = (Raise (StorageException NonEmptyDirectory), w))
  ∧ (valid_object w F = true → calm w → fresh w F → well_formed (VDict meta) = true →
       let res := create_object self uri data meta true w in
       res.1 = Return F
       ∧ get_data self uri res.2 = (Return data, res.2)
       ∧ get_meta self uri res.2 = (Return (VDict meta), res.2)).
Proof.
  intros F. split_and!.
  - apply create_exists.
  - intros ow k. apply create_occupied.
  - intros Hv Hc Hf Hwf res. apply valid_object_inv in Hv as (k & d0 & m0 & Ho).
    subst res. rewrite (world_eta w) in Hc, Hf, Ho |- *.
    destruct (create_over_ok self uri data meta _ _ _ _ _ _ k d0 m0 Ho Hc Hf) as [-> Ho'].
    cbn [fst snd]. split_and!; [done|by eapply get_data_at|].
    rewrite (get_meta_at _ _ _ _ _ _ Ho'). by rewrite decode_encode_meta.
Qed.

(** ** Operations on what is not an object *)

Section Absent.
Variable self : FilesystemStorage.
Variables (uri : string) (w : world).
Hypothesis Hno : valid_object w (_object_path self uri) = false.

Lemma get_meta_absent : get_meta self uri w = (Raise (StorageException NotFound), w).
Proof. unfold get_meta. by rewrite bind_eq, object_exists_eq, Hno. Qed.

Lemma get_data_absent : get_data self uri w = (Raise (StorageException NotFound), w).
Proof. unfold get_data. by rewrite bind_eq, object_exists_eq, Hno. Qed.

Lemma get_detail_absent : get_detail self uri w = (Raise (StorageException NotFound), w).
Proof. unfold get_detail. by rewrite bind_eq, object_exists_eq, Hno. Qed.

Lemma update_meta_absent meta replace :
  update_meta self uri meta replace w = (Raise (StorageException NotFound), w).
Proof. unfold update_meta. by rewrite bind_eq, object_exists_eq, Hno. Qed.

Lemma update_data_absent data :
  update_data self uri data w = (Raise (StorageException NotFound), w).
Proof. unfold update_data. by rewrite bind_eq, object_exists_eq, Hno. Qed.

Lemma delete_object_absent :
  delete_object self uri w = (Raise (StorageException NotFound), w).
Proof.
  unfold delete_object. change (posixpath.join _ _) with (_object_path self uri).
  by rewrite bind_eq, object_exists_eq, Hno.
Qed.

End Absent.

(** C5: when the directory of a URI holds only one of the two files,
    the data without the meta or the meta without the data, each of
    [get_meta], [get_data], [get_detail], [update_meta], [update_data]
    and [delete_object] raises [NotFound] and leaves the world, and so
    every stored file, as it was. *)
Theorem half_object_not_found self uri w meta replace data :
  let F := _object_path self uri in
  (fs.isfile w (posixpath.join F "data") = true ∧ fs.isfile w (posixpath.join F "meta") = false)
  ∨ (fs.isfile w (posixpath.join F "meta") = true ∧ fs.isfile w (posixpath.join F "data") = false) →
  get_meta self uri w = (Raise (StorageException NotFound), w)
  ∧ get_data self uri w = (Raise (StorageException NotFound), w)
  ∧ get_detail self uri w = (Raise (StorageException NotFound), w)
  ∧ update_meta self uri meta replace w = (Raise (StorageException NotFound), w)
  ∧ update_data self uri data w = (Raise (StorageException NotFound), w)
  ∧ delete_object self uri w = (Raise (StorageException NotFound), w).
Proof.
  intros F H.
  assert (valid_object w F = false) as Hno.
  { unfold valid_object. destruct H as [[_ ->]|[_ ->]].
    - apply andb_false_r.
    - by rewrite andb_false_r. }
  split_and!.
  - by apply get_meta_absent.
  - by apply get_data_absent.
  - by apply get_detail_absent.
  - by apply update_meta_absent.
  - by apply update_data_absent.
  - by apply delete_object_absent.
Qed.

Lemma isfile_join w F nm :
  F ≠ "" → proper nm = true → fs.isfile w (posixpath.join F nm) = true →
  ∃ k v, dir_of w F = Some k ∧ tree w !! (nm :: k) = Some (File v).
Proof.
  intros HF Hp. unfold fs.isfile. rewrite lookup_join by done.
  destruct (dir_of w F) as [k|]; [|done]. cbn [mbind option_bind].
  destruct (tree w !! (nm :: k)) as [[v|]|] eqn:E; try done. by exists k, v.
Qed.

(** C2, as the code has it: when the directory of an object holds a
    committed meta file and no committed data file (whatever else it
    holds, such as a temporary data file), the object is reported as
    absent, and [create_object] for that URI, with or without
    overwriting, raises [NonEmptyDirectory] and changes nothing; nothing
    reclaims the temporary file. *)
Theorem interrupted_create_blocks self uri data meta ow w :
  let F := _object_path self uri in
  posixpath.isabs F = true →
  fs.isfile w (posixpath.join F "meta") = true →
  fs.isfile w (posixpath.join F "data") = false →
  valid_object w F = false
  ∧ get_data self uri w = (Raise (StorageException NotFound), w)
  ∧ get_meta self uri w = (Raise (StorageException NotFound), w)
  ∧ create_object self uri data meta ow w
    = (Raise (StorageException NonEmptyDirectory), w).
Proof.
  intros F Ha Hm Hd. pose proof (isabs_nonempty _ Ha) as HF.
  assert (valid_object w F = false) as Hno.
  { unfold valid_object. by rewrite Hd, andb_false_r. }
  split_and!; [done|by apply get_data_absent|by apply get_meta_absent|].
  destruct (isfile_join w F "meta" HF eq_refl Hm) as (k & v & Hk & Hv).
  apply (create_occupied self uri data meta ow w k Hno Hk).
  intros He. rewrite entries_nil in He. by rewrite He in Hv.
Qed.

(** ** Tags *)

Lemma dir_of_is_dir w F k : dir_of w F = Some k → fs.is_dir (tree w) k = true.
Proof.
  unfold dir_of. destruct (fs.resolve w F) as [k'|]; [|done]. cbn [mbind option_bind].
  destruct (fs.is_dir (tree w) k') eqn:E; [|done]. by intros [= <-].
Qed.

Lemma dir_of_same w w' F :
  cwd w' = cwd w → (∀ x, fs.is_dir (tree w') x = fs.is_dir (tree w) x) →
  dir_of w' F = dir_of w F.
Proof.
  intros Hc Hs. unfold dir_of, fs.resolve, fs.start. rewrite Hc, (walk_same _ _ _ _ Hs).
  destruct (bool_decide (F = "")); [done|].
  destruct (fs.walk _ _ _); [|done]. cbn [mbind option_bind]. by rewrite Hs.
Qed.

Lemma tag_object_ok self uri tag data t c r rn f fn k :
  let w := World t c r rn f fn in
  let F := _object_path self uri in
  F ≠ "" → proper tag = true → dir_of w F = Some k →
  t !! (tag :: k) ≠ Some Dir →
  f fn = None → f (S fn) = None →
  ∃ fn', tag_object self uri tag data w
         = (Return tt, World (<[tag :: k := File (tag_payload data)]> t) c r rn f fn').
Proof.
  intros w F HF Hp Hd Hn H1 H2. unfold tag_object. fold F.
  rewrite bind_eq. unfold builtins.open_write. rewrite bind_eq.
  unfold os.fault at 1. cbn [tree cwd rand rand_next io_fault io_next w]. rewrite H1.
  set (w1 := World t c r rn f (S fn)).
  assert (dir_of w1 F = Some k) as Hd1 by by rewrite <-Hd; apply dir_of_same.
  rewrite (resolve_join w1 F tag HF Hp), Hd1. cbn [mbind option_bind tree w1 tail].
  pose proof (dir_of_is_dir _ _ _ Hd) as Hk. cbn [tree w] in Hk.
  rewrite node_at_cons, Hk.
  assert (∀ o, match t !! (tag :: k) with
               | Some Dir => (Raise (OSError EISDIR), w1)
               | _ => o
               end = o) as -> by (intros o; by destruct (t !! (tag :: k)) as [[]|]).
  unfold with_tree. cbn [tree cwd rand rand_next io_fault io_next w1].
  destruct data as [d|]; cbn [tag_payload].
  - case_bool_decide as Hd0.
    + subst d. by eexists.
    + unfold builtins.write. rewrite bind_eq.
      unfold os.fault at 1. cbn [tree cwd rand rand_next io_fault io_next]. rewrite H2.
      unfold with_tree. cbn [tree cwd rand rand_next io_fault io_next].
      rewrite insert_insert_eq. by eexists.
  - by eexists.
Qed.

(** C10: [tag_object uri tag data] makes no existence check: whenever
    the resolved path is a directory and [tag] does not name a directory
    in it, it succeeds and the file named [tag] there holds exactly the
    given text, whatever it held before, with no temporary name drawn;
    without data, or with empty data, the file is left empty; and for
    the tags [data] and [meta] it is the object's data or meta file that
    is overwritten. *)
Theorem tag_object_overwrites self uri tag data w k :
  let F := _object_path self uri in
  let res := tag_object self uri tag data w in
  posixpath.isabs (root_dir self) = true →
  proper tag = true → dir_of w F = Some k →
  tree w !! (tag :: k) ≠ Some Dir →
  calm w →
  res.1 = Return tt
  ∧ tree res.2 = <[tag :: k := File (tag_payload data)]> (tree w)
  ∧ rand_next res.2 = rand_next w
  ∧ (data = None ∨ data = Some "" → tag_payload data = [])
  ∧ (∀ d m, object_at w F k d m →
       (tag = "data" → object_at res.2 F k (tag_payload data) m
                       ∧ get_data self uri res.2 = (Return (tag_payload data), res.2))
       ∧ (tag = "meta" → object_at res.2 F k d (tag_payload data))).
Proof.
  intros F res Hroot Hp Hd Hn Hc.
  pose proof (object_path_abs self uri Hroot) as Ha. fold F in Ha.
  pose proof (isabs_nonempty _ Ha) as HF.
  destruct w as [t c r rn f fn].
  destruct (tag_object_ok self uri tag data t c r rn f fn k HF Hp Hd Hn) as [fn' E].
  { apply Hc. simpl. lia. }
  { apply Hc. simpl. lia. }
  subst res. rewrite E. cbn [fst snd tree rand_next].
  assert (dir_of (World (<[tag :: k := File (tag_payload data)]> t) c r rn f fn') F = Some k)
    as Hd'.
  { rewrite <-Hd. apply dir_of_same; [done|]. intros x. cbn [tree].
    apply is_dir_insert_file; [by rewrite node_at_cons|done]. }
  split_and!; try done.
  - by intros [-> | ->].
  - intros d m (_ & _ & H1 & H2). cbn [tree] in H1, H2. split.
    + intros ->.
      assert (object_at (World (<["data" :: k := File (tag_payload data)]> t) c r rn f fn')
                F k (tag_payload data) m) as Ho.
      { split_and!; [done|done|..]; cbn [tree].
        - by rewrite lookup_insert_eq.
        - by rewrite lookup_insert_ne. }
      split; [done|]. by eapply get_data_at.
    + intros ->. split_and!; [done|done|..]; cbn [tree].
      * by rewrite lookup_insert_ne.
      * by rewrite lookup_insert_eq.
Qed.

(** ** Dictionaries *)

Lemma dict_get_set k k' v d :
  dict.get k (dict.set k' v d) = if String.eqb k k' then Some v else dict.get k d.
Proof.
  induction d as [|[k1 v1] d IH]; simpl.
  - by destruct (String.eqb k k').
  - destruct (String.eqb k' k1) eqn:E1; simpl.
    + apply String.eqb_eq in E1 as ->. by destruct (String.eqb k k1).
    + rewrite IH. destruct (String.eqb k k1) eqn:E2; [|done].
      apply String.eqb_eq in E2 as ->.
      rewrite String.eqb_sym in E1. by rewrite E1.
Qed.

Lemma dict_get_none k d : k ∉ map fst d → dict.get k d = None.
Proof.
  induction d as [|[k1 v1] d IH]; simpl; [done|].
  rewrite not_elem_of_cons. intros [Hne Hd].
  assert (String.eqb k k1 = false) as -> by by apply String.eqb_neq.
  by apply IH.
Qed.

(** [d.update(other)]: the keys of [other] override, the others stay. *)
Lemma dict_get_update k old new :
  NoDup (map fst new) →
  dict.get k (dict.update old new)
  = match dict.get k new with Some v => Some v | None => dict.get k old end.
Proof.
  unfold dict.update. revert old. induction new as [|[k1 v1] new IH]; intros old Hnd; simpl.
  - done.
  - apply NoDup_cons in Hnd as [Hk Hnd]. rewrite (IH _ Hnd), dict_get_set.
    destruct (String.eqb k k1) eqn:E.
    + apply String.eqb_eq in E as ->. by rewrite dict_get_none.
    + done.
Qed.

Lemma dict_set_keys k v d :
  map fst (dict.set k v d) = if bool_decide (k ∈ map fst d) then map fst d else map fst d ++ [k].
Proof.
  induction d as [|[k1 v1] d IH]; simpl; [done|].
  destruct (String.eqb k k1) eqn:E.
  - apply String.eqb_eq in E as ->. simpl. rewrite bool_decide_eq_true_2; [done|left].
  - apply String.eqb_neq in E. simpl. rewrite IH.
    destruct (bool_decide (k ∈ map fst d)) eqn:Eb.
    + apply bool_decide_eq_true in Eb. rewrite bool_decide_eq_true_2; [done|by right].
    + apply bool_decide_eq_false in Eb. rewrite bool_decide_eq_false_2; [done|].
      rewrite not_elem_of_cons. done.
Qed.

Lemma dict_set_nodup k v d : NoDup (map fst d) → NoDup (map fst (dict.set k v d)).
Proof.
  intros H. rewrite dict_set_keys. case_bool_decide as Hk; [done|].
  apply NoDup_app. split_and!; [done| |apply NoDup_singleton].
  intros x Hx ->%list_elem_of_singleton. done.
Qed.

Lemma dict_set_values (P : value → Prop) k v d :
  P v → Forall (λ kv, P kv.2) d → Forall (λ kv, P kv.2) (dict.set k v d).
Proof.
  intros Hv. induction 1 as [|[k1 v1] d H1 Hd IH]; simpl.
  - by repeat constructor.
  - destruct (String.eqb k k1); constructor; done.
Qed.

Lemma well_formed_dict_iff kvs :
  well_formed (VDict kvs) = true
  ↔ NoDup (map fst kvs) ∧ Forall (λ kv, well_formed kv.2 = true) kvs.
Proof.
  split; [apply well_formed_dict|]. intros [H1 H2]. cbn [well_formed].
  apply andb_true_iff. split; [by apply bool_decide_eq_true|].
  apply forallb_forall. intros x Hx. rewrite Forall_forall in H2.
  apply H2. by apply list_elem_of_In.
Qed.

Lemma well_formed_update old new :
  well_formed (VDict old) = true → well_formed (VDict new) = true →
  well_formed (VDict (dict.update old new)) = true.
Proof.
  rewrite !well_formed_dict_iff. intros Ho [_ Hn]. unfold dict.update.
  revert old Ho. induction Hn as [|[k v] new Hv Hn IH]; intros old [Ho1 Ho2]; simpl; [done|].
  apply IH. split; [by apply dict_set_nodup|].
  by apply (dict_set_values (λ x, well_formed x = true)).
Qed.

(** ** Rewriting the files of an object *)

Lemma write_meta_ok self uri content t c r rn f fn k d m :
  let w := World t c r rn f fn in
  let F := _object_path self uri in
  object_at w F k d m → calm w → unused w F (temp_name w 0 "meta") →
  ∃ t', _write (posixpath.join F "meta") content w
        = (Return tt, World t' c r (S rn) f (S (S (S (S (S fn))))))
        ∧ object_at (World t' c r (S rn) f (S (S (S (S (S fn)))))) F k d content.
Proof.
  intros w F (Ha & Hd & H1 & H2) Hc Hu. pose proof (isabs_nonempty _ Ha) as HF.
  cbn [tree w] in H1, H2.
  pose proof Hd as Hwd. unfold w in Hwd. rewrite dir_of_world in Hwd by done.
  pose proof (walk_dir_loc _ _ _ _ Hwd) as Hk.
  assert (proper (temp_name w 0 "meta") = true) as Hp by by apply temp_proper.
  assert (t !! (temp_name w 0 "meta" :: k) = None) as Hnone.
  { unfold unused in Hu. rewrite lookup_join in Hu by done. by rewrite Hd in Hu. }
  exists (<["meta" :: k := File content]> (delete (temp_name w 0 "meta" :: k) t)).
  split.
  - pose proof (write_join_ok t c r rn f fn F "meta" content t
                  (calm_world _ _ _ _ _ _ Hc) HF eq_refl) as H.
    cbv zeta in H. rewrite <-Hk in H. apply H.
    + by apply (walk_dir_noop _ _ _ k).
    + rewrite node_at_cons. unfold temp_name in Hnone. cbn [rand rand_next w Nat.add] in Hnone.
      by rewrite Hnone.
    + by rewrite node_at_cons, H2.
  - split_and!; [done| |cbn [tree]..].
    + rewrite <-Hd. apply dir_of_same; [done|]. intros x. cbn [tree w].
      apply same_dirs_step; [by rewrite node_at_cons, H2|by rewrite node_at_cons, Hnone|done].
    + rewrite lookup_insert_ne by (by intros [=]).
      rewrite lookup_delete_ne; [done|]. unfold temp_name. by intros [=].
    + by rewrite lookup_insert_eq.
Qed.

(** C6: on an existing object with stored meta [old], [update_meta]
    with [replace] false stores the merge of [new] into [old], where
    each key of [new] takes the value [new] gives it and every other key
    keeps the value of [old]; with [replace] true it stores exactly
    [new].  So [{"a": 1}] updated with [{"b": 2}] gives
    [{"a": 1, "b": 2}] without replacing and [{"b": 2}] with it. *)
Theorem update_meta_merges self uri old new w :
  let F := _object_path self uri in
  valid_object w F = true →
  (get_meta self uri w).1 = Return (VDict old) →
  well_formed (VDict old) = true → well_formed (VDict new) = true →
  calm w → unused w F (temp_name w 0 "meta") →
  (let res := update_meta self uri new false w in
   res.1 = Return tt
   ∧ (get_meta self uri res.2).1 = Return (VDict (dict.update old new)))
  ∧ (let res := update_meta self uri new true w in
     res.1 = Return tt ∧ (get_meta self uri res.2).1 = Return (VDict new))
  ∧ (∀ k, dict.get k (dict.update old new)
          = match dict.get k new with Some v => Some v | None => dict.get k old end)
  ∧ dict.update [("a", VInt 1)] [("b", VInt 2)] = [("a", VInt 1); ("b", VInt 2)].
Proof.
  intros F Hv Hget Hwo Hwn Hc Hu.
  pose proof Hv as Hv'. apply valid_object_inv in Hv' as (k & d & m & Ho).
  rewrite (get_meta_at _ _ _ _ _ _ Ho) in Hget. cbn [fst] in Hget.
  destruct w as [t c r rn f fn].
  split_and!.
  - intros res. subst res F. unfold update_meta.
    rewrite bind_eq, object_exists_eq, Hv. cbn [negb].
    rewrite bind_eq, (get_meta_at _ _ _ _ _ _ Ho), Hget. cbv beta iota.
    destruct (write_meta_ok self uri (_encode_meta (dict.update old new))
                t c r rn f fn k d m Ho Hc Hu) as (t' & -> & Ho').
    cbn [fst snd]. split; [done|].
    rewrite (get_meta_at _ _ _ _ _ _ Ho'). cbn [fst].
    apply decode_encode_meta. by apply well_formed_update.
  - intros res. subst res F. unfold update_meta.
    rewrite bind_eq, object_exists_eq, Hv. cbn [negb].
    destruct (write_meta_ok self uri (_encode_meta new)
                t c r rn f fn k d m Ho Hc Hu) as (t' & -> & Ho').
    cbn [fst snd]. split; [done|].
    rewrite (get_meta_at _ _ _ _ _ _ Ho'). cbn [fst].
    by apply decode_encode_meta.
  - intros key. apply dict_get_update. by apply well_formed_dict in Hwn as [? _].
  - reflexivity.
Qed.

(** ** Listing *)

Lemma for_each_listed self path without_tag w names acc :
  let dir := _object_path self path in
  for_each names
    (λ result name,
       let obj_dir := posixpath.join dir name in
       ex ← _object_exists obj_dir;
       if (ex : bool) then
         tagged ← match without_tag with
                  | None => ret false
                  | Some tag =>
                      if bool_decide (tag = "") then ret false
                      else os.path_exists (posixpath.join obj_dir tag)
                  end;
         if negb tagged then ret (result ++ [posixpath.join path name])
         else ret result
       else ret result)
    acc w
  = (Return (acc ++ map (posixpath.join path) (List.filter (listed w dir without_tag) names)), w).
Proof.
  intros dir. revert acc. induction names as [|name names IH]; intros acc.
  - cbn [for_each List.filter map]. by rewrite app_nil_r.
  - cbn [for_each List.filter]. rewrite bind_eq. cbv zeta.
    rewrite bind_eq, object_exists_eq. unfold listed at 1.
    destruct (valid_object w (posixpath.join dir name)); cbn [andb].
    + rewrite bind_eq.
      assert (match without_tag with
              | None => ret false
              | Some tag =>
                  if bool_decide (tag = "") then ret false
                  else os.path_exists (posixpath.join (posixpath.join dir name) tag)
              end w = (Return (tagged w (posixpath.join dir name) without_tag), w)) as ->.
      { unfold tagged. destruct without_tag as [tag|]; [|done]. by case_bool_decide. }
      destruct (tagged w (posixpath.join dir name) without_tag); cbn [negb].
      * unfold ret at 1. by rewrite IH.
      * unfold ret at 1. rewrite IH. cbn [map]. by rewrite <-app_assoc.
    + unfold ret at 1. by rewrite IH.
Qed.

(** C9: [list_objects path without_tag] raises [InvalidPath] when the
    resolved path is not a directory; otherwise it changes nothing and
    returns [path] joined with the name of exactly those immediate
    entries of the directory that are valid objects, skipping the
    others, and, when a tag is given, leaving out every valid object
    whose directory has an entry named after the tag. *)
Theorem list_objects_lists self path without_tag w :
  let dir := _object_path self path in
  (fs.isdir w dir = false →
     list_objects self path without_tag w = (Raise (StorageException InvalidPath), w))
  ∧ (fs.isdir w dir = true →
       ∃ k, dir_of w dir = Some k
            ∧ list_objects self path without_tag w
              = (Return (map (posixpath.join path)
                           (List.filter (listed w dir without_tag) (fs.entries (tree w) k))), w)
            ∧ (∀ name, In name (List.filter (listed w dir without_tag) (fs.entries (tree w) k))
                 ↔ is_Some (tree w !! (name :: k))
                   ∧ valid_object w (posixpath.join dir name) = true
                   ∧ tagged w (posixpath.join dir name) without_tag = false)).
Proof.
  intros dir. split.
  - intros H. unfold list_objects. rewrite bind_eq. unfold os.path_isdir, os.gets.
    fold dir. by rewrite H.
  - intros H. pose proof H as Hd. unfold fs.isdir in Hd.
    destruct (fs.lookup_path w dir) as [[]|] eqn:El; try done.
    pose proof El as Hk. apply lookup_dir in Hk as [k Hk]. exists k. split_and!; [done| |].
    + unfold list_objects. rewrite bind_eq. unfold os.path_isdir, os.gets.
      fold dir. rewrite H. cbn [negb]. rewrite bind_eq. unfold os.scandir, os.listdir.
      unfold dir_of in Hk. unfold fs.lookup_path in El.
      destruct (fs.resolve w dir) as [k'|]; [|done]. cbn [mbind option_bind] in *.
      rewrite El. destruct (fs.is_dir (tree w) k'); [|done]. injection Hk as ->.
      by rewrite (for_each_listed self path without_tag w).
    + intros name. rewrite filter_In, <-list_elem_of_In, elem_of_entries.
      unfold listed. rewrite andb_true_iff, negb_true_iff. tauto.
Qed.

(** ** Failure of the atomic write *)

Lemma same_but_refl k t : same_but k t t.
Proof. by split. Qed.

Lemma same_but_insert k t t' v :
  same_but k t t' → fs.node_at t' k ≠ Some Dir → k ≠ [] →
  same_but k t (<[k := File v]> t').
Proof.
  intros [H1 H2] Hk Hne. split.
  - intros x Hx. rewrite lookup_insert_ne by done. by apply H1.
  - intros x. rewrite is_dir_insert_file by done. apply H2.
Qed.

Lemma same_but_delete k t t' :
  same_but k t t' → fs.node_at t' k ≠ Some Dir → same_but k t (delete k t').
Proof.
  intros [H1 H2] Hk. split.
  - intros x Hx. rewrite lookup_delete_ne by done. by apply H1.
  - intros x. rewrite is_dir_delete_file by done. apply H2.
Qed.

Lemma fault_eq w :
  os.fault w = (Return (io_fault w (io_next w)),
                World (tree w) (cwd w) (rand w) (rand_next w) (io_fault w) (S (io_next w))).
Proof. done. Qed.

Lemma ret_eq {A} (a : A) w : ret a w = (Return a, w).
Proof. done. Qed.

Section WriteFailure.
Variables (P u : string) (content : list byte) (cs0 : list string) (nm : string).
Variables (t0 : gmap (list string) node) (c : list string).
Hypothesis HP : pystr.split "/" P = cs0 ++ [nm].
Hypothesis Hnm : proper nm = true.
Hypothesis Hplain : plain cs0.
Hypothesis Hsound : sound t0.
Hypothesis Hu : pystr.mem "/" ("_" +:+ u) = false.
Hypothesis Hnmu : proper (nm +:+ "_" +:+ u) = true.
Hypothesis Hneq : nm +:+ "_" +:+ u ≠ nm.

Let k0 : list string := if posixpath.isabs P then [] else c.
Let kD := loc k0 cs0.
Let ktmp := (nm +:+ "_" +:+ u) :: kD.
Let tgt := nm :: kD.

Lemma wf_nonempty : P ≠ "".
Proof. apply (split_nonempty _ _ _ HP). by apply proper_spec in Hnm as [? _]. Qed.

Lemma wf_split_tmp : pystr.split "/" (P +:+ "_" +:+ u) = cs0 ++ [nm +:+ "_" +:+ u].
Proof. by apply (split_app_nosep _ _ _ _ _ HP). Qed.

Lemma wf_resolve_tmp w :
  cwd w = c → fs.resolve w (P +:+ "_" +:+ u) = fs.walk (tree w) k0 (cs0 ++ [nm +:+ "_" +:+ u]).
Proof.
  intros Hc. rewrite resolve_nonempty by (intros ?%string_app_nil; by apply wf_nonempty).
  rewrite (start_temp _ _ _ wf_nonempty), wf_split_tmp. unfold fs.start. by rewrite Hc.
Qed.

Lemma wf_resolve_tgt w :
  cwd w = c → fs.resolve w P = fs.walk (tree w) k0 (cs0 ++ [nm]).
Proof.
  intros Hc. rewrite resolve_nonempty by apply wf_nonempty.
  unfold fs.start. by rewrite HP, Hc.
Qed.

Lemma wf_walk_tmp t k : fs.walk t k0 (cs0 ++ [nm +:+ "_" +:+ u]) = Some k → k = ktmp.
Proof.
  intros ->%walk_loc. rewrite loc_app. unfold loc at 1. cbn [fold_left].
  by rewrite (step_proper _ _ Hnmu).
Qed.

Lemma wf_walk_tgt t k : fs.walk t k0 (cs0 ++ [nm]) = Some k → k = tgt.
Proof.
  intros ->%walk_loc. rewrite loc_app. unfold loc at 1. cbn [fold_left].
  by rewrite (step_proper _ _ Hnm).
Qed.

Lemma wf_walk_made tb name :
  fs.mkdirs t0 k0 cs0 = Some tb → proper name = true →
  fs.walk tb k0 (cs0 ++ [name]) = Some (name :: kD).
Proof.
  intros Hmk Hn. destruct (mkdirs_walk _ _ _ _ Hmk) as [Hw Hd]. fold kD in Hw, Hd.
  rewrite walk_app, Hw. cbn [mbind option_bind fs.walk].
  by rewrite Hd, (step_proper _ _ Hn).
Qed.

Lemma wf_ne : ktmp ≠ tgt.
Proof. intros [= E]. by apply Hneq. Qed.

(** What the target path names is the same in every tree the write can
    leave behind before its last step. *)
Lemma wf_target tb t' :
  made k0 cs0 t0 tb → same_but ktmp tb t' →
  fs.walk t' k0 (cs0 ++ [nm]) ≫= fs.node_at t'
  = fs.walk t0 k0 (cs0 ++ [nm]) ≫= fs.node_at t0.
Proof.
  intros Hm [H1 H2].
  assert (fs.walk t' k0 (cs0 ++ [nm]) ≫= fs.node_at t'
          = fs.walk tb k0 (cs0 ++ [nm]) ≫= fs.node_at tb) as ->.
  { rewrite (walk_same _ _ _ _ H2).
    destruct (fs.walk tb k0 (cs0 ++ [nm])) as [k|] eqn:E; [|done].
    apply wf_walk_tgt in E as ->. cbn [mbind option_bind]. unfold tgt.
    rewrite !node_at_cons. apply H1. apply not_eq_sym, wf_ne. }
  destruct Hm as [->|Hmk]; [done|].
  rewrite (wf_walk_made _ _ Hmk Hnm). cbn [mbind option_bind]. rewrite node_at_cons.
  rewrite (mkdirs_frame _ _ _ _ Hplain Hmk).
  2:{ fold kD. intros Hs%suffix_length. simpl in Hs. lia. }
  destruct (fs.is_dir t0 kD) eqn:Ed.
  - rewrite walk_app, (sound_walk _ _ _ Hsound Hplain Ed). fold kD.
    cbn [mbind option_bind fs.walk]. by rewrite Ed, (step_proper _ _ Hnm).
  - assert (t0 !! (nm :: kD) = None) as ->.
    { destruct (t0 !! (nm :: kD)) eqn:E; [|done].
      rewrite (Hsound nm kD) in Ed; [done|by eexists]. }
    rewrite walk_app. destruct (fs.walk t0 k0 cs0) as [k|] eqn:E; [|done].
    apply walk_loc in E as ->. fold kD. cbn [mbind option_bind fs.walk]. by rewrite Ed.
Qed.

Lemma wf_lookup w tb :
  cwd w = c → made k0 cs0 t0 tb → same_but ktmp tb (tree w) →
  fs.lookup_path w P = fs.walk t0 k0 (cs0 ++ [nm]) ≫= fs.node_at t0.
Proof.
  intros Hc Hm Hs. unfold fs.lookup_path. rewrite (wf_resolve_tgt _ Hc).
  by apply (wf_target tb).
Qed.

(** The state the guarded block of [_write] leaves. *)
Let write_try_post (o : outcome unit) (w1 : world) : Prop :=
  cwd w1 = c
  ∧ ((∃ e, o = Raise e) ∧ (∃ tb, made k0 cs0 t0 tb ∧ same_but ktmp tb (tree w1))
     ∨ o = Return tt
       ∧ ∃ tb, fs.mkdirs t0 k0 cs0 = Some tb ∧ fs.node_at tb ktmp ≠ Some Dir
               ∧ tree w1 = <[ktmp := File content]> tb).

Lemma write_try_cases w :
  tree w = t0 → cwd w = c →
  write_try_post (_write_try P (P +:+ "_" +:+ u) content w).1
                 (_write_try P (P +:+ "_" +:+ u) content w).2.
Proof.
  intros Ht Hc. destruct w as [t c' r rn f fn]. cbn [tree cwd] in Ht, Hc. subst t c'.
  unfold _write_try. rewrite bind_eq. unfold pathlib.mkdir_parents. rewrite bind_eq, fault_eq.
  cbn [tree cwd rand rand_next io_fault io_next].
  destruct (f fn).
  { split; [done|]. left. split; [by eexists|]. exists t0. split; [by left|apply same_but_refl]. }
  rewrite start_dirname, mkdirs_strip, (dirname_split _ _ _ HP), <-mkdirs_strip.
  unfold fs.start. cbn [tree cwd]. fold k0.
  destruct (fs.mkdirs t0 k0 cs0) as [tb|] eqn:Hmk.
  2:{ split; [done|]. left. split; [by eexists|]. exists t0. split; [by left|apply same_but_refl]. }
  unfold with_tree. cbn [tree cwd rand rand_next io_fault io_next].
  rewrite bind_eq. unfold builtins.open_write. rewrite bind_eq, fault_eq.
  cbn [tree cwd rand rand_next io_fault io_next].
  destruct (f (S fn)).
  { split; [done|]. left. split; [by eexists|]. exists tb. split; [by right|apply same_but_refl]. }
  rewrite wf_resolve_tmp by done. cbn [tree]. rewrite (wf_walk_made _ _ Hmk Hnmu). fold ktmp.
  destruct (mkdirs_walk _ _ _ _ Hmk) as [_ HkD]. fold kD in HkD.
  assert (fs.is_dir tb (tail ktmp) = true) as -> by done.
  assert (ktmp ≠ []) as Hk0 by done.
  assert (∀ o w1,
    (∃ e, o = Raise e) → cwd w1 = c → fs.node_at tb ktmp ≠ Some Dir →
    (tree w1 = tb ∨ ∃ v, tree w1 = <[ktmp := File v]> tb) →
    write_try_post o w1) as Hfail.
  { intros o w1 Ho Hc1 Hn Htr. split; [done|]. left. split; [done|]. exists tb. split; [by right|].
    destruct Htr as [->|[v ->]]; [apply same_but_refl|].
    apply same_but_insert; [apply same_but_refl|done|done]. }
  destruct (fs.node_at tb ktmp) as [[v|]|] eqn:Entmp.
  2:{ split; [done|]. left. split; [by eexists|]. exists tb. split; [by right|apply same_but_refl]. }
  all: unfold with_tree; cbn [tree cwd rand rand_next io_fault io_next].
  all: rewrite bind_eq; unfold builtins.write; rewrite bind_eq, fault_eq.
  all: cbn [tree cwd rand rand_next io_fault io_next].
  all: destruct (f (S (S fn)));
    [ rewrite bind_eq; unfold with_tree; cbn [tree cwd rand rand_next io_fault io_next];
      rewrite insert_insert_eq; apply Hfail; [by eexists|done|done|right; by eexists] |].
  all: unfold with_tree; cbn [tree cwd rand rand_next io_fault io_next].
  all: rewrite insert_insert_eq.
  all: rewrite bind_eq; unfold builtins.flush; rewrite bind_eq, fault_eq.
  all: cbn [tree cwd rand rand_next io_fault io_next].
  all: destruct (f (S (S (S fn))));
    [ apply Hfail; [by eexists|done|done|right; by eexists] |].
  all: rewrite ret_eq.
  all: unfold os.fsync; rewrite bind_eq, fault_eq.
  all: cbn [tree cwd rand rand_next io_fault io_next].
  all: destruct (f (S (S (S (S fn)))));
    [ apply Hfail; [by eexists|done|done|right; by eexists] |].
  all: rewrite ret_eq; cbn [fst snd tree cwd].
  all: split; [done|]; right; split; [done|]; exists tb.
  all: split_and!; [done|by rewrite Entmp|done].
Qed.

(** The handler of [_write]: the temporary file goes, if there is one. *)
Lemma write_handler w1 tb :
  cwd w1 = c → made k0 cs0 t0 tb → same_but ktmp tb (tree w1) →
  let h := (isf ← os.path_isfile (P +:+ "_" +:+ u);
            when isf (os.remove (P +:+ "_" +:+ u));;
            raise (StorageException WriteFailed) : IO unit) w1 in
  h.1 = Raise (StorageException WriteFailed)
  ∧ fs.isfile h.2 (P +:+ "_" +:+ u) = false
  ∧ cwd h.2 = c
  ∧ same_but ktmp tb (tree h.2).
Proof.
  intros Hc Hm Hs h. subst h. rewrite bind_eq. unfold os.path_isfile, os.gets.
  destruct (fs.isfile w1 (P +:+ "_" +:+ u)) eqn:Ei; unfold when.
  - rewrite bind_eq. unfold os.remove.
    unfold fs.isfile, fs.lookup_path in Ei. rewrite wf_resolve_tmp in * by done.
    destruct (fs.walk (tree w1) k0 (cs0 ++ [nm +:+ "_" +:+ u])) as [k|] eqn:Ew; [|done].
    pose proof (wf_walk_tmp _ _ Ew) as ->. cbn [mbind option_bind] in Ei.
    destruct (fs.node_at (tree w1) ktmp) as [[v|]|] eqn:En; try done.
    unfold raise, with_tree. cbn [fst snd].
    assert (same_but ktmp tb (delete ktmp (tree w1))) as Hs'.
    { apply same_but_delete; [done|by rewrite En]. }
    split_and!; [done| |done|done].
    unfold fs.isfile, fs.lookup_path. rewrite wf_resolve_tmp by done. cbn [tree].
    destruct (fs.walk (delete ktmp (tree w1)) k0 (cs0 ++ [nm +:+ "_" +:+ u])) as [k|] eqn:Ew';
      [|done].
    pose proof (wf_walk_tmp _ _ Ew') as ->. cbn [mbind option_bind].
    unfold ktmp. by rewrite node_at_cons, lookup_delete_eq.
  - rewrite bind_eq. unfold ret at 1. unfold raise. cbn [fst snd]. done.
Qed.

Lemma write_outcome w :
  tree w = t0 → cwd w = c →
  let blk := _write_try P (P +:+ "_" +:+ u) content w in
  let res := (try_except (_write_try P (P +:+ "_" +:+ u) content)
                (λ e, isf ← os.path_isfile (P +:+ "_" +:+ u);
                      when isf (os.remove (P +:+ "_" +:+ u));;
                      raise (StorageException WriteFailed));;
              ex ← os.path_exists (P +:+ "_" +:+ u);
              when ex (os.rename (P +:+ "_" +:+ u) P)) w in
  ((∃ e, blk.1 = Raise e) →
     res.1 = Raise (StorageException WriteFailed)
     ∧ fs.isfile res.2 (P +:+ "_" +:+ u) = false
     ∧ fs.lookup_path res.2 P = fs.lookup_path w P)
  ∧ ((∃ e, res.1 = Raise e) → fs.lookup_path res.2 P = fs.lookup_path w P)
  ∧ (res.1 = Return tt → fs.lookup_path res.2 P = Some (File content)).
Proof.
  intros Ht Hc blk res.
  assert (fs.lookup_path w P = fs.walk t0 k0 (cs0 ++ [nm]) ≫= fs.node_at t0) as Hw0.
  { apply (wf_lookup w t0 Hc); [by left|rewrite Ht; apply same_but_refl]. }
  pose proof (write_try_cases w Ht Hc) as [Hc1 Hpost]. fold blk in Hc1, Hpost.
  subst res. rewrite bind_eq. unfold try_except. fold blk.
  destruct blk as [o w1]. cbn [fst snd] in *.
  destruct Hpost as [[[e ->] (tb & Hm & Hs)]|(-> & tb & Hmk & Hn & Htr)].
  - destruct (write_handler w1 tb Hc1 Hm Hs) as (H1 & H2 & H3 & H4).
    cbv zeta in H1, H2, H3, H4. cbv beta iota.
    destruct ((isf ← os.path_isfile (P +:+ "_" +:+ u);
               when isf (os.remove (P +:+ "_" +:+ u));;
               raise (StorageException WriteFailed) : IO unit) w1) as [o2 w2].
    cbn [fst snd] in *. subst o2. cbn [fst snd].
    rewrite Hw0, (wf_lookup w2 tb H3 Hm H4). by split_and!; intros.
  - assert (same_but ktmp tb (tree w1)) as Hs.
    { rewrite Htr. apply same_but_insert; [apply same_but_refl|done|done]. }
    assert (fs.walk (tree w1) k0 (cs0 ++ [nm +:+ "_" +:+ u]) = Some ktmp) as Hwt.
    { rewrite (walk_same tb) by apply Hs. by apply wf_walk_made. }
    assert (fs.walk (tree w1) k0 (cs0 ++ [nm]) = Some tgt) as Hwg.
    { rewrite (walk_same tb) by apply Hs. by apply wf_walk_made. }
    assert (fs.node_at (tree w1) ktmp = Some (File content)) as Hnt.
    { rewrite Htr. unfold ktmp. by rewrite node_at_cons, lookup_insert_eq. }
    rewrite bind_eq. unfold os.path_exists, os.gets, fs.exists_, fs.lookup_path.
    rewrite wf_resolve_tmp by done. rewrite Hwt. cbn [mbind option_bind]. rewrite Hnt.
    unfold when, os.rename. cbv zeta.
    rewrite wf_resolve_tmp, wf_resolve_tgt by done. rewrite Hwt, Hwg, Hnt.
    split; [by intros [? [=]]|].
    destruct (mkdirs_walk _ _ _ _ Hmk) as [_ HkD]. fold kD in HkD.
    assert (fs.is_dir (tree w1) (tail tgt) = true) as ->.
    { destruct Hs as [_ ->]. done. }
    cbn [negb]. rewrite (bool_decide_eq_false_2 _ wf_ne).
    assert (fs.lookup_path w1 P = fs.lookup_path w P) as Hsame.
    { rewrite Hw0. apply (wf_lookup w1 tb Hc1); [by right|done]. }
    destruct (fs.node_at (tree w1) tgt) as [[v|]|] eqn:Eg; cbn [fst snd].
    2:{ split; [done|]. intros [=]. }
    all: split; [by intros [? [=]]|intros _].
    all: unfold fs.lookup_path, with_tree; rewrite wf_resolve_tgt by done; cbn [tree].
    all: rewrite (walk_same (tree w1)), Hwg;
      [ cbn [mbind option_bind]; unfold tgt; by rewrite node_at_cons, lookup_insert_eq |].
    all: apply same_dirs_step; [by rewrite Eg|by rewrite Hnt|done].
Qed.

End WriteFailure.

(** C8: for a path that names an entry of a directory in a sound file
    tree, when a step of [_write] before the rename fails, [_write]
    raises [WriteFailed], the temporary file is not there afterwards,
    and the target path names what it named before the call; whenever
    [_write] raises, the target is as it was, and when it returns the
    target holds the new content: only the rename changes it. *)
Theorem write_failure_is_clean path content w cs nm :
  let tmp_path := path +:+ "_" +:+ uuid.str (uuid.v4 (rand w (rand_next w))) in
  let res := _write path content w in
  sound (tree w) → pystr.split "/" path = cs ++ [nm] → proper nm = true → plain cs →
  ((∃ e, (_write_try path tmp_path content (uuid.uuid4 w).2).1 = Raise e) →
     res.1 = Raise (StorageException WriteFailed)
     ∧ fs.isfile res.2 tmp_path = false
     ∧ fs.lookup_path res.2 path = fs.lookup_path w path)
  ∧ ((∃ e, res.1 = Raise e) → fs.lookup_path res.2 path = fs.lookup_path w path)
  ∧ (res.1 = Return tt → fs.lookup_path res.2 path = Some (File content)).
Proof.
  intros tmp_path res Hs Hp Hnm Hpl.
  pose proof (write_outcome path (uuid.str (uuid.v4 (rand w (rand_next w)))) content cs nm
                (tree w) (cwd w) Hp Hnm Hpl Hs) as H.
  specialize (H (uuid_str_noslash _) (temp_proper _ _ Hnm) (temp_neq _ _)).
  specialize (H (uuid.uuid4 w).2 eq_refl eq_refl). cbv zeta in H.
  assert (fs.lookup_path (uuid.uuid4 w).2 path = fs.lookup_path w path) as E by done.
  rewrite E in H. exact H.
Qed.

(** ** The checks that compute *)

Lemma sound_check_sound t : sound_check t = true → sound t.
Proof.
  unfold sound_check. rewrite forallb_forall. intros H n k [v Hv].
  apply (H (n :: k, v)). apply list_elem_of_In. by apply elem_of_map_to_list.
Qed.

Lemma fresh_check_fresh w p : fresh_check w p = true → fresh w p.
Proof.
  unfold fresh_check. rewrite forallb_forall. intros H nm Hin%list_elem_of_In.
  apply H in Hin. unfold unused. unfold fs.exists_ in Hin.
  by destruct (fs.lookup_path w (posixpath.join p nm)).
Qed.

Lemma vacant_check_vacant w p : vacant_check w p = true → vacant w p.
Proof.
  unfold vacant_check. intros H k Hk. rewrite Hk in H.
  by destruct (fs.entries (tree w) k).
Qed.

Lemma quiet_calm t c r rn fn : calm (World t c r rn demo.quiet fn).
Proof. by intros i _. Qed.

(** ** Path resolution *)

(** C1: the object path is the storage root joined with the URI from
    whose left every character of the URI root is stripped, which is not
    the removal of the URI root as one prefix: for the root [/jobs/] the
    URI [/jobs/job1] resolves to [/data/1], not to [/data/job1]. *)
Theorem object_path_strips_characters :
  _object_path demo.jobs "/jobs/job1" = "/data/1"
  ∧ prefix_object_path demo.jobs "/jobs/job1" = "/data/job1"
  ∧ _object_path demo.jobs "/jobs/job1" ≠ prefix_object_path demo.jobs "/jobs/job1".
Proof. split_and!; [reflexivity|reflexivity|discriminate]. Qed.

(** ** The two shapes of the metadata *)

Lemma startswith_quote c s :
  pystr.startswith (String dquote "") (String c s) = Ascii.eqb c dquote.
Proof. cbn [pystr.startswith]. rewrite Ascii.eqb_sym. by destruct (Ascii.eqb c dquote). Qed.

(** C7: decoding accepts both shapes of the metadata and they agree:
    the legacy, string-wrapped encoding of a mapping and its direct
    encoding both decode to that mapping; and the legacy branch is the
    one taken exactly when the decoded text starts with a double quote. *)
Theorem decode_meta_shapes_agree meta :
  well_formed (VDict meta) = true →
  _decode_meta (legacy_encode_meta meta) = Return (VDict meta)
  ∧ _decode_meta (_encode_meta meta) = Return (VDict meta)
  ∧ _decode_meta (legacy_encode_meta meta) = _decode_meta (_encode_meta meta)
  ∧ (∀ data s, utf8.decode data = Return s →
       _decode_meta data
       = match s with
         | String c _ =>
             if Ascii.eqb c dquote then
               match json.loads s with
               | Return (VStr t) => ast.literal_eval t
               | Return _ => Raise LiteralError
               | Raise e => Raise e
               end
             else json.loads s
         | "" => json.loads s
         end).
Proof.
  intros H.
  pose proof (decode_legacy_meta meta H) as H1.
  pose proof (decode_encode_meta meta H) as H2.
  split_and!; [done|done|by rewrite H1, H2|].
  intros data s E. unfold _decode_meta. rewrite E.
  destruct s as [|c s]; [done|]. by rewrite startswith_quote.
Qed.

(** ** The properties on sample worlds *)

(** C2, as it is stated, fails: in the world [demo.interrupted] the
    directory [/s/o] holds the committed metadata and the surviving
    temporary data file, and no data file.  The object is reported as
    absent, but [create_object], with or without overwriting, raises
    [NonEmptyDirectory] and leaves every file where it was. *)
Lemma interrupted_create_is_not_reclaimed :
  fs.isfile demo.interrupted "/s/o/meta" = true
  ∧ fs.isfile demo.interrupted "/s/o/data_6fa459ea-ee8a-4ca4-894e-db77e160355e" = true
  ∧ fs.isfile demo.interrupted "/s/o/data" = false
  ∧ valid_object demo.interrupted (_object_path demo.store "/o") = false
  ∧ create_object demo.store "/o" demo.hi demo.meta1 false demo.interrupted
    = (Raise (StorageException NonEmptyDirectory), demo.interrupted)
  ∧ create_object demo.store "/o" demo.hi demo.meta1 true demo.interrupted
    = (Raise (StorageException NonEmptyDirectory), demo.interrupted).
Proof. split_and!; vm_compute; reflexivity. Qed.

Lemma interrupted_create_blocks_witness :
  valid_object demo.interrupted (_object_path demo.store "/o") = false
  ∧ create_object demo.store "/o" demo.hi demo.meta1 true demo.interrupted
    = (Raise (StorageException NonEmptyDirectory), demo.interrupted).
Proof.
  destruct (interrupted_create_blocks demo.store "/o" demo.hi demo.meta1 true demo.interrupted)
    as (H1 & _ & _ & H4); [reflexivity..|].
  split; [exact H1|exact H4].
Defined.

Lemma create_then_read_witness :
  let res := create_object demo.store "/o" demo.hi demo.meta1 false demo.blank in
  res.1 = Return "/s/o"
  ∧ get_data demo.store "/o" res.2 = (Return demo.hi, res.2)
  ∧ get_meta demo.store "/o" res.2 = (Return (VDict demo.meta1), res.2).
Proof.
  intros res.
  destruct (create_then_read demo.store "/o" demo.hi demo.meta1 demo.blank) as [H1 H2].
  - reflexivity.
  - apply sound_check_sound. reflexivity.
  - reflexivity.
  - apply quiet_calm.
  - vm_compute. eexists. reflexivity.
  - reflexivity.
  - reflexivity.
  - assert (res.1 = Return "/s/o") as E.
    { apply H1, vacant_check_vacant. reflexivity. }
    split; [exact E|exact (H2 "/s/o" E)].
Defined.

Lemma create_guards_witness :
  create_object demo.store "/o" demo.hi demo.meta2 false demo.stored
  = (Raise (StorageException AlreadyExists), demo.stored)
  ∧ create_object demo.store "/o" demo.hi demo.meta2 false demo.interrupted
    = (Raise (StorageException NonEmptyDirectory), demo.interrupted)
  ∧ (let res := create_object demo.store "/o" [x79] demo.meta2 true demo.stored in
     res.1 = Return "/s/o"
     ∧ get_data demo.store "/o" res.2 = (Return [x79], res.2)
     ∧ get_meta demo.store "/o" res.2 = (Return (VDict demo.meta2), res.2)).
Proof.
  split_and!.
  - apply (proj1 (create_guards demo.store "/o" demo.hi demo.meta2 demo.stored)). reflexivity.
  - apply (proj1 (proj2 (create_guards demo.store "/o" demo.hi demo.meta2 demo.interrupted))
             false ["o"; "s"]).
    + reflexivity.
    + vm_compute. reflexivity.
    + vm_compute. discriminate.
  - apply (proj2 (proj2 (create_guards demo.store "/o" [x79] demo.meta2 demo.stored))).
    + reflexivity.
    + apply quiet_calm.
    + apply fresh_check_fresh. vm_compute. reflexivity.
    + reflexivity.
Defined.

Lemma half_object_not_found_witness :
  get_data demo.store "/o" demo.data_only = (Raise (StorageException NotFound), demo.data_only)
  ∧ delete_object demo.store "/o" demo.data_only
    = (Raise (StorageException NotFound), demo.data_only).
Proof.
  destruct (half_object_not_found demo.store "/o" demo.data_only demo.meta1 false demo.hi)
    as (_ & H2 & _ & _ & _ & H6).
  - left. split; reflexivity.
  - split; [exact H2|exact H6].
Defined.

Lemma update_meta_merges_witness :
  (get_meta demo.store "/o" (update_meta demo.store "/o" demo.meta2 false demo.stored).2).1
  = Return (VDict [("a", VInt 1); ("b", VInt 2)])
  ∧ (get_meta demo.store "/o" (update_meta demo.store "/o" demo.meta2 true demo.stored).2).1
    = Return (VDict [("b", VInt 2)]).
Proof.
  destruct (update_meta_merges demo.store "/o" demo.meta1 demo.meta2 demo.stored)
    as (H1 & H2 & _ & _).
  - reflexivity.
  - vm_compute. reflexivity.
  - reflexivity.
  - reflexivity.
  - apply quiet_calm.
  - unfold unused. vm_compute. reflexivity.
  - split; [exact (proj2 H1)|exact (proj2 H2)].
Defined.

Lemma decode_meta_shapes_agree_witness :
  _decode_meta (legacy_encode_meta demo.meta1) = _decode_meta (_encode_meta demo.meta1).
Proof. exact (proj1 (proj2 (proj2 (decode_meta_shapes_agree demo.meta1 eq_refl)))). Defined.

Lemma write_failure_is_clean_witness :
  let res := _write "/d/f" demo.hi demo.failing in
  res.1 = Raise (StorageException WriteFailed)
  ∧ fs.isfile res.2 ("/d/f" +:+ "_" +:+ uuid.str (uuid.v4 (demo.draws 0))) = false
  ∧ fs.lookup_path res.2 "/d/f" = fs.lookup_path demo.failing "/d/f".
Proof.
  intros res.
  destruct (write_failure_is_clean "/d/f" demo.hi demo.failing [""; "d"] "f") as [H _].
  - apply sound_check_sound. reflexivity.
  - reflexivity.
  - reflexivity.
  - unfold plain. apply (bool_decide_unpack _). vm_compute. exact I.
  - apply H. eexists. vm_compute. reflexivity.
Defined.

Lemma list_objects_lists_witness :
  list_objects demo.store "/" (Some "done") demo.shelf = (Return ["/o"], demo.shelf)
  ∧ list_objects demo.store "/" None demo.shelf = (Return ["/p"; "/o"], demo.shelf)
  ∧ list_objects demo.store "/f" None demo.shelf
    = (Raise (StorageException InvalidPath), demo.shelf).
Proof.
  split_and!.
  - destruct (proj2 (list_objects_lists demo.store "/" (Some "done") demo.shelf) eq_refl)
      as (k & Hk & E & _).
    vm_compute in Hk. injection Hk as <-. rewrite E. vm_compute. reflexivity.
  - destruct (proj2 (list_objects_lists demo.store "/" None demo.shelf) eq_refl)
      as (k & Hk & E & _).
    vm_compute in Hk. injection Hk as <-. rewrite E. vm_compute. reflexivity.
  - apply (proj1 (list_objects_lists demo.store "/f" None demo.shelf)). reflexivity.
Defined.

Lemma tag_object_overwrites_witness :
  let res := tag_object demo.store "/o" "meta" None demo.stored in
  res.1 = Return tt
  ∧ tree res.2 = <["meta" :: ["o"; "s"] := File []]> (tree demo.stored).
Proof.
  intros res.
  destruct (tag_object_overwrites demo.store "/o" "meta" None demo.stored ["o"; "s"])
    as (H1 & H2 & _).
  - reflexivity.
  - reflexivity.
  - vm_compute. reflexivity.
  - vm_compute. discriminate.
  - apply quiet_calm.
  - split; [exact H1|exact H2].
Defined.

(* ===================================================================== *)
(** * Part III: further properties of the storage                         *)
(* ===================================================================== *)

(** ** Reading changes nothing *)

Lemma read_world p w : (_read p w).2 = w.
Proof.
  unfold _read, try_except, builtins.read_bytes.
  by destruct (fs.lookup_path w p) as [[]|].
Qed.

Lemma get_data_world self uri w : (get_data self uri w).2 = w.
Proof.
  unfold get_data. rewrite bind_eq, object_exists_eq.
  destruct (valid_object w (_object_path self uri)); [|done]. apply read_world.
Qed.

Lemma get_meta_world self uri w : (get_meta self uri w).2 = w.
Proof.
  unfold get_meta. rewrite bind_eq, object_exists_eq.
  destruct (valid_object w (_object_path self uri)); [|done]. cbn [negb].
  rewrite bind_eq. pose proof (read_world (posixpath.join (_object_path self uri) "meta") w) as H.
  destruct (_read (posixpath.join (_object_path self uri) "meta") w) as [[raw|e] w'].
  - exact H.
  - exact H.
Qed.

Lemma get_detail_eq self uri w :
  get_detail self uri w
  = (match (get_meta self uri w).1, (get_data self uri w).1 with
     | Return m, Return d => Return (m, d)
     | Return _, Raise e => Raise e
     | Raise e, _ => Raise e
     end, w).
Proof.
  unfold get_detail. rewrite bind_eq, object_exists_eq.
  destruct (valid_object w (_object_path self uri)) eqn:Hv; cbn [negb].
  - rewrite bind_eq. pose proof (get_meta_world self uri w) as Hm.
    destruct (get_meta self uri w) as [[m|e] wm]; cbn [fst snd] in *; subst wm; [|done].
    rewrite bind_eq. pose proof (get_data_world self uri w) as Hd.
    destruct (get_data self uri w) as [[d|e] wd]; cbn [fst snd] in *; by subst wd.
  - by rewrite (get_meta_absent self uri w Hv).
Qed.

Lemma list_objects_nodir self path without_tag w :
  fs.isdir w (_object_path self path) = false →
  list_objects self path without_tag w = (Raise (StorageException InvalidPath), w).
Proof.
  intros H. unfold list_objects. rewrite bind_eq. unfold os.path_isdir, os.gets. by rewrite H.
Qed.

Lemma list_objects_dir self path without_tag w k :
  dir_of w (_object_path self path) = Some k →
  list_objects self path without_tag w
  = (Return (map (posixpath.join path)
               (List.filter (listed w (_object_path self path) without_tag)
                            (fs.entries (tree w) k))), w).
Proof.
  intros Hk. pose proof (dir_of_is_dir _ _ _ Hk) as Hd.
  unfold dir_of in Hk.
  destruct (fs.resolve w (_object_path self path)) as [k'|] eqn:Er; [|done].
  cbn [mbind option_bind] in Hk.
  destruct (fs.is_dir (tree w) k') eqn:Ed; [|done]. injection Hk as ->.
  assert (fs.node_at (tree w) k = Some Dir) as Hn.
  { unfold fs.is_dir in Ed. by destruct (fs.node_at (tree w) k) as [[]|]. }
  unfold list_objects. rewrite bind_eq. unfold os.path_isdir, os.gets, fs.isdir, fs.lookup_path.
  rewrite Er. cbn [mbind option_bind]. rewrite Hn. cbn [negb].
  rewrite bind_eq. unfold os.scandir, os.listdir. rewrite Er, Hn.
  by rewrite (for_each_listed self path without_tag w).
Qed.

(** X1: reading changes nothing: whatever they return, [_read],
    [_object_exists], [get_meta], [get_data], [get_detail] and
    [list_objects] leave the world, and so the file system, exactly as
    it was. *)
Theorem reads_change_nothing self uri path without_tag p w :
  (_read p w).2 = w
  ∧ (_object_exists p w).2 = w
  ∧ (get_meta self uri w).2 = w
  ∧ (get_data self uri w).2 = w
  ∧ (get_detail self uri w).2 = w
  ∧ (list_objects self path without_tag w).2 = w.
Proof.
  split_and!.
  - apply read_world.
  - by rewrite object_exists_eq.
  - apply get_meta_world.
  - apply get_data_world.
  - by rewrite get_detail_eq.
  - destruct (fs.isdir w (_object_path self path)) eqn:E.
    + unfold fs.isdir in E.
      destruct (fs.lookup_path w (_object_path self path)) as [[]|] eqn:El; try done.
      apply lookup_dir in El as [k Hk]. by rewrite (list_objects_dir _ _ _ _ k).
    + by rewrite list_objects_nodir.
Qed.

(** ** What the reads return *)

(** X2: on every existing object [get_data] returns the content of
    the object's data file, [get_meta] the decoding of its meta file,
    and [get_detail] the pair of the two, meta first, failing exactly
    when the meta does not decode. *)
Theorem reads_of_an_object self uri w :
  let F := _object_path self uri in
  valid_object w F = true →
  ∃ d m, fs.lookup_path w (posixpath.join F "data") = Some (File d)
         ∧ fs.lookup_path w (posixpath.join F "meta") = Some (File m)
         ∧ get_data self uri w = (Return d, w)
         ∧ get_meta self uri w = (_decode_meta m, w)
         ∧ get_detail self uri w
           = (match _decode_meta m with
              | Return v => Return (v, d)
              | Raise e => Raise e
              end, w).
Proof.
  intros F Hv. pose proof Hv as (k & d & m & Ho)%valid_object_inv.
  pose proof (get_data_at self uri w k d m Ho) as Hd.
  pose proof (get_meta_at self uri w k d m Ho) as Hm.
  destruct Ho as (Ha & Hk & H1 & H2). pose proof (isabs_nonempty _ Ha) as HF.
  exists d, m. split_and!.
  - by rewrite lookup_join, Hk.
  - by rewrite lookup_join, Hk.
  - exact Hd.
  - exact Hm.
  - rewrite get_detail_eq, Hm, Hd. cbn [fst]. by destruct (_decode_meta m).
Qed.

(** ** The shapes the atomic write leaves *)

Section WriteShape.
Variables (P u : string) (content : list byte) (cs0 : list string) (nm : string).
Variables (t0 : gmap (list string) node) (c : list string).
Hypothesis HP : pystr.split "/" P = cs0 ++ [nm].
Hypothesis Hnm : proper nm = true.
Hypothesis Hu : pystr.mem "/" ("_" +:+ u) = false.
Hypothesis Hnmu : proper (nm +:+ "_" +:+ u) = true.
Hypothesis Hneq : nm +:+ "_" +:+ u ≠ nm.

Let k0 : list string := if posixpath.isabs P then [] else c.
Let kD := loc k0 cs0.
Let ktmp := (nm +:+ "_" +:+ u) :: kD.
Let tgt := nm :: kD.

(** [_write] after the draw of its temporary name ends in one of three
    ways: the guarded block failed and the handler ran; the block went
    through and the rename failed; or the rename went through. *)
Lemma write_shape w :
  tree w = t0 → cwd w = c →
  let res := (try_except (_write_try P (P +:+ "_" +:+ u) content)
                (λ e, isf ← os.path_isfile (P +:+ "_" +:+ u);
                      when isf (os.remove (P +:+ "_" +:+ u));;
                      raise (StorageException WriteFailed));;
              ex ← os.path_exists (P +:+ "_" +:+ u);
              when ex (os.rename (P +:+ "_" +:+ u) P)) w in
  cwd res.2 = c
  ∧ ((res.1 = Raise (StorageException WriteFailed)
      ∧ fs.isfile res.2 (P +:+ "_" +:+ u) = false
      ∧ ∃ tb, made k0 cs0 t0 tb ∧ same_but ktmp tb (tree res.2))
     ∨ ((∃ e, res.1 = Raise (OSError e))
        ∧ ∃ tb, fs.mkdirs t0 k0 cs0 = Some tb ∧ fs.node_at tb ktmp ≠ Some Dir
                ∧ fs.node_at tb tgt = Some Dir
                ∧ tree res.2 = <[ktmp := File content]> tb)
     ∨ (res.1 = Return tt
        ∧ ∃ tb, fs.mkdirs t0 k0 cs0 = Some tb ∧ fs.node_at tb ktmp ≠ Some Dir
                ∧ fs.node_at tb tgt ≠ Some Dir
                ∧ tree res.2 = <[tgt := File content]> (delete ktmp tb))).
Proof.
  intros Ht Hc res.
  pose proof (write_try_cases P u content cs0 nm t0 c HP Hnm Hu Hnmu w Ht Hc) as [Hc1 Hpost].
  subst res. rewrite bind_eq. unfold try_except.
  destruct (_write_try P (P +:+ "_" +:+ u) content w) as [o w1]. cbn [fst snd] in *.
  fold k0 in Hpost. fold kD in Hpost. fold ktmp in Hpost.
  destruct Hpost as [[[e ->] (tb & Hm & Hs)]|(-> & tb & Hmk & Hn & Htr)].
  - destruct (write_handler P u cs0 nm t0 c HP Hnm Hu Hnmu w1 tb Hc1 Hm Hs)
      as (H1 & H2 & H3 & H4).
    cbv zeta in H1, H2, H3, H4. cbv beta iota.
    destruct ((isf ← os.path_isfile (P +:+ "_" +:+ u);
               when isf (os.remove (P +:+ "_" +:+ u));;
               raise (StorageException WriteFailed) : IO unit) w1) as [o2 w2].
    cbn [fst snd] in *. subst o2. cbn [fst snd].
    split; [done|]. left. split_and!; [done|done|]. by exists tb.
  - assert (ktmp ≠ []) as Hk0 by done.
    assert (same_but ktmp tb (tree w1)) as Hs.
    { rewrite Htr. apply same_but_insert; [apply same_but_refl|done|done]. }
    assert (fs.walk (tree w1) k0 (cs0 ++ [nm +:+ "_" +:+ u]) = Some ktmp) as Hwt.
    { rewrite (walk_same tb) by apply Hs. by apply (wf_walk_made P cs0 t0 c). }
    assert (fs.walk (tree w1) k0 (cs0 ++ [nm]) = Some tgt) as Hwg.
    { rewrite (walk_same tb) by apply Hs. by apply (wf_walk_made P cs0 t0 c). }
    assert (fs.node_at (tree w1) ktmp = Some (File content)) as Hnt.
    { rewrite Htr. unfold ktmp. by rewrite node_at_cons, lookup_insert_eq. }
    assert (ktmp ≠ tgt) as Hne by (intros [= E]; by apply Hneq).
    rewrite bind_eq. unfold os.path_exists, os.gets, fs.exists_, fs.lookup_path.
    rewrite (wf_resolve_tmp P u cs0 nm c HP Hnm Hu w1 Hc1). fold k0.
    rewrite Hwt. cbn [mbind option_bind]. rewrite Hnt.
    unfold when, os.rename. cbv zeta.
    rewrite (wf_resolve_tmp P u cs0 nm c HP Hnm Hu w1 Hc1),
            (wf_resolve_tgt P cs0 nm c HP Hnm w1 Hc1). fold k0.
    rewrite Hwt, Hwg, Hnt.
    destruct (mkdirs_walk _ _ _ _ Hmk) as [_ HkD]. fold kD in HkD.
    assert (fs.is_dir (tree w1) (tail tgt) = true) as ->.
    { destruct Hs as [_ ->]. done. }
    cbn [negb]. rewrite (bool_decide_eq_false_2 _ Hne).
    assert (fs.node_at (tree w1) tgt = fs.node_at tb tgt) as Hg.
    { unfold tgt. rewrite !node_at_cons. apply Hs. by apply not_eq_sym. }
    destruct (fs.node_at (tree w1) tgt) as [[v|]|] eqn:Eg; cbn [fst snd].
    2:{ split; [done|]. right. left. split; [by eexists|]. exists tb.
        split_and!; [done|done|by rewrite <-Hg|done]. }
    all: split; [done|]; right; right; split; [done|]; exists tb.
    all: split_and!; [done|done|by rewrite <-Hg|].
    all: unfold with_tree; cbn [tree]; by rewrite Htr, delete_insert_eq.
Qed.

End WriteShape.

(** [_write] of the entry [nm] of an existing directory, whatever
    faults strike: directories stay what they are, nothing but the
    entry and the temporary name changes, and the entry changes only to
    the new content. *)
Lemma write_in_dir w F k nm content :
  let res := _write (posixpath.join F nm) content w in
  let tmp := nm +:+ "_" +:+ uuid.str (uuid.v4 (rand w (rand_next w))) in
  F ≠ "" → proper nm = true → dir_of w F = Some k →
  cwd res.2 = cwd w
  ∧ (∀ x, fs.is_dir (tree res.2) x = fs.is_dir (tree w) x)
  ∧ (∀ x, x ≠ tmp :: k → x ≠ nm :: k → tree res.2 !! x = tree w !! x)
  ∧ ((∃ e, res.1 = Raise e) → tree res.2 !! (nm :: k) = tree w !! (nm :: k))
  ∧ (res.1 = Return tt →
       tree res.2 !! (nm :: k) = Some (File content) ∧ tree res.2 !! (tmp :: k) = None)
  ∧ (tree w !! (nm :: k) ≠ Some Dir → tree w !! (tmp :: k) = None →
     tree res.2 !! (tmp :: k) = None).
Proof.
  intros res tmp HF Hnm Hd. pose proof Hd as Hd0.
  destruct (join_comps F nm HF Hnm) as (cs & Hsp & Hloc & Hmk & Hwd & Habs).
  rewrite dir_of_walk in Hd by done. unfold fs.start in Hd.
  rewrite <-Habs, <-Hwd in Hd.
  pose proof (walk_dir_loc _ _ _ _ Hd) as Hk.
  pose proof (walk_dir_noop _ _ _ _ Hd) as Hnoop.
  pose proof (write_shape (posixpath.join F nm) (uuid.str (uuid.v4 (rand w (rand_next w))))
                content cs nm (tree w) (cwd w) Hsp Hnm (uuid_str_noslash _)
                (temp_proper _ _ Hnm) (temp_neq _ _) (uuid.uuid4 w).2 eq_refl eq_refl) as H.
  cbv zeta in H. rewrite <-Hk in H. fold tmp in H.
  change ((try_except _ _ ≫= _) (uuid.uuid4 w).2) with res in H.
  destruct H as [Hc H]. split; [exact Hc|].
  assert (tmp :: k ≠ nm :: k) as Hne by (intros [= E]; by apply temp_neq in E).
  destruct H as [(Hr & Hnf & tb & Hm & Hs)|[([e Hr] & tb & Hm & Hn & Hg & Ht)
                                            |(Hr & tb & Hm & Hn & Hg & Ht)]].
  - assert (tb = tree w) as -> by (destruct Hm as [->|Hm]; [done|congruence]).
    destruct Hs as [Hs1 Hs2]. split_and!.
    + exact Hs2.
    + intros x Hx _. by apply Hs1.
    + intros _. apply Hs1. by apply not_eq_sym.
    + rewrite Hr. intros [=].
    + intros _ Hnone.
      assert (dir_of res.2 F = Some k) as Hd' by (rewrite <-Hd0; by apply dir_of_same).
      unfold fs.isfile in Hnf. rewrite <-(join_app F nm) in Hnf.
      2:{ by apply proper_spec in Hnm as [? _]. }
      rewrite lookup_join, Hd' in Hnf by (done || by apply temp_proper).
      cbn [mbind option_bind] in Hnf. fold tmp in Hnf.
      destruct (tree res.2 !! (tmp :: k)) as [[]|] eqn:E; [done| |done].
      specialize (Hs2 (tmp :: k)). unfold fs.is_dir in Hs2.
      by rewrite !node_at_cons, E, Hnone in Hs2.
  - assert (tb = tree w) as -> by congruence. rewrite Ht. split_and!.
    + intros x. by apply is_dir_insert_file.
    + intros x Hx _. by rewrite lookup_insert_ne.
    + intros _. by rewrite lookup_insert_ne.
    + rewrite Hr. intros [=].
    + intros Hnd _. by rewrite node_at_cons in Hg.
  - assert (tb = tree w) as -> by congruence. rewrite Ht. split_and!.
    + by apply same_dirs_step.
    + intros x Hx Hx'. rewrite lookup_insert_ne by done. by rewrite lookup_delete_ne.
    + rewrite Hr. by intros [? [=]].
    + intros _. split; [by rewrite lookup_insert_eq|].
      rewrite lookup_insert_ne by (by apply not_eq_sym). by rewrite lookup_delete_eq.
    + intros _ _. rewrite lookup_insert_ne by (by apply not_eq_sym).
      by rewrite lookup_delete_eq.
Qed.

(** ** Updates of one file of an object *)

Lemma object_at_frame w w' F k d m d' m' :
  object_at w F k d m → cwd w' = cwd w →
  (∀ x, fs.is_dir (tree w') x = fs.is_dir (tree w) x) →
  tree w' !! ("data" :: k) = Some (File d') → tree w' !! ("meta" :: k) = Some (File m') →
  object_at w' F k d' m'.
Proof.
  intros (Ha & Hd & _ & _) Hc Hs H1 H2. split_and!; try done.
  rewrite <-Hd. by apply dir_of_same.
Qed.

(** The entry [nm] of an object, written anew: the object is still
    there, and of its two files only the one named [nm] can differ. *)
Lemma write_entry w F k d m nm content :
  let res := _write (posixpath.join F nm) content w in
  object_at w F k d m → nm = "data" ∨ nm = "meta" →
  ∃ d' m', object_at res.2 F k d' m'
    ∧ (nm = "data" → m' = m) ∧ (nm = "meta" → d' = d)
    ∧ ((∃ e, res.1 = Raise e) → d' = d ∧ m' = m)
    ∧ (res.1 = Return tt → (nm = "data" → d' = content) ∧ (nm = "meta" → m' = content)).
Proof.
  intros res Ho Hnm. pose proof Ho as (Ha & Hd & H1 & H2).
  pose proof (isabs_nonempty _ Ha) as HF.
  assert (proper nm = true) as Hp by (by destruct Hnm as [->| ->]).
  destruct (write_in_dir w F k nm content HF Hp Hd) as (Hc & Hs & Hfr & Hfail & Hok & _).
  fold res in Hc, Hs, Hfr, Hfail, Hok.
  set (tmp := nm +:+ "_" +:+ uuid.str (uuid.v4 (rand w (rand_next w)))) in *.
  destruct res.1 as [[]|e] eqn:Er.
  - destruct (Hok eq_refl) as [Hg _]. destruct Hnm as [-> | ->].
    + exists content, m. split_and!; try done; try (by intros [=]); try (by intros [? [=]]).
      apply (object_at_frame w _ F k d m); try done.
      rewrite Hfr; [done| |done]. apply not_eq_sym. unfold tmp. by intros [=].
    + exists d, content. split_and!; try done; try (by intros [=]); try (by intros [? [=]]).
      apply (object_at_frame w _ F k d m); try done.
      rewrite Hfr; [done| |done]. apply not_eq_sym. unfold tmp. by intros [=].
  - exists d, m. split_and!; try done.
    apply (object_at_frame w _ F k d m); try done.
    + destruct Hnm as [-> | ->].
      * rewrite Hfail by by eexists. done.
      * rewrite Hfr; [done| |done]. apply not_eq_sym. unfold tmp. by intros [=].
    + destruct Hnm as [-> | ->].
      * rewrite Hfr; [done| |done]. apply not_eq_sym. unfold tmp. by intros [=].
      * rewrite Hfail by by eexists. done.
Qed.

(** With no fault and the temporary name free, the write goes through. *)
Lemma write_entry_returns w F k d m nm content :
  object_at w F k d m → nm = "data" ∨ nm = "meta" →
  calm w → unused w F (temp_name w 0 nm) →
  (_write (posixpath.join F nm) content w).1 = Return tt.
Proof.
  intros (Ha & Hd & H1 & H2) Hnm Hc Hu. pose proof (isabs_nonempty _ Ha) as HF.
  assert (proper nm = true) as Hp by (by destruct Hnm as [->| ->]).
  destruct w as [t c r rn f fn]. cbn [tree] in H1, H2.
  pose proof Hd as Hwd. rewrite dir_of_world in Hwd by done.
  pose proof (walk_dir_loc _ _ _ _ Hwd) as Hk.
  assert (t !! (temp_name (World t c r rn f fn) 0 nm :: k) = None) as Hnone.
  { unfold unused in Hu. rewrite lookup_join in Hu by (done || by apply temp_proper).
    by rewrite Hd in Hu. }
  pose proof (write_join_ok t c r rn f fn F nm content t
                (calm_world _ _ _ _ _ _ Hc) HF Hp) as H.
  cbv zeta in H. rewrite <-Hk in H. rewrite H; [done| | |].
  - by apply (walk_dir_noop _ _ _ k).
  - rewrite node_at_cons. unfold temp_name in Hnone. cbn [rand rand_next Nat.add] in Hnone.
    by rewrite Hnone.
  - rewrite node_at_cons. destruct Hnm as [-> | ->]; by rewrite ?H1, ?H2.
Qed.

(** X3: [update_data] on an existing object never changes what
    [get_meta] returns; when it returns, [get_data] returns the new
    data; when it raises, whatever failed, [get_data] returns what it
    returned before; and with no I/O fault and the temporary name free
    it returns. *)
Theorem update_data_replaces self uri data w :
  let F := _object_path self uri in
  let res := update_data self uri data w in
  valid_object w F = true →
  (get_meta self uri res.2).1 = (get_meta self uri w).1
  ∧ ((∃ e, res.1 = Raise e) → (get_data self uri res.2).1 = (get_data self uri w).1)
  ∧ (res.1 = Return tt → get_data self uri res.2 = (Return data, res.2))
  ∧ (calm w → unused w F (temp_name w 0 "data") → res.1 = Return tt).
Proof.
  intros F res Hv. pose proof Hv as (k & d & m & Ho)%valid_object_inv.
  assert (res = _write (posixpath.join F "data") data w) as Hres.
  { unfold res, update_data. fold F. by rewrite bind_eq, object_exists_eq, Hv. }
  destruct (write_entry w F k d m "data" data Ho (or_introl eq_refl))
    as (d' & m' & Ho' & Hm & _ & Hfail & Hok).
  rewrite <-Hres in Ho', Hfail, Hok. specialize (Hm eq_refl). subst m'.
  split_and!.
  - by rewrite (get_meta_at self uri _ k d' m Ho'), (get_meta_at self uri _ k d m Ho).
  - intros He. destruct (Hfail He) as [-> _].
    by rewrite (get_data_at self uri _ k d m Ho'), (get_data_at self uri _ k d m Ho).
  - intros Hr. destruct (Hok Hr) as [Hd _]. rewrite (Hd eq_refl) in Ho'.
    by apply (get_data_at self uri _ k data m).
  - intros Hc Hu. rewrite Hres.
    by apply (write_entry_returns w F k d m "data" data Ho (or_introl eq_refl)).
Qed.

(** X4: [update_meta] on an existing object, merging or replacing and
    whatever fails, never changes what [get_data] returns; and when it
    raises, [get_meta] returns what it returned before. *)
Theorem update_meta_keeps_data self uri new replace w :
  let F := _object_path self uri in
  let res := update_meta self uri new replace w in
  valid_object w F = true →
  (get_data self uri res.2).1 = (get_data self uri w).1
  ∧ ((∃ e, res.1 = Raise e) → (get_meta self uri res.2).1 = (get_meta self uri w).1).
Proof.
  intros F res Hv. pose proof Hv as (k & d & m & Ho)%valid_object_inv.
  assert (res.2 = w
          ∨ ∃ content, res = _write (posixpath.join F "meta") content w) as [Hw|[content Hres]].
  { unfold res, update_meta. fold F. rewrite bind_eq, object_exists_eq, Hv. cbn [negb].
    destruct replace; [right; by eexists|].
    rewrite bind_eq, (get_meta_at self uri w k d m Ho).
    destruct (_decode_meta m) as [[| | | | |items]|e]; try (by left).
    right. by eexists. }
  - by rewrite Hw.
  - destruct (write_entry w F k d m "meta" content Ho (or_intror eq_refl))
      as (d' & m' & Ho' & _ & Hd & Hfail & _).
    rewrite <-Hres in Ho', Hfail. specialize (Hd eq_refl). subst d'.
    split.
    + by rewrite (get_data_at self uri _ k d m' Ho'), (get_data_at self uri _ k d m Ho).
    + intros He. destruct (Hfail He) as [_ ->].
      by rewrite (get_meta_at self uri _ k d m Ho'), (get_meta_at self uri _ k d m Ho).
Qed.

(** ** Deleting an object *)

Lemma remove_subtree_lookup t k x :
  fs.remove_subtree t k !! x = if bool_decide (k `suffix_of` x) then None else t !! x.
Proof.
  unfold fs.remove_subtree. case_bool_decide as H.
  - apply map_lookup_filter_None. right. intros v _. simpl. by intros Hn.
  - destruct (t !! x) as [v|] eqn:E.
    + apply map_lookup_filter_Some. by split.
    + apply map_lookup_filter_None. by left.
Qed.

Lemma remove_subtree_sound t k : sound t → sound (fs.remove_subtree t k).
Proof.
  intros Hs n k' Hn. rewrite remove_subtree_lookup in Hn.
  case_bool_decide as Hsuf; [by destruct Hn|].
  apply Hs in Hn. unfold fs.is_dir, fs.node_at in *.
  destruct k' as [|n' k']; [done|]. rewrite remove_subtree_lookup.
  rewrite bool_decide_eq_false_2; [done|].
  intros H. apply Hsuf. by apply suffix_cons_r.
Qed.

Lemma dir_of_resolve w F k :
  dir_of w F = Some k → fs.resolve w F = Some k ∧ fs.node_at (tree w) k = Some Dir.
Proof.
  unfold dir_of. destruct (fs.resolve w F) as [k'|]; [|done]. cbn [mbind option_bind].
  destruct (fs.is_dir (tree w) k') eqn:E; [|done]. intros [= ->]. split; [done|].
  unfold fs.is_dir in E. by destruct (fs.node_at (tree w) k) as [[]|].
Qed.

Lemma resolve_loc w F k : fs.resolve w F = Some k → k = loc (fs.start w F) (pystr.split "/" F).
Proof.
  unfold fs.resolve. case_bool_decide; [done|]. apply walk_loc.
Qed.

(** X5: [delete_object] on an existing object, not the root of the
    file system, returns the object's path and removes the object's
    directory with everything below it, tags included, and nothing
    else; afterwards the path does not exist, [get_data] and [get_meta]
    raise [NotFound], and a sound file tree is still sound. *)
Theorem delete_object_removes self uri w k :
  let F := _object_path self uri in
  let res := delete_object self uri w in
  valid_object w F = true → dir_of w F = Some k → k ≠ [] →
  res.1 = Return F
  ∧ (∀ x, k `suffix_of` x → tree res.2 !! x = None)
  ∧ (∀ x, ¬ k `suffix_of` x → tree res.2 !! x = tree w !! x)
  ∧ fs.exists_ res.2 F = false
  ∧ valid_object res.2 F = false
  ∧ get_data self uri res.2 = (Raise (StorageException NotFound), res.2)
  ∧ get_meta self uri res.2 = (Raise (StorageException NotFound), res.2)
  ∧ (sound (tree w) → sound (tree res.2)).
Proof.
  intros F res Hv Hd Hk. destruct (dir_of_resolve _ _ _ Hd) as [Hr Hn].
  assert (res = (Return F, with_tree (fs.remove_subtree (tree w) k) w)) as Hres.
  { unfold res, delete_object. change (posixpath.join _ _) with F.
    rewrite bind_eq, object_exists_eq, Hv. cbn [negb]. rewrite bind_eq.
    unfold shutil.rmtree. rewrite Hr, Hn. by rewrite bool_decide_eq_false_2. }
  rewrite Hres. cbn [fst snd]. unfold with_tree at 1 2 3. cbn [tree].
  assert (fs.exists_ (with_tree (fs.remove_subtree (tree w) k) w) F = false) as Hex.
  { unfold fs.exists_, fs.lookup_path.
    destruct (fs.resolve (with_tree (fs.remove_subtree (tree w) k) w) F) as [k'|] eqn:Er;
      [|done].
    apply resolve_loc in Er. apply resolve_loc in Hr.
    assert (k' = k) as -> by (by rewrite Er, Hr).
    cbn [mbind option_bind]. destruct k as [|n k]; [done|].
    rewrite node_at_cons. unfold with_tree. cbn [tree].
    rewrite remove_subtree_lookup. by rewrite bool_decide_eq_true_2. }
  assert (valid_object (with_tree (fs.remove_subtree (tree w) k) w) F = false) as Hno.
  { unfold valid_object, fs.isdir. unfold fs.exists_ in Hex.
    destruct (fs.lookup_path _ F); [done|]. by rewrite andb_false_r. }
  split_and!.
  - done.
  - intros x Hx. rewrite remove_subtree_lookup. by rewrite bool_decide_eq_true_2.
  - intros x Hx. rewrite remove_subtree_lookup. by rewrite bool_decide_eq_false_2.
  - exact Hex.
  - exact Hno.
  - by apply get_data_absent.
  - by apply get_meta_absent.
  - apply remove_subtree_sound.
Qed.

(** ** Listing, tags and new objects *)

Lemma dir_of_join w F name k :
  F ≠ "" → proper name = true → dir_of w F = Some k →
  dir_of w (posixpath.join F name)
  = if fs.is_dir (tree w) (name :: k) then Some (name :: k) else None.
Proof.
  intros HF Hp Hd. unfold dir_of at 1. rewrite (resolve_join _ _ _ HF Hp), Hd. done.
Qed.

(** What [_object_exists] finds at the entry [name] of a directory, in
    terms of the file tree. *)
Lemma valid_object_child w dir name k :
  dir ≠ "" → proper name = true → dir_of w dir = Some k →
  valid_object w (posixpath.join dir name)
  = posixpath.isabs dir && fs.is_dir (tree w) (name :: k)
    && fs.is_file (tree w) ("data" :: name :: k) && fs.is_file (tree w) ("meta" :: name :: k).
Proof.
  intros HF Hp Hd. unfold valid_object.
  destruct (join_comps dir name HF Hp) as (_ & _ & _ & _ & _ & ->).
  pose proof (join_nonempty dir name Hp) as Hne.
  unfold fs.isdir, fs.isfile.
  rewrite !(lookup_join w (posixpath.join dir name)) by done.
  rewrite (lookup_join w dir name HF Hp), Hd, (dir_of_join w dir name k HF Hp Hd).
  cbn [mbind option_bind]. unfold fs.is_dir, fs.is_file. rewrite !node_at_cons.
  destruct (tree w !! (name :: k)) as [[]|]; cbn [mbind option_bind andb];
    rewrite ?andb_false_r; done.
Qed.




(** An object is listed under the name of its directory, whatever the
    text of the URI it was made with. *)
Lemma object_is_listed self path name w k F d m :
  let dir := _object_path self path in
  posixpath.isabs (root_dir self) = true → proper name = true →
  object_at w F (name :: k) d m → dir_of w dir = Some k →
  ∃ names, list_objects self path None w = (Return (map (posixpath.join path) names), w)
           ∧ In name names.
Proof.
  intros dir Hroot Hp (Ha & Hd & H1 & H2) Hk.
  pose proof (object_path_abs self path Hroot) as Hda. fold dir in Hda.
  pose proof (isabs_nonempty _ Hda) as HD.
  pose proof (dir_of_is_dir _ _ _ Hd) as Hdir.
  exists (List.filter (listed w dir None) (fs.entries (tree w) k)).
  split; [by apply list_objects_dir|].
  rewrite filter_In, <-list_elem_of_In, elem_of_entries. split.
  - unfold fs.is_dir in Hdir. rewrite node_at_cons in Hdir.
    by destruct (tree w !! (name :: k)).
  - unfold listed. rewrite (valid_object_child w dir name k) by done.
    unfold fs.is_file. rewrite !node_at_cons, Hda, Hdir, H1, H2. done.
Qed.

(** X7: a created object is listed: after [create_object uri] has
    made an object whose directory is the entry [name] of the directory
    of [path], [list_objects path] lists [name]. *)
Theorem created_object_is_listed self uri path name data meta w k :
  let F := _object_path self uri in
  let res := create_object self uri data meta false w in
  posixpath.isabs (root_dir self) = true →
  sound (tree w) → no_dotdot F = true → calm w →
  is_Some (fs.mkdirs (tree w) [] (pystr.split "/" F)) →
  vacant w F →
  proper name = true →
  dir_of res.2 (_object_path self path) = Some k → dir_of res.2 F = Some (name :: k) →
  res.1 = Return F
  ∧ ∃ names, list_objects self path None res.2
             = (Return (map (posixpath.join path) names), res.2)
             ∧ In name names.
Proof.
  intros F res Hroot Hs Hp Hc [t1 Hm] Hv Hn Hk Hd.
  pose proof (object_path_abs self uri Hroot) as Ha. fold F in Ha.
  subst res. rewrite (world_eta w) in Hc, Hv, Hk, Hd |- *.
  destruct (create_fresh_ok self uri data meta false _ _ _ _ _ _ t1 Ha Hs Hp Hc Hm Hv)
    as [E Ho].
  fold F in E, Ho. rewrite E in Hk, Hd |- *. cbn [fst snd] in *.
  split; [done|].
  match type of Ho with object_at ?W _ _ _ _ => set (w' := W) in * end.
  destruct Ho as (Ha' & Hd' & H1 & H2). rewrite Hd in Hd'. injection Hd' as Hloc.
  apply (object_is_listed self path name w' k F data (_encode_meta meta)).
  - exact Hroot.
  - exact Hn.
  - split_and!; [done|done|by rewrite Hloc..].
  - exact Hk.
Qed.

(** ** Overwriting an object, whatever fails *)






(** ** Writing, then reading *)

Lemma not_dir_made t k0 cs n t1 :
  sound t → plain cs → proper n = true → fs.mkdirs t k0 cs = Some t1 →
  fs.walk t k0 (cs ++ [n]) ≫= fs.node_at t ≠ Some Dir →
  fs.node_at t1 (n :: loc k0 cs) ≠ Some Dir.
Proof.
  intros Hs Hp Hn Hmk Hw. rewrite node_at_cons, (made_children _ _ _ _ _ Hp Hmk).
  intros E. apply Hw.
  assert (fs.is_dir t (loc k0 cs) = true) as Hd by (apply (Hs n); by eexists).
  rewrite walk_app, (sound_walk _ _ _ Hs Hp Hd). cbn [mbind option_bind fs.walk].
  rewrite Hd, (step_proper _ _ Hn). cbn [mbind option_bind]. by rewrite node_at_cons.
Qed.

(** X9: whenever [_write path content] returns, [_read path] returns
    exactly [content] and the temporary file is gone; and it does
    return when no I/O fault strikes, the missing directories can be
    made, and neither the path nor the temporary path is a directory. *)
Theorem write_then_read path content w cs nm :
  let tmp_path := path +:+ "_" +:+ uuid.str (uuid.v4 (rand w (rand_next w))) in
  let res := _write path content w in
  pystr.split "/" path = cs ++ [nm] → proper nm = true →
  (res.1 = Return tt →
     _read path res.2 = (Return content, res.2) ∧ fs.exists_ res.2 tmp_path = false)
  ∧ (sound (tree w) → plain cs → calm w →
     is_Some (fs.mkdirs (tree w) (fs.start w path) cs) →
     fs.isdir w path = false → fs.isdir w tmp_path = false →
     res.1 = Return tt).
Proof.
  intros tmp_path res HP Hnm.
  set (u := uuid.str (uuid.v4 (rand w (rand_next w)))) in *.
  assert (pystr.mem "/" ("_" +:+ u) = false) as Hu by apply uuid_str_noslash.
  assert (proper (nm +:+ "_" +:+ u) = true) as Hnmu by by apply temp_proper.
  assert (nm +:+ "_" +:+ u ≠ nm) as Hneq by apply temp_neq.
  assert (path ≠ "") as Hne.
  { apply (split_nonempty _ _ _ HP). by apply proper_spec in Hnm as [? _]. }
  split.
  - pose proof (write_shape path u content cs nm (tree w) (cwd w) HP Hnm Hu Hnmu Hneq
                  (uuid.uuid4 w).2 eq_refl eq_refl) as H.
    cbv zeta in H. change ((try_except _ _ ≫= _) (uuid.uuid4 w).2) with res in H.
    destruct H as [Hc H]. intros Hr.
    destruct H as [(Hr' & _)|[([e Hr'] & _)|(_ & tb & Hm & Hn & Hg & Ht)]];
      [congruence|congruence|].
    assert (∀ x, fs.is_dir (tree res.2) x = fs.is_dir tb x) as Hsame.
    { rewrite Ht. by apply same_dirs_step. }
    split.
    + unfold _read, try_except, builtins.read_bytes, fs.lookup_path.
      rewrite (wf_resolve_tgt path cs nm (cwd w) HP Hnm res.2 Hc).
      rewrite (walk_same _ _ _ _ Hsame), (wf_walk_made path cs (tree w) (cwd w) tb nm Hm Hnm).
      cbn [mbind option_bind]. by rewrite node_at_cons, Ht, lookup_insert_eq.
    + unfold fs.exists_, fs.lookup_path. fold u in tmp_path. unfold tmp_path.
      rewrite (wf_resolve_tmp path u cs nm (cwd w) HP Hnm Hu res.2 Hc).
      rewrite (walk_same _ _ _ _ Hsame),
              (wf_walk_made path cs (tree w) (cwd w) tb _ Hm Hnmu).
      cbn [mbind option_bind]. rewrite node_at_cons, Ht.
      rewrite lookup_insert_ne by (intros [= E]; by apply Hneq).
      by rewrite lookup_delete_eq.
  - intros Hs Hpl Hcalm [t1 Hm] Hd Hdt. subst res.
    destruct w as [t c r rn f fn]. cbn [tree cwd rand rand_next] in *.
    unfold fs.start in Hm. cbn [cwd] in Hm.
    rewrite (write_ok t c r rn f fn path content cs nm t1
               (calm_world _ _ _ _ _ _ Hcalm) HP Hnm Hm); [done| |].
    + apply (not_dir_made t _ cs _ t1 Hs Hpl Hnmu Hm).
      unfold fs.isdir, fs.lookup_path in Hdt. fold u in Hdt. unfold tmp_path in Hdt.
      rewrite (wf_resolve_tmp path u cs nm c HP Hnm Hu (World t c r rn f fn) eq_refl) in Hdt.
      cbn [tree] in Hdt. intros E.
      destruct (fs.walk t _ (cs ++ [nm +:+ "_" +:+ u])) as [kk|];
        cbn [mbind option_bind] in *; [by rewrite E in Hdt|done].
    + apply (not_dir_made t _ cs _ t1 Hs Hpl Hnm Hm).
      unfold fs.isdir, fs.lookup_path in Hd.
      rewrite (wf_resolve_tgt path cs nm c HP Hnm (World t c r rn f fn) eq_refl) in Hd.
      cbn [tree] in Hd. intros E.
      destruct (fs.walk t _ (cs ++ [nm])) as [kk|];
        cbn [mbind option_bind] in *; [by rewrite E in Hd|done].
Qed.

(** ** Where URIs resolve *)

Lemma lstrip_head chars s :
  match pystr.lstrip chars s with
  | "" => True
  | String c _ => pystr.mem c chars = false
  end.
Proof.
  induction s as [|c s IH]; [done|]. cbn [pystr.lstrip].
  by destruct (pystr.mem c chars) eqn:E.
Qed.

Lemma lstrip_app chars pre s :
  pystr.lstrip chars pre = "" → pystr.lstrip chars (pre +:+ s) = pystr.lstrip chars s.
Proof.
  induction pre as [|c pre IH]; [done|]. rewrite app_String. cbn [pystr.lstrip].
  destruct (pystr.mem c chars); [exact IH|done].
Qed.

Lemma startswith_app_self a b : pystr.startswith a (a +:+ b) = true.
Proof.
  induction a as [|c a IH]; [done|]. rewrite app_String. cbn [pystr.startswith].
  by rewrite Ascii.eqb_refl, IH.
Qed.

(** X10: when the URI root contains the separator, as the default
    ["/"] does, the path of every URI starts with the storage root, and
    leading characters of the URI that belong to the URI root count for
    nothing: ["//o"], ["/o"] and ["o"] name the same object. *)
Theorem object_path_stays_under_root self uri :
  pystr.mem "/" (uri_root self) = true →
  pystr.startswith (root_dir self) (_object_path self uri) = true
  ∧ (∀ pre, pystr.lstrip (uri_root self) pre = "" →
       _object_path self (pre +:+ uri) = _object_path self uri).
Proof.
  intros Hm. split.
  - unfold _object_path, posixpath.join.
    pose proof (lstrip_head (uri_root self) uri) as H.
    destruct (pystr.lstrip (uri_root self) uri) as [|c rest] eqn:E.
    + cbn [pystr.startswith]. destruct (_ || _); apply startswith_app_self.
    + assert (pystr.startswith "/" (String c rest) = false) as ->.
      { cbn [pystr.startswith]. destruct (Ascii.eqb "/" c) eqn:Ec; [|done].
        apply Ascii.eqb_eq in Ec. subst c. congruence. }
      destruct (_ || _); apply startswith_app_self.
  - intros pre Hp. unfold _object_path. by rewrite lstrip_app.
Qed.

(** ** What a new object leaves alone *)

Lemma walk_mono t t' k cs k' :
  (∀ x, fs.is_dir t x = true → fs.is_dir t' x = true) →
  fs.walk t k cs = Some k' → fs.walk t' k cs = Some k'.
Proof.
  intros H. revert k. induction cs as [|c cs IH]; intros k; simpl; [done|].
  destruct (fs.is_dir t k) eqn:E; [|done]. rewrite (H _ E). apply IH.
Qed.

Lemma dir_of_mono w w' F k :
  cwd w' = cwd w → (∀ x, fs.is_dir (tree w) x = true → fs.is_dir (tree w') x = true) →
  dir_of w F = Some k → dir_of w' F = Some k.
Proof.
  intros Hc H. unfold dir_of, fs.resolve, fs.start. rewrite Hc.
  case_bool_decide; [done|].
  destruct (fs.walk (tree w) _ _) as [k'|] eqn:E; [|done].
  rewrite (walk_mono _ _ _ _ _ H E). cbn [mbind option_bind].
  destruct (fs.is_dir (tree w) k') eqn:Ed; [|done]. by rewrite (H _ Ed).
Qed.

Lemma created_frame w kD data meta t1 x :
  (∀ n, x ≠ n :: kD) → created w kD data meta t1 !! x = t1 !! x.
Proof.
  intros H. unfold created.
  rewrite lookup_insert_ne, lookup_delete_ne, lookup_insert_ne, lookup_delete_ne,
          lookup_insert_ne, lookup_delete_ne; try done.
  all: by apply not_eq_sym.
Qed.

(** X11: a successful [create_object] on a free place leaves every
    other existing object as it was: its [get_data] and [get_meta]
    return what they returned before. *)
Theorem create_leaves_other_objects self uri uri' data meta w :
  let F := _object_path self uri in
  let F' := _object_path self uri' in
  let res := create_object self uri data meta false w in
  posixpath.isabs (root_dir self) = true →
  sound (tree w) → no_dotdot F = true → calm w →
  is_Some (fs.mkdirs (tree w) [] (pystr.split "/" F)) →
  vacant w F →
  valid_object w F' = true →
  res.1 = Return F
  ∧ (get_data self uri' res.2).1 = (get_data self uri' w).1
  ∧ (get_meta self uri' res.2).1 = (get_meta self uri' w).1.
Proof.
  intros F F' res Hroot Hs Hp Hc [t1 Hm] Hv Hv'.
  pose proof (object_path_abs self uri Hroot) as Ha. fold F in Ha.
  pose proof (isabs_nonempty _ Ha) as HF.
  pose proof Hv' as (k' & d' & m' & Ho)%valid_object_inv.
  subst res. rewrite (world_eta w) in Hc, Hv, Ho |- *.
  destruct (create_fresh_ok self uri data meta false _ _ _ _ _ _ t1 Ha Hs Hp Hc Hm Hv)
    as [E _].
  fold F in E. rewrite E. cbn [fst snd]. split; [done|].
  set (kD := loc [] (pystr.split "/" F)) in *.
  assert (∀ nm, tree w !! (nm :: kD) = None) as Hnone0.
  { intros nm. pose proof (vacant_children _ _ _ _ _ _ F nm HF Hs Hp Hv) as H.
    cbv zeta in H. by rewrite Ha in H. }
  assert (∀ nm, t1 !! (nm :: kD) = None) as Hnone.
  { intros nm. by rewrite (made_children _ _ _ _ _ (no_dotdot_plain _ Hp) Hm). }
  match goal with |- context [World (created ?W _ _ _ _) _ _ ?rn' _ ?fn'] =>
    set (w0 := W) in *;
    set (w' := World (created w0 kD data (_encode_meta meta) t1) (cwd w) (rand w) rn'
                     (io_fault w) fn') end.
  assert (object_at w' F' k' d' m') as Ho'.
  { destruct Ho as (Ha' & Hd' & H1 & H2). cbn [tree] in H1, H2.
    set (d1 := "data" +:+ "_" +:+ uuid.str (uuid.v4 (rand w (rand_next w)))).
    set (d2 := d1 +:+ "_" +:+ uuid.str (uuid.v4 (rand w (S (rand_next w))))).
    set (m3 := "meta" +:+ "_" +:+ uuid.str (uuid.v4 (rand w (S (S (rand_next w)))))).
    assert (d1 ≠ "meta") as N3 by (by intros [=]).
    destruct (three_steps t1 kD d1 d2 m3 data (_encode_meta meta) N3) as (Hsame & _ & _);
      try (by rewrite Hnone).
    assert (∀ n, "data" :: k' ≠ n :: kD) as Nd.
    { intros n [= <- <-]. by rewrite Hnone0 in H1. }
    assert (∀ n, "meta" :: k' ≠ n :: kD) as Nm.
    { intros n [= <- <-]. by rewrite Hnone0 in H2. }
    split_and!.
    - exact Ha'.
    - apply (dir_of_mono w0 w' F' k' eq_refl); [|exact Hd'].
      intros x Hx. cbn [tree w']. unfold created, temp_name.
      cbn [rand rand_next w0 Nat.add]. fold d1. fold d2. fold m3.
      rewrite Hsame. by apply (mkdirs_dirs _ _ _ _ Hm).
    - cbn [tree w']. rewrite (created_frame _ _ _ _ _ _ Nd).
      by apply (mkdirs_mono _ _ _ _ Hm).
    - cbn [tree w']. rewrite (created_frame _ _ _ _ _ _ Nm).
      by apply (mkdirs_mono _ _ _ _ Hm). }
  rewrite (get_data_at self uri' _ k' d' m' Ho'), (get_data_at self uri' _ k' d' m' Ho).
  by rewrite (get_meta_at self uri' _ k' d' m' Ho'), (get_meta_at self uri' _ k' d' m' Ho).
Qed.

(** ** Heads and tails of paths *)

Lemma upto_last_nil c s : pystr.upto_last c s = "" ↔ pystr.mem c s = false.
Proof.
  induction s as [|d s IH]; [done|]. cbn [pystr.upto_last pystr.mem].
  rewrite (Ascii.eqb_sym c d).
  destruct (pystr.upto_last c s) eqn:E.
  - destruct IH as [IH _]. rewrite (IH eq_refl). by destruct (Ascii.eqb d c).
  - destruct (pystr.mem c s) eqn:Em.
    + by destruct (Ascii.eqb d c).
    + destruct IH as [_ IH]. by specialize (IH eq_refl).
Qed.

Lemma upto_after_last c s : pystr.upto_last c s +:+ pystr.after_last c s = s.
Proof.
  induction s as [|d s IH]; [done|]. cbn [pystr.upto_last pystr.after_last].
  destruct (pystr.mem c s) eqn:Em.
  - destruct (pystr.upto_last c s) eqn:E.
    + apply upto_last_nil in E. congruence.
    + by rewrite app_String, IH.
  - apply upto_last_nil in Em. rewrite Em.
    destruct (Ascii.eqb d c); [done|]. by rewrite app_empty_l.
Qed.

Lemma rstrip_length c s : (String.length (pystr.rstrip_char c s) ≤ String.length s)%nat.
Proof.
  induction s as [|d s IH]; [done|]. cbn [pystr.rstrip_char].
  destruct (pystr.rstrip_char c s).
  - destruct (Ascii.eqb d c); simpl; lia.
  - simpl in *. lia.
Qed.

Lemma split_length p :
  (String.length (posixpath.split p).1 + String.length (posixpath.split p).2
   ≤ String.length p)%nat.
Proof.
  unfold posixpath.split, posixpath.dirname. cbn [fst snd].
  pose proof (f_equal String.length (upto_after_last posixpath.sep p)) as H.
  rewrite length_app_s in H.
  pose proof (rstrip_length posixpath.sep (pystr.upto_last posixpath.sep p)).
  destruct (_ && _); lia.
Qed.

Lemma split_leaf_shorter name :
  (os.split_leaf name).2 ≠ "" →
  (String.length (os.split_leaf name).1 < String.length name)%nat.
Proof.
  unfold os.split_leaf.
  pose proof (split_length name) as H1.
  destruct (posixpath.split name) as [h t] eqn:E. cbn [fst snd] in H1.
  destruct (String.eqb t "") eqn:Et.
  - pose proof (split_length h) as H2. intros Hne.
    destruct (posixpath.split h) as [h' t']. cbn [fst snd] in *.
    destruct t'; [done|]. simpl in H2. lia.
  - cbn [fst snd]. intros Hne. destruct t; [done|]. simpl in H1. lia.
Qed.

(** ** Making directories *)

Lemma mkdir_not_unmodelled p w : (os.mkdir p w).1 ≠ Raise Unmodelled.
Proof.
  unfold os.mkdir. rewrite bind_eq, fault_eq.
  destruct (io_fault w (io_next w)); [done|].
  case_bool_decide; [done|]. destruct (pystr.all_char _ p); [done|].
  destruct (fs.resolve _ _) as [k|]; [|done].
  destruct (fs.node_at _ k); [done|]. by destruct (fs.is_dir _ _).
Qed.

(** The fuel [os.makedirs] is given is enough. *)
Lemma makedirs_fuel_enough fuel name w :
  (String.length name < fuel)%nat → (os.makedirs_fuel fuel name w).1 ≠ Raise Unmodelled.
Proof.
  revert name w. induction fuel as [|fuel IH]; intros name w Hl; [lia|].
  cbn [os.makedirs_fuel].
  pose proof (split_leaf_shorter name) as Hs.
  destruct (os.split_leaf name) as [head tail]. cbn [fst snd] in Hs.
  rewrite bind_eq.
  destruct (negb (String.eqb head "") && negb (String.eqb tail "")) eqn:Ec.
  - apply andb_true_iff in Ec as [_ Et]. apply negb_true_iff, String.eqb_neq in Et.
    specialize (Hs Et).
    rewrite bind_eq. unfold os.path_exists, os.gets.
    destruct (fs.exists_ w head); cbn [negb].
    + rewrite ret_eq. apply mkdir_not_unmodelled.
    + rewrite bind_eq. unfold try_except.
      specialize (IH head w ltac:(lia)).
      destruct (os.makedirs_fuel fuel head w) as [[[]|e] w1]; cbn [fst snd] in IH.
      * rewrite ret_eq. destruct (String.eqb tail "."); [done|]. apply mkdir_not_unmodelled.
      * destruct e as [| [] | | | | |]; try done.
        rewrite !ret_eq. destruct (String.eqb tail "."); [done|]. apply mkdir_not_unmodelled.
  - rewrite ret_eq. apply mkdir_not_unmodelled.
Qed.

Lemma rstrip_isabs p :
  pystr.all_char posixpath.sep p = false →
  posixpath.isabs (pystr.rstrip_char posixpath.sep p) = posixpath.isabs p.
Proof.
  intros H. destruct p as [|d p]; [done|].
  destruct (rstrip_head posixpath.sep d p) as [E|[r E]].
  - apply rstrip_empty in E. congruence.
  - by rewrite E, !isabs_String.
Qed.

(** What a successful [os.mkdir] does. *)
Lemma mkdir_returns p w :
  (os.mkdir p w).1 = Return tt →
  ∃ k, fs.walk (tree w) (fs.start w p) (strip_blank (pystr.split "/" p)) = Some k
       ∧ fs.node_at (tree w) k = None
       ∧ io_fault w (io_next w) = None
       ∧ os.mkdir p w
         = (Return tt, World (<[k := Dir]> (tree w)) (cwd w) (rand w) (rand_next w)
                             (io_fault w) (S (io_next w))).
Proof.
  unfold os.mkdir. rewrite bind_eq, fault_eq.
  destruct (io_fault w (io_next w)); [done|].
  case_bool_decide as Hp; [done|]. destruct (pystr.all_char _ p) eqn:Ea; [done|].
  set (w1 := World _ _ _ _ _ _).
  assert (pystr.rstrip_char posixpath.sep p ≠ "") as Hne.
  { intros E. apply rstrip_empty in E. congruence. }
  rewrite (resolve_nonempty w1 _ Hne). unfold fs.start. rewrite (rstrip_isabs p Ea).
  unfold posixpath.sep. rewrite (rstrip_split "/" p Ea). cbn [tree cwd w1].
  destruct (fs.walk _ _ _) as [k|] eqn:Ew; [|done].
  destruct (fs.node_at (tree w) k) eqn:En; [done|].
  destruct (fs.is_dir (tree w) (tail k)); [|done]. intros _. by exists k.
Qed.

Lemma walk_blanks t k j : fs.is_dir t k = true → fs.walk t k (repeat "" j) = Some k.
Proof.
  intros H. induction j as [|j IH]; [done|]. cbn [repeat fs.walk].
  by rewrite H, step_blank.
Qed.

Lemma mkdir_isdir p w :
  (os.mkdir p w).1 = Return tt → fs.isdir (os.mkdir p w).2 p = true.
Proof.
  intros H. destruct (mkdir_returns p w H) as (k & Hw & Hn & _ & E). rewrite E. cbn [snd].
  assert (k ≠ []) as Hk by (intros ->; done).
  assert (p ≠ "") as Hp.
  { intros ->. unfold os.mkdir in H. rewrite bind_eq, fault_eq in H.
    by destruct (io_fault w (io_next w)). }
  set (t' := <[k := Dir]> (tree w)).
  assert (fs.is_dir t' k = true) as Hd.
  { unfold fs.is_dir, t'. destruct k; [done|]. by rewrite node_at_cons, lookup_insert_eq. }
  unfold fs.isdir, fs.lookup_path. rewrite resolve_nonempty by done.
  unfold fs.start at 1. cbn [tree cwd]. fold (fs.start w p).
  destruct (strip_blank_tail (pystr.split "/" p)) as [j Ej]. rewrite Ej.
  rewrite walk_app.
  rewrite (walk_mono (tree w) t' _ _ k (λ x, is_dir_insert_dir _ k x) Hw).
  cbn [mbind option_bind]. rewrite (walk_blanks _ _ _ Hd). cbn [mbind option_bind].
  unfold fs.is_dir in Hd. by destruct (fs.node_at t' k) as [[]|].
Qed.

Lemma makedirs_fuel_isdir fuel name w :
  (os.split_leaf name).2 ≠ "." →
  (os.makedirs_fuel fuel name w).1 = Return tt →
  fs.isdir (os.makedirs_fuel fuel name w).2 name = true.
Proof.
  destruct fuel as [|fuel]; [done|]. cbn [os.makedirs_fuel].
  destruct (os.split_leaf name) as [head tail]. cbn [fst snd]. intros Ht.
  apply String.eqb_neq in Ht. rewrite Ht, bind_eq.
  destruct (negb (String.eqb head "") && negb (String.eqb tail "")).
  - rewrite bind_eq. unfold os.path_exists, os.gets.
    destruct (fs.exists_ w head); cbn [negb].
    + rewrite ret_eq. apply mkdir_isdir.
    + rewrite bind_eq. unfold try_except.
      destruct (os.makedirs_fuel fuel head w) as [[[]|e] w1].
      * rewrite ret_eq. apply mkdir_isdir.
      * destruct e as [| [] | | | | |]; try done. rewrite !ret_eq. apply mkdir_isdir.
  - rewrite ret_eq. apply mkdir_isdir.
Qed.

(** X12: [FilesystemStorage.__init__] raises [ValueError] and changes
    nothing for a root that is not absolute, or that exists and is not
    a directory; for an existing directory it returns the storage and
    changes nothing; every storage it returns has the given fields and
    an absolute root, which afterwards is a directory unless its last
    component is ["."]; and the recursion of [os.makedirs] never runs
    out of fuel. *)
Theorem init_contract root uroot w :
  let res := __init__ root uroot w in
  (posixpath.isabs root = false → res = (ValueError NotAbsolute, w))
  ∧ (posixpath.isabs root = true → fs.exists_ w root = true →
     fs.isdir w root = false → res = (ValueError NotADirectory, w))
  ∧ (posixpath.isabs root = true → fs.isdir w root = true →
     res = (Built {| root_dir := root; uri_root := uroot |}, w))
  ∧ (∀ self, res.1 = Built self →
       self = {| root_dir := root; uri_root := uroot |}
       ∧ posixpath.isabs (root_dir self) = true
       ∧ ((os.split_leaf root).2 ≠ "." → fs.isdir res.2 root = true))
  ∧ res.1 ≠ Failed Unmodelled.
Proof.
  intros res. subst res. unfold __init__.
  destruct (posixpath.isabs root) eqn:Ha; cbn [negb].
  2:{ split_and!; try done. }
  destruct (fs.exists_ w root) eqn:Ee; cbn [negb andb].
  - destruct (fs.isdir w root) eqn:Ed; cbn [negb].
    + split_and!; try done. intros self [= <-]. by split_and!.
    + split_and!; try done.
  - assert (fs.isdir w root = false) as Ed.
    { unfold fs.isdir, fs.exists_ in *. by destruct (fs.lookup_path w root). }
    pose proof (makedirs_fuel_enough (S (String.length root)) root w ltac:(lia)) as Hf.
    pose proof (makedirs_fuel_isdir (S (String.length root)) root w) as Hi.
    unfold os.makedirs.
    destruct (os.makedirs_fuel (S (String.length root)) root w) as [[[]|e] w1];
      cbn [fst snd] in *.
    + split_and!; try done; try congruence. intros self [= <-]. split_and!; try done.
      intros Hl. by apply Hi.
    + split_and!; try done; try congruence.
Qed.

Lemma mem_split_last c s cs l :
  pystr.split c s = cs ++ [l] → pystr.mem c s = negb (bool_decide (cs = [])).
Proof.
  revert cs l. induction s as [|d s IH]; intros cs l; simpl.
  - intros E. destruct cs as [|? [|]]; simplify_eq/=. done.
  - rewrite (Ascii.eqb_sym c d). destruct (Ascii.eqb d c).
    + intros E. destruct cs as [|x cs]; [|done].
      simplify_eq/=. by apply split_nonnil in H0.
    + destruct (pystr.split c s) as [|x xs] eqn:Es; [by apply split_nonnil in Es|].
      intros E. destruct cs as [|y cs].
      * simplify_eq/=. by rewrite (IH [] x).
      * simplify_eq/=. by rewrite (IH (x :: cs) l).
Qed.

Lemma after_last_split c s cs l :
  pystr.split c s = cs ++ [l] → pystr.after_last c s = l.
Proof.
  revert cs l. induction s as [|d s IH]; intros cs l.
  - simpl. intros E. destruct cs as [|? [|]]; simplify_eq/=. done.
  - destruct (split_last c s) as (cs' & l' & Es & _). specialize (IH cs' l' Es).
    pose proof (mem_split_last c s cs' l' Es) as Hm.
    cbn [pystr.after_last pystr.split].
    destruct (pystr.mem c s) eqn:Em.
    + destruct cs' as [|y cs']; [done|]. rewrite Es.
      destruct (Ascii.eqb d c); cbn [app]; intros E.
      * change ("" :: y :: cs' ++ [l']) with (("" :: y :: cs') ++ [l']) in E.
        apply app_inj_tail in E as [_ <-]. exact IH.
      * change (String d y :: cs' ++ [l']) with ((String d y :: cs') ++ [l']) in E.
        apply app_inj_tail in E as [_ <-]. exact IH.
    + rewrite (split_nosep c s Em).
      destruct (Ascii.eqb d c); intros E.
      * change ["" ; s] with ([""] ++ [s]) in E. by apply app_inj_tail in E as [_ <-].
      * change [String d s] with ([] ++ [String d s]) in E.
        by apply app_inj_tail in E as [_ <-].
Qed.

Lemma strip_blank_last cs c : c ≠ "" → strip_blank (cs ++ [c]) = cs ++ [c].
Proof.
  intros Hc. induction cs as [|x cs IH]; simpl.
  - by rewrite bool_decide_eq_false_2.
  - rewrite IH. by destruct cs.
Qed.

Lemma split_leaf_proper root cs nm :
  pystr.split "/" root = cs ++ [nm] → proper nm = true →
  os.split_leaf root = (posixpath.dirname root, nm).
Proof.
  intros Hs Hp. unfold os.split_leaf, posixpath.split, posixpath.sep.
  rewrite (after_last_split "/" root cs nm Hs).
  apply proper_spec in Hp as (Hne & _). apply String.eqb_neq in Hne. by rewrite Hne.
Qed.

Lemma proper_not_all root cs nm :
  pystr.split "/" root = cs ++ [nm] → proper nm = true → pystr.all_char "/" root = false.
Proof.
  intros Hs Hp. destruct (pystr.all_char "/" root) eqn:E; [|done].
  rewrite (all_char_split _ _ E) in Hs. apply proper_spec in Hp as (Hne & _).
  change (S (String.length root)) with (1 + String.length root)%nat in Hs.
  rewrite Nat.add_comm, repeat_app in Hs. simpl in Hs.
  by apply app_inj_tail in Hs as [_ <-].
Qed.

(** X13: when the root does not exist, its parent is a directory, its
    last component is a proper name and no I/O fault strikes,
    [FilesystemStorage.__init__] returns the storage and makes exactly
    one directory, the root. *)
Theorem init_makes_root root uroot w cs nm :
  posixpath.isabs root = true →
  pystr.split "/" root = cs ++ [nm] → proper nm = true →
  fs.isdir w (posixpath.dirname root) = true → fs.exists_ w root = false →
  io_fault w (io_next w) = None →
  ∃ k, dir_of w (posixpath.dirname root) = Some k
       ∧ __init__ root uroot w
         = (Built {| root_dir := root; uri_root := uroot |},
            World (<[nm :: k := Dir]> (tree w)) (cwd w) (rand w) (rand_next w)
                  (io_fault w) (S (io_next w))).
Proof.
  intros Ha Hs Hp Hd He Hf.
  pose proof (isabs_nonempty _ Ha) as Hne.
  assert (posixpath.isabs (posixpath.dirname root) = true) as Hda by by rewrite dirname_isabs.
  pose proof (isabs_nonempty _ Hda) as Hdne.
  unfold fs.isdir in Hd.
  destruct (fs.lookup_path w (posixpath.dirname root)) as [[]|] eqn:El; try done.
  pose proof El as [k Hk]%lookup_dir. exists k. split; [done|].
  (* the components ahead of the last one lead to the parent *)
  assert (walk_dir (tree w) [] cs = Some k) as Hwd.
  { rewrite dir_of_walk in Hk by done. unfold fs.start in Hk. rewrite Hda in Hk.
    rewrite walk_dir_strip, (dirname_split _ _ _ Hs), <-walk_dir_strip in Hk. done. }
  assert (fs.walk (tree w) [] (cs ++ [nm]) = Some (nm :: k)) as Hw.
  { unfold walk_dir in Hwd. rewrite walk_app.
    destruct (fs.walk (tree w) [] cs) as [k'|]; [|done]. cbn [mbind option_bind] in *.
    destruct (fs.is_dir (tree w) k') eqn:Ed; [|done]. injection Hwd as ->.
    cbn [fs.walk]. by rewrite Ed, (step_proper _ _ Hp). }
  assert (tree w !! (nm :: k) = None) as Hn.
  { unfold fs.exists_, fs.lookup_path in He. rewrite resolve_nonempty in He by done.
    unfold fs.start in He. rewrite Ha, Hs, Hw in He. cbn [mbind option_bind] in He.
    rewrite node_at_cons in He. by destruct (tree w !! (nm :: k)). }
  unfold __init__. rewrite Ha, He. cbn [negb andb].
  unfold os.makedirs. cbn [os.makedirs_fuel]. rewrite (split_leaf_proper root cs nm Hs Hp).
  apply String.eqb_neq in Hdne as Hd1. rewrite Hd1.
  pose proof Hp as (Hnm & _)%proper_spec. apply String.eqb_neq in Hnm as Hn1. rewrite Hn1.
  cbn [negb andb]. rewrite bind_eq, bind_eq. unfold os.path_exists, os.gets, fs.exists_.
  rewrite El. cbn [negb]. rewrite ret_eq.
  (* the leaf *)
  unfold os.mkdir. rewrite bind_eq, fault_eq, Hf.
  rewrite bool_decide_eq_false_2 by done.
  unfold posixpath.sep. rewrite (proper_not_all root cs nm Hs Hp).
  set (w1 := World _ _ _ _ _ _).
  assert (pystr.rstrip_char "/" root ≠ "") as Hrne.
  { intros E. apply rstrip_empty in E. by rewrite (proper_not_all root cs nm Hs Hp) in E. }
  rewrite (resolve_nonempty w1 _ Hrne). unfold fs.start.
  pose proof (rstrip_isabs root (proper_not_all root cs nm Hs Hp)) as Hra.
  unfold posixpath.sep in Hra. rewrite Hra, Ha.
  rewrite (rstrip_split "/" root (proper_not_all root cs nm Hs Hp)), Hs.
  rewrite (strip_blank_last cs nm Hnm). cbn [tree w1]. rewrite Hw, node_at_cons, Hn.
  cbn [tail]. by rewrite (walk_dir_is_dir _ _ _ _ Hwd).
Qed.

(** ** A create that fails on a free place *)





(** ** Tags and updates at the edges *)

(** X15: [tag_object] on a URI whose path is not a directory raises
    the [OSError] of [open], not a [StorageException], and leaves the
    file tree as it was: it makes no directory. *)
Theorem tag_object_needs_directory self uri tag data w :
  let F := _object_path self uri in
  let res := tag_object self uri tag data w in
  posixpath.isabs (root_dir self) = true → proper tag = true →
  fs.isdir w F = false →
  (∃ e, res.1 = Raise (OSError e)) ∧ tree res.2 = tree w.
Proof.
  intros F res Hroot Hp Hd.
  pose proof (isabs_nonempty _ (object_path_abs self uri Hroot)) as HF. fold F in HF.
  subst res. unfold tag_object. fold F. rewrite bind_eq.
  unfold builtins.open_write. rewrite bind_eq, fault_eq.
  destruct (io_fault w (io_next w)); [by split; [eexists|]|].
  set (w1 := World _ _ _ _ _ _).
  assert (dir_of w1 F = None) as Hn.
  { destruct (dir_of w1 F) as [k|] eqn:E; [|done].
    assert (is_Some (dir_of w F)) as Hs.
    { exists k. rewrite <-E. symmetry. by apply dir_of_same. }
    apply lookup_dir in Hs. unfold fs.isdir in Hd. by rewrite Hs in Hd. }
  rewrite (resolve_join w1 F tag HF Hp), Hn. cbn [mbind option_bind fst snd].
  by split; [eexists|].
Qed.

(** X16: [update_meta] reads the stored meta only to merge: without
    [replace], a stored meta that does not decode makes it raise the
    decoding error, and one that is no dictionary [AttributeError], and
    nothing is written; with [replace] it succeeds whatever the stored
    meta is, after which [get_meta] returns the new mapping. *)
Theorem update_meta_reads_only_to_merge self uri new w :
  let F := _object_path self uri in
  valid_object w F = true →
  (∀ e, (get_meta self uri w).1 = Raise e →
     update_meta self uri new false w = (Raise e, w))
  ∧ (∀ v, (get_meta self uri w).1 = Return v → (∀ items, v ≠ VDict items) →
       update_meta self uri new false w = (Raise AttributeError, w))
  ∧ (calm w → unused w F (temp_name w 0 "meta") → well_formed (VDict new) = true →
     let res := update_meta self uri new true w in
     res.1 = Return tt ∧ get_meta self uri res.2 = (Return (VDict new), res.2)).
Proof.
  intros F Hv. pose proof Hv as (k & d & m & Ho)%valid_object_inv.
  pose proof (get_meta_at self uri w k d m Ho) as Hg.
  split_and!.
  - intros e He. rewrite Hg in He. cbn [fst] in He.
    unfold update_meta. fold F. rewrite bind_eq, object_exists_eq, Hv. cbn [negb].
    by rewrite bind_eq, Hg, He.
  - intros v Hr Hnd. rewrite Hg in Hr. cbn [fst] in Hr.
    unfold update_meta. fold F. rewrite bind_eq, object_exists_eq, Hv. cbn [negb].
    rewrite bind_eq, Hg, Hr. destruct v; try done. by specialize (Hnd items).
  - intros Hc Hu Hwf res. subst res F. unfold update_meta.
    rewrite bind_eq, object_exists_eq, Hv. cbn [negb]. cbv beta iota.
    destruct w as [t c r rn f fn].
    destruct (write_meta_ok self uri (_encode_meta new) t c r rn f fn k d m Ho Hc Hu)
      as (t' & -> & Ho').
    cbn [fst snd]. split; [done|].
    by rewrite (get_meta_at self uri _ k d _ Ho'), decode_encode_meta.
Qed.

(** ** Deleting, then creating again *)

(** Directories can be made along a path on which nothing but
    directories stands. *)
Lemma mkdirs_possible t k0 cs :
  plain cs → fs.is_dir t k0 = true →
  (∀ x, k0 `suffix_of` x → x `suffix_of` loc k0 cs → x ≠ [] →
        t !! x = None ∨ t !! x = Some Dir) →
  is_Some (fs.mkdirs t k0 cs).
Proof.
  revert t k0. induction cs as [|c cs IH]; intros t k0 Hp Hd Hx; simpl.
  - rewrite Hd. by eexists.
  - unfold plain in Hp. rewrite not_elem_of_cons in Hp. destruct Hp as [Hc Hp].
    rewrite Hd.
    assert (k0 `suffix_of` fs.step k0 c) as H0 by by apply step_suffix.
    assert (fs.step k0 c `suffix_of` loc (fs.step k0 c) cs) as H1 by by apply loc_suffix.
    change (loc k0 (c :: cs)) with (loc (fs.step k0 c) cs) in Hx.
    revert H0 H1 Hx. generalize (fs.step k0 c). intros k1 H0 H1 Hx.
    destruct (fs.node_at t k1) as [n|] eqn:En.
    + apply IH; [exact Hp| |].
      * unfold fs.is_dir. rewrite En.
        destruct k1 as [|a l]; [by simplify_eq/=|].
        rewrite node_at_cons in En.
        destruct (Hx (a :: l)) as [E|E]; [done|done|done| |]; rewrite E in En.
        -- done.
        -- by simplify_eq.
      * intros x Ha Hb Hne. apply Hx; [by etrans|done|done].
    + apply IH; [exact Hp| |].
      * unfold fs.is_dir. destruct k1 as [|a l]; [done|].
        by rewrite node_at_cons, lookup_insert_eq.
      * intros x Ha Hb Hne. destruct (decide (x = k1)) as [->|N].
        -- right. by rewrite lookup_insert_eq.
        -- rewrite lookup_insert_ne by done. apply Hx; [by etrans|done|done].
Qed.

Lemma is_dir_lookup t x : x ≠ [] → fs.is_dir t x = true → t !! x = Some Dir.
Proof.
  intros Hne. unfold fs.is_dir. destruct x as [|a l]; [done|]. rewrite node_at_cons.
  by destruct (t !! (a :: l)) as [[]|].
Qed.

(** X17: after [delete_object] on an existing object, [create_object]
    for the same URI, without overwriting, succeeds, and [get_data] and
    [get_meta] return the new data and meta. *)
Theorem delete_then_create self uri data meta w k :
  let F := _object_path self uri in
  let w1 := (delete_object self uri w).2 in
  let res := create_object self uri data meta false w1 in
  posixpath.isabs (root_dir self) = true →
  sound (tree w) → no_dotdot F = true → calm w →
  well_formed (VDict meta) = true →
  valid_object w F = true → dir_of w F = Some k → k ≠ [] →
  res.1 = Return F
  ∧ get_data self uri res.2 = (Return data, res.2)
  ∧ get_meta self uri res.2 = (Return (VDict meta), res.2).
Proof.
  intros F w1 res Hroot Hs Hp Hc Hwf Hv Hd Hk.
  pose proof (object_path_abs self uri Hroot) as Ha. fold F in Ha.
  pose proof (isabs_nonempty _ Ha) as HF.
  pose proof (no_dotdot_plain _ Hp) as Hpl.
  destruct (dir_of_resolve _ _ _ Hd) as [Hr Hn].
  assert (w1 = World (fs.remove_subtree (tree w) k) (cwd w) (rand w) (rand_next w)
                     (io_fault w) (io_next w)) as Hw1.
  { unfold w1, delete_object. change (posixpath.join _ _) with F.
    rewrite bind_eq, object_exists_eq, Hv. cbn [negb]. rewrite bind_eq.
    unfold shutil.rmtree. rewrite Hr, Hn. by rewrite bool_decide_eq_false_2. }
  pose proof Hr as Hloc. apply resolve_loc in Hloc. unfold fs.start in Hloc.
  rewrite Ha in Hloc.
  set (t' := fs.remove_subtree (tree w) k) in *.
  assert (sound t') as Hs' by by apply remove_subtree_sound.
  assert (is_Some (fs.mkdirs t' [] (pystr.split "/" F))) as [t1 Hm].
  { apply mkdirs_possible; [done|done|]. rewrite <-Hloc. intros x _ Hx Hne.
    unfold t'. rewrite remove_subtree_lookup. case_bool_decide; [by left|right].
    apply is_dir_lookup; [done|]. apply (sound_suffix _ x k Hs Hx).
    by apply (dir_of_is_dir w F). }
  assert (vacant w1 F) as Hvac.
  { intros k' Hk'. destruct (dir_of_resolve _ _ _ Hk') as [Hr' Hn'].
    apply resolve_loc in Hr'. unfold fs.start in Hr'. rewrite Ha, <-Hloc in Hr'. subst k'.
    rewrite Hw1 in Hn'. cbn [tree] in Hn'. destruct k as [|a l]; [done|].
    rewrite node_at_cons in Hn'. unfold t' in Hn'. rewrite remove_subtree_lookup in Hn'.
    by rewrite bool_decide_eq_true_2 in Hn'. }
  assert (calm w1) as Hc1 by (by rewrite Hw1).
  subst res. revert Hvac Hc1. rewrite Hw1. intros Hvac Hc1.
  destruct (create_fresh_ok self uri data meta false _ _ _ _ _ _ t1 Ha Hs' Hp Hc1 Hm Hvac)
    as [E Ho].
  fold F in E, Ho. rewrite E. cbn [fst snd]. split_and!; [done|by eapply get_data_at|].
  rewrite (get_meta_at _ _ _ _ _ _ Ho). by rewrite decode_encode_meta.
Qed.

(** ** Listing after a deletion *)




(** ** No entry is listed twice *)






(** ** The further properties on sample worlds *)

Lemma update_data_replaces_witness :
  let res := update_data demo.store "/o" [x79] demo.stored in
  res.1 = Return tt
  ∧ get_data demo.store "/o" res.2 = (Return [x79], res.2)
  ∧ (get_meta demo.store "/o" res.2).1 = (get_meta demo.store "/o" demo.stored).1.
Proof.
  intros res.
  destruct (update_data_replaces demo.store "/o" [x79] demo.stored) as (H1 & _ & H3 & H4).
  - reflexivity.
  - assert (res.1 = Return tt) as E.
    { apply H4; [apply quiet_calm|]. unfold unused. vm_compute. reflexivity. }
    split_and!; [exact E|exact (H3 E)|exact H1].
Defined.

Lemma update_meta_keeps_data_witness :
  (get_data demo.store "/o" (update_meta demo.store "/o" demo.meta2 false demo.stored).2).1
  = (get_data demo.store "/o" demo.stored).1.
Proof.
  apply (update_meta_keeps_data demo.store "/o" demo.meta2 false demo.stored). reflexivity.
Defined.

Lemma delete_object_removes_witness :
  let res := delete_object demo.store "/o" demo.stored in
  res.1 = Return "/s/o" ∧ valid_object res.2 "/s/o" = false.
Proof.
  intros res.
  destruct (delete_object_removes demo.store "/o" demo.stored ["o"; "s"])
    as (H1 & _ & _ & _ & H5 & _).
  - reflexivity.
  - vm_compute. reflexivity.
  - discriminate.
  - split; [exact H1|exact H5].
Defined.


Lemma created_object_is_listed_witness :
  (create_object demo.store "/o" demo.hi demo.meta1 false demo.blank).1 = Return "/s/o".
Proof.
  apply (created_object_is_listed demo.store "/o" "/" "o" demo.hi demo.meta1 demo.blank ["s"]).
  - reflexivity.
  - apply sound_check_sound. reflexivity.
  - reflexivity.
  - apply quiet_calm.
  - vm_compute. eexists. reflexivity.
  - apply vacant_check_vacant. reflexivity.
  - reflexivity.
  - vm_compute. reflexivity.
  - vm_compute. reflexivity.
Defined.


Lemma write_then_read_witness :
  let res := _write "/d/f" demo.hi demo.blank in
  res.1 = Return tt ∧ _read "/d/f" res.2 = (Return demo.hi, res.2).
Proof.
  intros res.
  destruct (write_then_read "/d/f" demo.hi demo.blank [""; "d"] "f") as [H1 H2].
  - reflexivity.
  - reflexivity.
  - assert (res.1 = Return tt) as E.
    { apply H2.
      - apply sound_check_sound. reflexivity.
      - unfold plain. apply (bool_decide_unpack _). vm_compute. exact I.
      - apply quiet_calm.
      - vm_compute. eexists. reflexivity.
      - reflexivity.
      - vm_compute. reflexivity. }
    split; [exact E|exact (proj1 (H1 E))].
Defined.

Lemma object_path_stays_under_root_witness :
  pystr.startswith "/s" (_object_path demo.store "//etc/passwd") = true
  ∧ _object_path demo.store ("//" +:+ "o") = _object_path demo.store "o".
Proof.
  destruct (object_path_stays_under_root demo.store "//etc/passwd" eq_refl) as [H1 _].
  destruct (object_path_stays_under_root demo.store "o" eq_refl) as [_ H2].
  split; [exact H1|exact (H2 "//" eq_refl)].
Defined.

Lemma create_leaves_other_objects_witness :
  let res := create_object demo.store "/n" [x79] demo.meta2 false demo.stored in
  res.1 = Return "/s/n"
  ∧ (get_data demo.store "/o" res.2).1 = (get_data demo.store "/o" demo.stored).1
  ∧ (get_meta demo.store "/o" res.2).1 = (get_meta demo.store "/o" demo.stored).1.
Proof.
  apply (create_leaves_other_objects demo.store "/n" "/o" [x79] demo.meta2 demo.stored).
  - reflexivity.
  - apply sound_check_sound. reflexivity.
  - reflexivity.
  - apply quiet_calm.
  - vm_compute. eexists. reflexivity.
  - apply vacant_check_vacant. reflexivity.
  - reflexivity.
Defined.

Lemma init_contract_witness :
  __init__ "s" "/" demo.blank = (ValueError NotAbsolute, demo.blank)
  ∧ __init__ "/s/f" "/" demo.shelf = (ValueError NotADirectory, demo.shelf)
  ∧ __init__ "/s" "/" demo.shelf = (Built demo.store, demo.shelf)
  ∧ fs.isdir (__init__ "/a/b" "/" demo.blank).2 "/a/b" = true.
Proof.
  split_and!.
  - apply (init_contract "s" "/" demo.blank). reflexivity.
  - apply (proj1 (proj2 (init_contract "/s/f" "/" demo.shelf))); reflexivity.
  - apply (proj1 (proj2 (proj2 (init_contract "/s" "/" demo.shelf)))); reflexivity.
  - destruct (proj1 (proj2 (proj2 (proj2 (init_contract "/a/b" "/" demo.blank))))
               {| root_dir := "/a/b"; uri_root := "/" |}) as (_ & _ & H).
    + vm_compute. reflexivity.
    + apply H. vm_compute. discriminate.
Defined.

Lemma init_makes_root_witness :
  (__init__ "/s/new" "/" demo.stored).1 = Built {| root_dir := "/s/new"; uri_root := "/" |}.
Proof.
  destruct (init_makes_root "/s/new" "/" demo.stored [""; "s"] "new") as (k & _ & E);
    [reflexivity..|].
  by rewrite E.
Defined.


Lemma tag_object_needs_directory_witness :
  tree (tag_object demo.store "/nope" "done" None demo.stored).2 = tree demo.stored.
Proof.
  apply (tag_object_needs_directory demo.store "/nope" "done" None demo.stored); reflexivity.
Defined.

Lemma update_meta_reads_only_to_merge_witness :
  update_meta demo.store "/o" demo.meta2 false demo.corrupt
  = (Raise JSONDecodeError, demo.corrupt)
  ∧ (let res := update_meta demo.store "/o" demo.meta2 true demo.corrupt in
     res.1 = Return tt
     ∧ get_meta demo.store "/o" res.2 = (Return (VDict demo.meta2), res.2)).
Proof.
  destruct (update_meta_reads_only_to_merge demo.store "/o" demo.meta2 demo.corrupt)
    as (H1 & _ & H3).
  - reflexivity.
  - split.
    + apply H1. vm_compute. reflexivity.
    + apply H3; [apply quiet_calm| |reflexivity]. unfold unused. vm_compute. reflexivity.
Defined.

Lemma delete_then_create_witness :
  let w1 := (delete_object demo.store "/o" demo.stored).2 in
  let res := create_object demo.store "/o" [x79] demo.meta2 false w1 in
  res.1 = Return "/s/o"
  ∧ get_data demo.store "/o" res.2 = (Return [x79], res.2)
  ∧ get_meta demo.store "/o" res.2 = (Return (VDict demo.meta2), res.2).
Proof.
  apply (delete_then_create demo.store "/o" [x79] demo.meta2 demo.stored ["o"; "s"]).
  - reflexivity.
  - apply sound_check_sound. reflexivity.
  - reflexivity.
  - apply quiet_calm.
  - reflexivity.
  - reflexivity.
  - vm_compute. reflexivity.
  - discriminate.
Defined.

Lemma reads_of_an_object_witness :
  get_data demo.store "/o" demo.stored = (Return demo.hi, demo.stored)
  ∧ get_detail demo.store "/o" demo.stored
    = (Return (VDict demo.meta1, demo.hi), demo.stored).
Proof.
  destruct (reads_of_an_object demo.store "/o" demo.stored eq_refl)
    as (d & m & Hd & Hm & H1 & _ & H3).
  vm_compute in Hd. vm_compute in Hm. injection Hd as <-. injection Hm as <-.
  split; [exact H1|]. rewrite H3. reflexivity.
Defined.



